(** * Recommendation scoring and fusion engine

    A shallow embedding of
    [backend/app/services/recommendation_engine.py] (class
    [RecommendationEngine]) and of the negative filtering of
    [backend/app/services/weaviate_service.py], with the properties of
    the specification stated and proved against it.

    Conventions of the embedding.
    - Python floats are read as exact rationals ([Q]); equalities between
      scores are stated with [==].
    - Python [str] is read as a Rocq [string] of ASCII characters;
      [str.lower], [str.split], [str.strip] and the classes [\w] and
      whitespace are the ASCII ones.
    - Course dictionaries are mutable objects: they live in a store
      ([heap]) and lists hold references ([loc]) to them, because
      [_combine_recommendations] writes the ['source'] key into the very
      dictionaries it was handed.
    - [try: ... except Exception:] is modelled with the result type [exc];
      the answers of the catalogue database, of the vector index and of
      the clock are inputs ([Env]). *)

From Stdlib Require Import Ascii String QArith Qminmax Qround Lqa Sorted Permutation.
From stdpp Require Import base list strings gmap pretty functions.

Open Scope Q_scope.

(** ** Text primitives (ASCII reading of the Python string methods) *)

Module Text.

Definition is_upper (c : ascii) : bool :=
  let n := N_of_ascii c in (65 <=? n)%N && (n <=? 90)%N.

Definition lower_ascii (c : ascii) : ascii :=
  if is_upper c then ascii_of_N (N_of_ascii c + 32) else c.

(** [s.lower()] *)
Fixpoint lower (s : string) : string :=
  match s with
  | EmptyString => EmptyString
  | String c s' => String (lower_ascii c) (lower s')
  end.

(** Whitespace as [str.split()] and [str.strip()] see it. *)
Definition is_space (c : ascii) : bool :=
  let n := N_of_ascii c in
  ((9 <=? n)%N && (n <=? 13)%N) || ((28 <=? n)%N && (n <=? 32)%N).

(** The regular-expression class [\w]. *)
Definition is_word (c : ascii) : bool :=
  let n := N_of_ascii c in
  ((48 <=? n)%N && (n <=? 57)%N) || ((65 <=? n)%N && (n <=? 90)%N)
  || ((97 <=? n)%N && (n <=? 122)%N) || (n =? 95)%N.

(** The regular-expression class [[^,.!?]]. *)
Definition not_delim (c : ascii) : bool :=
  let n := N_of_ascii c in
  negb ((n =? 44)%N || (n =? 46)%N || (n =? 33)%N || (n =? 63)%N).

(** [needle in hay] on strings: substring test. *)
Fixpoint contains (needle hay : string) : bool :=
  String.prefix needle hay ||
  match hay with
  | EmptyString => false
  | String _ hay' => contains needle hay'
  end.

(** [x in xs] on a list of strings. *)
Definition mem (x : string) (xs : list string) : bool :=
  existsb (String.eqb x) xs.

(** [xs.index(x)]; [None] stands for [ValueError]. *)
Fixpoint index (x : string) (xs : list string) : option nat :=
  match xs with
  | [] => None
  | y :: ys => if String.eqb x y then Some 0%nat else S <$> index x ys
  end.

(** Number of occurrences, as [Counter(xs)[x]]. *)
Fixpoint count (x : string) (xs : list string) : nat :=
  match xs with
  | [] => 0
  | y :: ys => (if String.eqb x y then 1 else 0) + count x ys
  end.

(** Maximal runs of non-separator characters, read left to right:
    [cur] holds the characters of the run being read, in reverse. *)
Definition flush (cur : list ascii) (acc : list string) : list string :=
  match cur with
  | [] => acc
  | _ => acc ++ [string_of_list_ascii (rev cur)]
  end.

Fixpoint tokens_go (sep : ascii -> bool) (s : string) (cur : list ascii)
    (acc : list string) : list string :=
  match s with
  | EmptyString => flush cur acc
  | String c s' =>
      if sep c then tokens_go sep s' [] (flush cur acc)
      else tokens_go sep s' (c :: cur) acc
  end.

Definition tokens (sep : ascii -> bool) (s : string) : list string :=
  tokens_go sep s [] [].

(** [s.split()] *)
Definition split (s : string) : list string := tokens is_space s.

(** [re.findall(r"\b\w+\b", s)]: the maximal runs of word characters. *)
Definition words (s : string) : list string :=
  tokens (fun c => negb (is_word c)) s.

Fixpoint lstrip (s : string) : string :=
  match s with
  | EmptyString => EmptyString
  | String c s' => if is_space c then lstrip s' else s
  end.

Definition rev_string (s : string) : string :=
  string_of_list_ascii (rev (list_ascii_of_string s)).

(** [s.strip()] *)
Definition strip (s : string) : string :=
  rev_string (lstrip (rev_string (lstrip s))).

(** Truthiness of an optional string: [None] and [''] are falsy. *)
Definition truthy (o : option string) : bool :=
  match o with
  | None | Some EmptyString => false
  | Some _ => true
  end.

End Text.

(** ** Data model *)

(** Provenance written by the fusion step under the key ['source']. *)
Inductive Source := Vector | Content.

Global Instance Source_eq_dec : EqDecision Source.
Proof. solve_decision. Defined.

(** A candidate dictionary.  ['vector_similarity'] and ['source'] may be
    missing ([course.get(...)]); ['difficulty'] and ['format'] may be
    [None] (nullable columns), and so may ['topics'] of a candidate of
    the vector search, whose index object holds no list. *)
Record Course := {
  id : string;
  title : string;
  description : string;
  topics : option (list string);
  difficulty : option string;
  duration : string;
  format : option string;
  rating : Q;
  vector_similarity : option Q;
  source : option Source
}.

(** [user_context['preferences']] *)
Record Preferences := {
  pref_topics : list string;
  pref_difficulty : option string;
  pref_learning_style : option string
}.

(** One entry of [user_context['recent_feedback']]; a missing rating
    reads as [0] and a missing course id as [None]. *)
Record Feedback := {
  fb_course_id : option string;
  fb_rating : Z
}.

(** A truthy [user_context], that is a dictionary with at least one key
    (the router always supplies ['user_id']).  The keys read by the engine
    are optional.  [None] at type [option UserContext] stands for the
    falsy values [None] and [{}]. *)
Record UserContext := {
  preferences : option Preferences;
  recent_feedback : option (list Feedback)
}.

(** Outcome of a block that may raise. *)
Inductive exc (A : Type) := Ok (a : A) | Raise.
Arguments Ok {A} a.
Arguments Raise {A}.

Global Instance exc_ret : MRet exc := fun _ a => Ok a.

Global Instance exc_bind : MBind exc := fun _ _ k m =>
  match m with
  | Ok a => k a
  | Raise => Raise
  end.

(** [try: body except Exception: handler] *)
Definition try_except {A} (body : exc A) (handler : A) : A :=
  match body with
  | Ok a => a
  | Raise => handler
  end.

(** ** The catalogue database and the other collaborators

    [execute_query] re-raises database errors, so every query is an
    [exc].  The vector index answers with objects and distances; the
    clock is [datetime.now()]. *)

(** A row of [SELECT id, title, description, topics, difficulty, duration,
    format, rating FROM courses], with the [topics] column decoded. *)
Record Row := {
  row_id : string;
  row_title : string;
  row_description : string;
  row_topics : list string;
  row_difficulty : option string;
  row_duration : string;
  row_format : option string;
  row_rating : Q
}.

(** The properties of an object of the vector index; [prop_topics] is
    [None] when the stored value is not a list, that is when it is
    [None]. *)
Record CourseProps := {
  prop_courseId : string;
  prop_title : string;
  prop_description : string;
  prop_topics : option (list string);
  prop_difficulty : option string;
  prop_duration : string;
  prop_format : option string;
  prop_rating : Q
}.

Record VectorObject := {
  properties : CourseProps;
  (** [obj.metadata.distance] *)
  distance : option Q
}.

Record Env := {
  (** [SELECT topics FROM courses WHERE id = ?], decoded; [Ok None] when
      there is no such row or its [topics] column is empty *)
  select_topics : string -> exc (option (list string));
  (** [SELECT title, description, topics FROM courses WHERE id = ?]: the
      title and the decoded topics, [Ok None] when there is no such row *)
  select_course : string -> exc (option (string * list string));
  (** the objects the index returns for a query text, a limit and a
      minimal certainty (embedding of the cleaned query included); no
      object when the client or the embedding is unavailable *)
  vector_index : string -> Z -> Q -> exc (list VectorObject);
  (** the rows of the final query of
      [_get_content_based_recommendations], [Raise] when one of its
      three queries fails *)
  content_rows : exc (list Row);
  (** the [courses] table, [Raise] when the database is unreachable *)
  catalog : exc (list Row);
  (** [datetime.now()] at the freshness test and at the store, in
      microseconds *)
  now_check : Z;
  now_store : Z
}.

(** ** Negative-Intent Extractor *)

Module Regex.

Fixpoint take_while (cls : ascii -> bool) (s : string) : string :=
  match s with
  | EmptyString => EmptyString
  | String c s' => if cls c then String c (take_while cls s') else EmptyString
  end.

Fixpoint drop (n : nat) (s : string) : string :=
  match n, s with
  | O, _ => s
  | S n', String _ s' => drop n' s'
  | S _, EmptyString => EmptyString
  end.

(** [re.findall] for a pattern made of a literal followed by one
    capturing group [(cls+)]: scan left to right; where the literal is
    followed by at least one character of the class, the capture is the
    longest run of such characters and the scan resumes after it.
    [skip] counts the characters of the current match still to pass. *)
Fixpoint findall_go (lit : string) (cls : ascii -> bool) (skip : nat)
    (s : string) : list string :=
  match s with
  | EmptyString => []
  | String _ s' =>
      match skip with
      | S k => findall_go lit cls k s'
      | O =>
          if String.prefix lit s then
            match take_while cls (drop (String.length lit) s) with
            | EmptyString => findall_go lit cls 0 s'
            | cap =>
                cap :: findall_go lit cls
                         (String.length lit + String.length cap - 1) s'
            end
          else findall_go lit cls 0 s'
      end
  end.

Definition findall (lit : string) (cls : ascii -> bool) (s : string)
  : list string := findall_go lit cls 0 s.

End Regex.

(** The literal heads of [negative_patterns]; each is followed by the
    group [([^,.!?]+)]. *)
Definition negative_patterns : list string :=
  [ "don't want to learn "; "not interested in "; "avoid "; "but not ";
    "except "; "without "; "no "; "I don't like " ]%string.

(** [[word.strip() for word in match.split() if word.strip()]] *)
Definition keywords_of (span : string) : list string :=
  map Text.strip
      (List.filter (fun word => negb (String.eqb (Text.strip word) ""))
                   (Text.split span)).

(** The two nested loops over patterns and matches. *)
Definition phrase_keywords (query_lower : string) : list string :=
  flat_map
    (fun pattern =>
       flat_map keywords_of (Regex.findall pattern Text.not_delim query_lower))
    negative_patterns.

(** [WeaviateService._extract_negative_keywords]; [list(set(...))] keeps
    one copy of each keyword, in an order Python leaves unspecified (here:
    first occurrences). *)
Definition _extract_negative_keywords (query_text : string) : list string :=
  let query_lower := Text.lower query_text in
  let negative_keywords := phrase_keywords query_lower in
  let not_matches := Regex.findall "not " Text.is_word query_lower in
  remove_dups (negative_keywords ++ not_matches).


(** The extraction inlined in
    [RecommendationEngine._get_vector_recommendations], guarded by
    [if query:]. *)
Definition engine_exclude_topics (query : option string) : list string :=
  if Text.truthy query
  then phrase_keywords (Text.lower (default EmptyString query))
  else [].

(** ** Negative filtering in the vector search *)

Fixpoint exclude_loop (topic_tokens title_tokens : list string)
    (negative_keywords : list string) : bool :=
  match negative_keywords with
  | [] => false
  | keyword :: rest =>
      let kw := Text.strip (Text.lower keyword) in
      if (String.length kw <? 3)%nat then
        exclude_loop topic_tokens title_tokens rest
      else if Text.mem kw topic_tokens || Text.mem kw title_tokens then true
      else exclude_loop topic_tokens title_tokens rest
  end.

Definition _should_exclude_course (course_props : CourseProps)
    (negative_keywords : list string) : bool :=
  match negative_keywords with
  | [] => false
  | _ =>
      let title_text := Text.lower (prop_title course_props) in
      let title_tokens := Text.words title_text in
      let topic_tokens :=
        match prop_topics course_props with
        | Some topics => map Text.lower topics
        | None => []
        end in
      exclude_loop topic_tokens title_tokens negative_keywords
  end.

(** A formatted result: the properties and the certainty reported as
    ['similarity_score']. *)
Definition SearchResult : Type := CourseProps * Q.

(** [for obj in result.objects], with its [break]. *)
Fixpoint search_loop (limit : Z) (min_certainty : Q)
    (negative_keywords : list string) (objects : list VectorObject)
    (formatted_courses : list SearchResult) : list SearchResult :=
  match objects with
  | [] => formatted_courses
  | obj :: rest =>
      let props := properties obj in
      let distance := default 1.0 (distance obj) in
      let certainty := 1.0 - distance in
      if Qle_bool min_certainty certainty then
        if negb (_should_exclude_course props negative_keywords) then
          let formatted_courses := formatted_courses ++ [(props, certainty)] in
          if (limit <=? Z.of_nat (length formatted_courses))%Z
          then formatted_courses
          else search_loop limit min_certainty negative_keywords rest
                           formatted_courses
        else search_loop limit min_certainty negative_keywords rest
                         formatted_courses
      else search_loop limit min_certainty negative_keywords rest
                       formatted_courses
  end.

Definition search_similar_courses (env : Env) (query_text : string)
    (limit : Z) (min_certainty : Q) (exclude_topics : list string)
    : list SearchResult :=
  try_except
    (let negative_keywords := _extract_negative_keywords query_text in
     let negative_keywords := negative_keywords ++ exclude_topics in
     objects ← vector_index env query_text (limit * 3) min_certainty;
     Ok (search_loop limit min_certainty negative_keywords objects []))
    [].

(** ** Retrieval stages: each catches every exception of its body *)

(** [settings.MAX_RECOMMENDATIONS] *)
Definition max_recommendations : Z := 10.

(** The search strings drawn from the stored preferences. *)
Definition preference_queries (prefs : Preferences) : list string :=
  let topic_queries :=
    match pref_topics prefs with
    | [] => []
    | topics => ["courses about " +:+ String.concat " " topics]
    end in
  let style_text := EmptyString in
  let style_text :=
    if Text.truthy (pref_learning_style prefs)
    then style_text +:+ default EmptyString (pref_learning_style prefs)
         +:+ " learning"
    else style_text in
  let style_text :=
    if Text.truthy (pref_difficulty prefs)
    then style_text +:+ " " +:+ default EmptyString (pref_difficulty prefs)
         +:+ " level"
    else style_text in
  topic_queries
  ++ (if String.eqb (Text.strip style_text) EmptyString then []
      else [Text.strip style_text]).

(** [for feedback in positive_feedback[:3]] *)
Fixpoint feedback_queries (env : Env) (positive_feedback : list Feedback)
    : exc (list string) :=
  match positive_feedback with
  | [] => Ok []
  | feedback :: rest =>
      if Text.truthy (fb_course_id feedback) then
        course ← select_course env (default EmptyString (fb_course_id feedback));
        queries ← feedback_queries env rest;
        Ok (match course with
            | Some (course_title, topics) =>
                (course_title +:+ " " +:+ String.concat " " topics) :: queries
            | None => queries
            end)
      else feedback_queries env rest
  end.

Definition candidate_of_result (result : SearchResult) : Course :=
  let props := fst result in
  {| id := prop_courseId props; title := prop_title props;
     description := prop_description props;
     topics := prop_topics props;
     difficulty := prop_difficulty props; duration := prop_duration props;
     format := prop_format props; rating := prop_rating props;
     vector_similarity := Some (snd result); source := None |}.

(** Statements of the [try] block of [_get_vector_recommendations]. *)
Definition vector_body (env : Env) (query : option string)
    (user_context : option UserContext) : exc (list Course) :=
  let search_queries :=
    if Text.truthy query then [default EmptyString query] else [] in
  let exclude_topics := engine_exclude_topics query in
  let search_queries :=
    search_queries
    ++ match user_context with
       | Some uc =>
           match preferences uc with
           | Some prefs => preference_queries prefs
           | None => []
           end
       | None => []
       end in
  let positive_feedback :=
    match user_context with
    | Some uc =>
        List.filter (fun f => (4 <=? fb_rating f)%Z)
                    (default [] (recent_feedback uc))
    | None => []
    end in
  from_feedback ← feedback_queries env (firstn 3 positive_feedback);
  let search_queries := search_queries ++ from_feedback in
  let combined_query :=
    match search_queries with
    | [] => "programming software development technology"%string
    | _ => String.concat " " (firstn 3 search_queries)
    end in
  let vector_results :=
    search_similar_courses env combined_query
      (Z.max 15 (max_recommendations * 2)) 0.4 exclude_topics in
  Ok (map candidate_of_result vector_results).

Definition _get_vector_recommendations (env : Env) (query : option string)
    (user_context : option UserContext) : list Course :=
  try_except (vector_body env query user_context) [].

Definition candidate_of_row (course : Row) : Course :=
  {| id := row_id course; title := row_title course;
     description := row_description course;
     topics := Some (row_topics course);
     difficulty := row_difficulty course; duration := row_duration course;
     format := row_format course; rating := row_rating course;
     vector_similarity := Some 0.0; source := None |}.

(** Statements of the [try] block of
    [_get_content_based_recommendations]. *)
Definition content_body (env : Env) : exc (list Course) :=
  courses ← content_rows env;
  Ok (map candidate_of_row courses).

Definition _get_content_based_recommendations (env : Env) : list Course :=
  try_except (content_body env) [].

(** ** Sub-scores of the Multi-Signal Scorer *)

Definition Q_of_nat (n : nat) : Q := inject_Z (Z.of_nat n).

(** First loop of [_calculate_topic_score]: one point per course topic
    found, lower-cased, among the lower-cased preferred topics. *)
Definition preferred_pass (preferred_topics : list string)
    (score : Q) (course_topics : list string) : Q :=
  fold_left
    (fun score topic =>
       if Text.mem (Text.lower topic) (map Text.lower preferred_topics)
       then score + 1.0 else score)
    course_topics score.

(** Second loop: [min(positive_counter[topic_lower] / 3.0, 0.8)] for each
    course topic that is a key of the counter. *)
Definition frequency_weight (positive_topics : list string)
    (topic_lower : string) : Q :=
  Qmin (Q_of_nat (Text.count topic_lower (map Text.lower positive_topics)) / 3.0)
       0.8.

Definition positive_pass (positive_topics : list string)
    (score : Q) (course_topics : list string) : Q :=
  fold_left
    (fun score topic =>
       let topic_lower := Text.lower topic in
       if Text.mem topic_lower (map Text.lower positive_topics)
       then score + frequency_weight positive_topics topic_lower
       else score)
    course_topics score.

Definition _calculate_topic_score
    (course_topics preferred_topics positive_topics : list string) : Q :=
  match course_topics with
  | [] => 0.0
  | _ =>
      let score := preferred_pass preferred_topics 0.0 course_topics in
      let score := positive_pass positive_topics score course_topics in
      Qmin (score / Qmax (Q_of_nat (length course_topics)) 1) 1.0
  end.

Definition difficulty_levels : list string :=
  ["beginner"; "intermediate"; "advanced"]%string.

Definition _calculate_difficulty_score
    (course_difficulty preferred_difficulty : option string) : Q :=
  if negb (Text.truthy preferred_difficulty)
     || negb (Text.truthy course_difficulty) then 0.5
  else
    let cd := Text.lower (default EmptyString course_difficulty) in
    let pd := Text.lower (default EmptyString preferred_difficulty) in
    if String.eqb cd pd then 1.0
    else
      match Text.index cd difficulty_levels,
            Text.index pd difficulty_levels with
      | Some course_idx, Some preferred_idx =>
          let distance :=
            Z.abs (Z.of_nat course_idx - Z.of_nat preferred_idx) in
          if (distance =? 0)%Z then 1.0
          else if (distance =? 1)%Z then 0.7
          else 0.3
      | _, _ => 0.5
      end.

Definition format_style_map : list (string * list string) :=
  [ ("hands-on", ["hands-on"; "practical"; "project-based"; "interactive"]);
    ("video", ["visual"; "auditory"; "multimedia"]);
    ("interactive", ["hands-on"; "visual"; "engaging"]);
    ("text", ["reading"; "theoretical"; "self-paced"]);
    ("live", ["interactive"; "collaborative"; "social"]);
    ("project-based", ["hands-on"; "practical"; "applied"]) ]%string.

Definition _calculate_learning_style_score
    (course_format preferred_style : option string) : Q :=
  if negb (Text.truthy preferred_style)
     || negb (Text.truthy course_format) then 0.5
  else
    let preferred_lower := Text.lower (default EmptyString preferred_style) in
    let course_format_lower := Text.lower (default EmptyString course_format) in
    if Text.contains preferred_lower course_format_lower then 1.0
    else if existsb
              (fun entry =>
                 Text.contains (fst entry) course_format_lower
                 && existsb (fun style => Text.contains style preferred_lower)
                            (snd entry))
              format_style_map
    then 0.8
    else 0.4.

Definition _calculate_diversity_score
    (course_topics preferred_topics : list string) : Q :=
  match course_topics, preferred_topics with
  | [], _ | _, [] => 0.2
  | _, _ =>
      let new_topics :=
        List.filter (fun t => negb (Text.mem (Text.lower t)
                                             (map Text.lower preferred_topics)))
                    course_topics in
      let diversity_ratio :=
        Q_of_nat (length new_topics) / Q_of_nat (length course_topics) in
      diversity_ratio * 0.5
  end.

(** ** Scoring *)

Definition empty_preferences : Preferences :=
  {| pref_topics := []; pref_difficulty := None; pref_learning_style := None |}.

(** Loop of [_extract_positive_topic_patterns]. *)
Fixpoint positive_loop (env : Env) (feedback : list Feedback)
    (positive_topics : list string) : exc (list string) :=
  match feedback with
  | [] => Ok positive_topics
  | fb :: rest =>
      if (4 <=? fb_rating fb)%Z && Text.truthy (fb_course_id fb) then
        course ← select_topics env (default EmptyString (fb_course_id fb));
        positive_loop env rest (positive_topics ++ default [] course)
      else positive_loop env rest positive_topics
  end.

Definition _extract_positive_topic_patterns (env : Env)
    (user_context : UserContext) : exc (list string) :=
  positive_loop env (default [] (recent_feedback user_context)) [].

(** Body of the [for course in courses] loop of [_score_courses].  The two
    sub-scores that read ['topics'] test [not course_topics] first, so a
    [None] is read like the empty list. *)
Definition course_score (preferences : Preferences)
    (positive_topics : list string) (course : Course) : Q :=
  let preferred_topics := pref_topics preferences in
  let preferred_difficulty := pref_difficulty preferences in
  let preferred_learning_style := pref_learning_style preferences in
  let score := 0.0 in
  let base_score := rating course / 5.0 * 0.2 in
  let score := score + base_score in
  let vector_score := default 0.0 (vector_similarity course) * 0.4 in
  let score := score + vector_score in
  let topic_score :=
    _calculate_topic_score (default [] (topics course)) preferred_topics
                           positive_topics
    * 0.3 in
  let score := score + topic_score in
  let difficulty_score :=
    _calculate_difficulty_score (difficulty course) preferred_difficulty
    * 0.1 in
  let score := score + difficulty_score in
  let style_score :=
    _calculate_learning_style_score (format course) preferred_learning_style
    * 0.05 in
  let score := score + style_score in
  let diversity_score :=
    _calculate_diversity_score (default [] (topics course)) preferred_topics
    * 0.05 in
  let score := score + diversity_score in
  if bool_decide (source course = Some Vector) then score + 0.02 else score.

(** Course objects are shared and mutable: a list of courses is a list of
    references into a store. *)
Definition loc := nat.
Definition heap := loc -> Course.

Definition _score_courses (env : Env) (h : heap) (courses : list loc)
    (user_context : option UserContext) : list (loc * Q) :=
  try_except
    (match user_context with
     | None =>
         Ok (map (fun course =>
                    (course,
                     rating (h course) / 5.0
                     + default 0.0 (vector_similarity (h course)) * 0.5))
                 courses)
     | Some uc =>
         let preferences := default empty_preferences (preferences uc) in
         positive_topics ← _extract_positive_topic_patterns env uc;
         Ok (map (fun course =>
                    (course, course_score preferences positive_topics (h course)))
                 courses)
     end)
    (map (fun course => (course, rating (h course) / 5.0)) courses).

(** ** Candidate Fusion *)

(** The dictionary [combined]: keys in insertion order; assigning to an
    existing key keeps its position. *)
Definition odict := list (string * loc).

Fixpoint od_set (k : string) (v : loc) (d : odict) : odict :=
  match d with
  | [] => [(k, v)]
  | (k', v') :: d' =>
      if String.eqb k k' then (k, v) :: d' else (k', v') :: od_set k v d'
  end.

Definition od_mem (k : string) (d : odict) : bool := Text.mem k (map fst d).

Definition set_source (s : Source) (c : Course) : Course :=
  {| id := id c; title := title c; description := description c;
     topics := topics c; difficulty := difficulty c; duration := duration c;
     format := format c; rating := rating c;
     vector_similarity := vector_similarity c; source := Some s |}.

(** [for course in vector_courses]: the object stored under
    [combined[course_id]] is [course] itself, so the assignment to
    ['source'] writes into it. *)
Definition vector_step (st : heap * odict) (course : loc) : heap * odict :=
  let '(h, combined) := st in
  let course_id := id (h course) in
  let combined := od_set course_id course combined in
  (<[course := set_source Vector (h course)]> h, combined).

(** [for course in content_courses] *)
Definition content_step (st : heap * odict) (course : loc) : heap * odict :=
  let '(h, combined) := st in
  let course_id := id (h course) in
  if negb (od_mem course_id combined) then
    let combined := od_set course_id course combined in
    (<[course := set_source Content (h course)]> h, combined)
  else (h, combined).

Definition _combine_recommendations (h : heap)
    (vector_courses content_courses : list loc) : heap * list loc :=
  let st := fold_left vector_step vector_courses (h, []) in
  let '(h, combined) := fold_left content_step content_courses st in
  (h, map snd combined).

(** ** Ranking *)

(** [list.sort(key=lambda x: x[1], reverse=True)].  The built-in sort is
    stable, also with [reverse=True]; it is read as the insertion sort
    that places an element before the first one of strictly smaller or
    equal key met to its right. *)
Fixpoint insert_desc {A} (x : A * Q) (l : list (A * Q)) : list (A * Q) :=
  match l with
  | [] => [x]
  | y :: l' =>
      if Qle_bool (snd y) (snd x) then x :: y :: l'
      else y :: insert_desc x l'
  end.

Fixpoint sort_desc {A} (l : list (A * Q)) : list (A * Q) :=
  match l with
  | [] => []
  | x :: l' => insert_desc x (sort_desc l')
  end.

(** [xs[:n]], negative [n] counting from the end. *)
Definition slice_to {A} (n : Z) (xs : list A) : list A :=
  if (n <? 0)%Z then firstn (length xs - Z.to_nat (- n)) xs
  else firstn (Z.to_nat n) xs.

(** ** Responses *)

Record CourseResponse := {
  r_id : string;
  r_title : string;
  r_description : string;
  r_topics : list string;
  r_difficulty : string;
  r_duration : string;
  r_format : string;
  r_rating : Q;
  similarity_score : option Q
}.

(** Validation of the fields the embedding keeps optional: a [None] for a
    required [str] field makes the constructor raise. *)
Definition make_response (i t d : string) (ts : list string)
    (diff : option string) (dur : string) (fmt : option string) (r : Q)
    (sim : option Q) : exc CourseResponse :=
  match diff, fmt with
  | Some diff, Some fmt =>
      Ok {| r_id := i; r_title := t; r_description := d; r_topics := ts;
            r_difficulty := diff; r_duration := dur; r_format := fmt;
            r_rating := r; similarity_score := sim |}
  | _, _ => Raise
  end.

(** [round(x)] to the nearest integer, ties to even. *)
Definition round_half_even (q : Q) : Z :=
  let f := Qfloor q in
  match Qcompare (q - inject_Z f) (1 # 2) with
  | Lt => f
  | Gt => (f + 1)%Z
  | Eq => if Z.even f then f else (f + 1)%Z
  end.

(** [round(score, 3)] *)
Definition round3 (score : Q) : Q :=
  inject_Z (round_half_even (score * 1000)) / 1000.

Definition with_similarity (sim : Q) (r : CourseResponse) : CourseResponse :=
  {| r_id := r_id r; r_title := r_title r; r_description := r_description r;
     r_topics := r_topics r; r_difficulty := r_difficulty r;
     r_duration := r_duration r; r_format := r_format r;
     r_rating := r_rating r; similarity_score := Some sim |}.

(** [CourseResponse] built from the keys of [course]: the extra keys are
    ignored and [similarity_score] starts at its default. *)
Definition response_of_course (c : Course) : exc CourseResponse :=
  match topics c with
  | Some ts =>
      make_response (id c) (title c) (description c) ts (difficulty c)
                    (duration c) (format c) (rating c) None
  | None => Raise
  end.

(** [for course, score in scored_courses[:max_results]] *)
Fixpoint build_responses (h : heap) (scored : list (loc * Q))
    : exc (list CourseResponse) :=
  match scored with
  | [] => Ok []
  | (course, score) :: rest =>
      course_response ← response_of_course (h course);
      let course_response := with_similarity (round3 score) course_response in
      recommendations ← build_responses h rest;
      Ok (course_response :: recommendations)
  end.

(** ** Fallback Supplier *)

(** [... FROM courses ORDER BY rating DESC LIMIT ?] as SQLite answers it:
    rows by non-increasing rating, and a negative limit means no limit. *)
Definition row_key (r : Row) : Row * Q := (r, row_rating r).

Definition sql_limit {A} (n : Z) (xs : list A) : list A :=
  if (n <? 0)%Z then xs else firstn (Z.to_nat n) xs.

Definition select_top_rated (env : Env) (limit : Z) : exc (list Row) :=
  rows ← catalog env;
  Ok (sql_limit limit (map fst (sort_desc (map row_key rows)))).

Definition response_of_row (course : Row) : exc CourseResponse :=
  make_response (row_id course) (row_title course) (row_description course)
                (row_topics course) (row_difficulty course)
                (row_duration course) (row_format course) (row_rating course)
                (Some (row_rating course / 5.0)).

Fixpoint fallback_loop (courses : list Row) : exc (list CourseResponse) :=
  match courses with
  | [] => Ok []
  | course :: rest =>
      r ← response_of_row course;
      result ← fallback_loop rest;
      Ok (r :: result)
  end.

Definition _get_fallback_recommendations (env : Env) (max_results : Z)
    : list CourseResponse :=
  try_except
    (courses ← select_top_rated env max_results; fallback_loop courses)
    [].

(** ** Result Cache and the request entry point *)

Record CacheEntry := {
  data : list CourseResponse;
  timestamp : Z
}.

(** The engine instance: its cache, and a ghost counter of the entries
    into the compute path (the statements after the cache test). *)
Record Engine := {
  _cache : gmap string CacheEntry;
  compute_calls : nat
}.

(** [self._cache_ttl], in seconds. *)
Definition _cache_ttl : Z := 300.

Definition timedelta_seconds (s : Z) : Z := (s * 1000000)%Z.

(** [str(query)] for an optional string. *)
Definition py_str (query : option string) : string :=
  match query with
  | None => "None"
  | Some q => q
  end.

(** The f-string [rec_{user_id}_{hash(str(query))}_{max_results}]; the
    built-in [hash] is a parameter. *)
Definition cache_key (hash : string -> Z) (user_id : Z)
    (query : option string) (max_results : Z) : string :=
  "rec_" +:+ pretty user_id +:+ "_" +:+ pretty (hash (py_str query)) +:+ "_"
  +:+ pretty max_results.

(** Fresh dictionaries built by the two retrieval stages, laid out in a
    store: the vector candidates first. *)
Definition blank_course : Course :=
  {| id := ""; title := ""; description := ""; topics := Some [];
     difficulty := None; duration := ""; format := None; rating := 0;
     vector_similarity := None; source := None |}.

Definition store_of (cs : list Course) : heap :=
  fun l => nth l cs blank_course.

(** The compute path: retrieval, fusion, scoring, ranking, truncation and
    response construction. *)
Definition compute (env : Env) (query : option string)
    (user_context : option UserContext) (max_results : Z)
    : exc (list CourseResponse) :=
  let vector_courses := _get_vector_recommendations env query user_context in
  let content_courses := _get_content_based_recommendations env in
  let h := store_of (vector_courses ++ content_courses) in
  let vector_refs := seq 0 (length vector_courses) in
  let content_refs := seq (length vector_courses) (length content_courses) in
  let '(h, combined_courses) :=
    _combine_recommendations h vector_refs content_refs in
  let scored_courses := _score_courses env h combined_courses user_context in
  let scored_courses := sort_desc scored_courses in
  build_responses h (slice_to max_results scored_courses).

(** What the cache test at the head of the [try] block decides. *)
Inductive Lookup :=
| Hit (recommendations : list CourseResponse)
| Miss (cache : gmap string CacheEntry).

Definition cache_lookup (env : Env) (cache : gmap string CacheEntry)
    (key : string) (force_refresh : bool) : Lookup :=
  if negb force_refresh then
    match cache !! key with
    | Some cache_entry =>
        if (now_check env - timestamp cache_entry
            <? timedelta_seconds _cache_ttl)%Z
        then Hit (data cache_entry)
        else Miss (delete key cache)
    | None => Miss cache
    end
  else Miss cache.

Definition get_personalized_recommendations (hash : string -> Z) (env : Env)
    (self : Engine) (user_id : Z) (query : option string)
    (user_context : option UserContext) (max_results : Z)
    (force_refresh : bool) : list CourseResponse * Engine :=
  let key := cache_key hash user_id query max_results in
  match cache_lookup env (_cache self) key force_refresh with
  | Hit recommendations => (recommendations, self)
  | Miss cache =>
      let calls := S (compute_calls self) in
      match compute env query user_context max_results with
      | Ok recommendations =>
          (recommendations,
           {| _cache :=
                <[key := {| data := recommendations;
                            timestamp := now_store env |}]> cache;
              compute_calls := calls |})
      | Raise =>
          (_get_fallback_recommendations env max_results,
           {| _cache := cache; compute_calls := calls |})
      end
  end.

(** ** Similar courses by vector similarity *)

(** [CourseResponse] built from a search result; the constructor raises
    on a missing required field, the topics included. *)
Definition response_of_result (course : SearchResult) : exc CourseResponse :=
  let props := fst course in
  match prop_topics props with
  | Some ts =>
      make_response (prop_courseId props) (prop_title props)
        (prop_description props) ts (prop_difficulty props)
        (prop_duration props) (prop_format props) (prop_rating props)
        (Some (snd course))
  | None => Raise
  end.

(** [for course in similar_courses], with its [break]. *)
Fixpoint similar_loop (course_id : string) (max_results : Z)
    (similar_courses : list SearchResult) (result : list CourseResponse)
    : exc (list CourseResponse) :=
  match similar_courses with
  | [] => Ok result
  | course :: rest =>
      if negb (String.eqb (prop_courseId (fst course)) course_id) then
        course_response ← response_of_result course;
        let result := result ++ [course_response] in
        if (max_results <=? Z.of_nat (length result))%Z then Ok result
        else similar_loop course_id max_results rest result
      else similar_loop course_id max_results rest result
  end.

(** Statements of the [try] block of [get_similar_courses_vector].
    [select_target] answers
    [SELECT title, description, topics FROM courses WHERE id = ?] with
    the title, the description and the decoded topics (no topic when the
    column is empty), [Ok None] when there is no such row. *)
Definition similar_body (env : Env)
    (select_target : string -> exc (option (string * string * list string)))
    (course_id : string) (max_results : Z) : exc (list CourseResponse) :=
  target_course ← select_target course_id;
  match target_course with
  | None => Ok []
  | Some (target_title, target_description, topics) =>
      let search_query :=
        target_title +:+ " " +:+ target_description +:+ " "
        +:+ String.concat " " topics in
      let similar_courses :=
        search_similar_courses env search_query (max_results + 1) 0.4 [] in
      similar_loop course_id max_results similar_courses []
  end.

Definition get_similar_courses_vector (env : Env)
    (select_target : string -> exc (option (string * string * list string)))
    (course_id : string) (max_results : Z) : list CourseResponse :=
  try_except (similar_body env select_target course_id max_results) [].

(** ** Preferences learnt from feedback *)

(** The fields of [FeedbackCreate] the update reads. *)
Record FeedbackCreate := {
  fc_course_id : string;
  fc_rating : Z;
  fc_learning_style : option string;
  fc_difficulty_preference : option string
}.

(** A row of [user_preferences], whose primary key is the user id;
    [up_preferred_topics] is the decoded column, [None] when the column
    is NULL or empty. *)
Record PreferenceRow := {
  up_preferred_topics : option (list string);
  up_difficulty_level : option string;
  up_learning_style : option string;
  up_time_commitment : option string
}.

Definition preference_table : Type := gmap Z PreferenceRow.

(** [for topic in course_topics: if topic not in current_topics:
    current_topics.append(topic)] *)
Definition add_topics (current_topics course_topics : list string)
    : list string :=
  fold_left
    (fun current_topics topic =>
       if Text.mem topic current_topics then current_topics
       else current_topics ++ [topic])
    course_topics current_topics.

(** Statements of the [try] block of
    [update_user_preferences_from_feedback].  Every statement commits or
    rolls back on its own, so an exception leaves the table as it was. *)
Definition update_body (env : Env) (table : preference_table)
    (user_id : Z) (feedback : FeedbackCreate) : exc preference_table :=
  course ← select_topics env (fc_course_id feedback);
  match course with
  | Some course_topics =>
      let current_prefs := table !! user_id in
      if (4 <=? fc_rating feedback)%Z then
        let current_topics :=
          match current_prefs with
          | Some row => default [] (up_preferred_topics row)
          | None => []
          end in
        let current_topics := add_topics current_topics course_topics in
        match current_prefs with
        | Some row =>
            Ok (<[user_id :=
                    {| up_preferred_topics := Some current_topics;
                       up_difficulty_level := fc_difficulty_preference feedback;
                       up_learning_style := fc_learning_style feedback;
                       up_time_commitment := up_time_commitment row |}]>
                  table)
        | None =>
            Ok (<[user_id :=
                    {| up_preferred_topics := Some current_topics;
                       up_difficulty_level := fc_difficulty_preference feedback;
                       up_learning_style := fc_learning_style feedback;
                       up_time_commitment := None |}]>
                  table)
        end
      else Ok table
  | None => Ok table
  end.

Definition update_user_preferences_from_feedback (env : Env)
    (table : preference_table) (user_id : Z) (feedback : FeedbackCreate)
    : preference_table :=
  try_except (update_body env table user_id feedback) table.

(** ** Router endpoints over the vector search *)

(** What a call of an endpoint ends in: a value, an [HTTPException]
    with its status code, or another exception. *)
Inductive outcome (A : Type) :=
  | Return (a : A)
  | HTTPException (status_code : Z)
  | Exception.
Arguments Return {A} a.
Arguments HTTPException {A} status_code.
Arguments Exception {A}.

Definition HTTP_403_FORBIDDEN : Z := 403.
Definition HTTP_500_INTERNAL_SERVER_ERROR : Z := 500.

(** [try: body except Exception: raise HTTPException(500)]; an
    [HTTPException] is an [Exception] as well. *)
Definition except_Exception {A} (body : outcome A) : outcome A :=
  match body with
  | Return a => Return a
  | HTTPException _ | Exception =>
      HTTPException HTTP_500_INTERNAL_SERVER_ERROR
  end.

(** [POST /{user_id}/similar] *)
Definition get_similar_courses (env : Env)
    (select_target : string -> exc (option (string * string * list string)))
    (user_id : Z) (course_id : string) (max_results : Z)
    (use_vector_search : bool) (current_user_id : Z)
    : outcome (list CourseResponse) :=
  except_Exception
    (if negb (current_user_id =? user_id)%Z
     then HTTPException HTTP_403_FORBIDDEN
     else
       let similar_courses :=
         if use_vector_search
         then get_similar_courses_vector env select_target course_id
                max_results
         else [] in
       Return similar_courses).

(** [s.split(sep)] for a separator of one character: every occurrence
    of the separator ends a piece, so the pieces may be empty. *)
Fixpoint split_on (sep : ascii) (s : string) : list string :=
  match s with
  | EmptyString => [EmptyString]
  | String c s' =>
      if Ascii.eqb c sep then EmptyString :: split_on sep s'
      else match split_on sep s' with
           | piece :: pieces => String c piece :: pieces
           | [] => [String c EmptyString]
           end
  end.

(** [for result in search_results: courses.append(CourseResponse(...))] *)
Fixpoint semantic_loop (search_results : list SearchResult)
    : exc (list CourseResponse) :=
  match search_results with
  | [] => Ok []
  | result :: rest =>
      course_response ← response_of_result result;
      courses ← semantic_loop rest;
      Ok (course_response :: courses)
  end.

(** [[topic.strip() for topic in exclude_topics.split(",")]] under
    [if exclude_topics:] *)
Definition exclude_list_of (exclude_topics : option string) : list string :=
  if Text.truthy exclude_topics
  then map Text.strip (split_on "," (default EmptyString exclude_topics))
  else [].

(** [POST /{user_id}/semantic-search] *)
Definition semantic_course_search (env : Env) (user_id : Z) (query : string)
    (max_results : Z) (min_similarity : Q) (exclude_topics : option string)
    (current_user_id : Z) : outcome (list CourseResponse) :=
  except_Exception
    (if negb (current_user_id =? user_id)%Z
     then HTTPException HTTP_403_FORBIDDEN
     else
       let exclude_list := exclude_list_of exclude_topics in
       let search_results :=
         search_similar_courses env query max_results min_similarity
           exclude_list in
       match semantic_loop search_results with
       | Ok courses => Return courses
       | Raise => Exception
       end).

(** ** Catalogue listing *)

(** The ['pagination'] dictionary of the answer. *)
Record Pagination := {
  pg_total : Z;
  pg_page : Z;
  pg_limit : Z;
  pg_offset : Z;
  pg_total_pages : Z
}.

Definition listed_course (course : Row) : exc CourseResponse :=
  make_response (row_id course) (row_title course) (row_description course)
                (row_topics course) (row_difficulty course)
                (row_duration course) (row_format course) (row_rating course)
                None.

(** [for course in courses: course_list.append(CourseResponse(...))] *)
Fixpoint listing_loop (courses : list Row) : exc (list CourseResponse) :=
  match courses with
  | [] => Ok []
  | course :: rest =>
      r ← listed_course course;
      course_list ← listing_loop rest;
      Ok (r :: course_list)
  end.

(** [x // y] *)
Definition floordiv (x y : Z) : exc Z :=
  if (y =? 0)%Z then Raise else Ok (x / y)%Z.

(** [GET /courses/].  [count_rows] and [page_rows] answer the two
    queries built from the filters: the number of matching rows, and
    the matching rows from [offset] on, at most [limit] of them.  The
    framework admits the call only with [1 <= limit <= 100] and
    [0 <= offset]. *)
Definition get_courses (count_rows : exc Z) (page_rows : exc (list Row))
    (limit offset : Z) : outcome (list CourseResponse * Pagination) :=
  except_Exception
    (match
       (total_count ← count_rows;
        courses ← page_rows;
        course_list ← listing_loop courses;
        page ← floordiv offset limit;
        total_pages ← floordiv (total_count + limit - 1) limit;
        Ok (course_list,
            {| pg_total := total_count; pg_page := page + 1;
               pg_limit := limit; pg_offset := offset;
               pg_total_pages := total_pages |}))
     with
     | Ok answer => Return answer
     | Raise => Exception
     end).

(** ** Recommendation history *)

(** [topic_counts[topic] = topic_counts.get(topic, 0) + 1] on a
    dictionary kept in insertion order. *)
Fixpoint count_topic (topic : string) (topic_counts : list (string * Z))
    : list (string * Z) :=
  match topic_counts with
  | [] => [(topic, 1%Z)]
  | (k, n) :: rest =>
      if String.eqb topic k then (k, (n + 1)%Z) :: rest
      else (k, n) :: count_topic topic rest
  end.

(** The two nested loops over the rows and their topics; a row is its
    decoded [topics] column, [None] when the column is empty. *)
Definition aggregate_topics (recent_preferences : list (option (list string)))
    : list (string * Z) :=
  fold_left
    (fun topic_counts pref =>
       match pref with
       | Some topics =>
           fold_left (fun topic_counts topic => count_topic topic topic_counts)
                     topics topic_counts
       | None => topic_counts
       end)
    recent_preferences [].

(** [sorted(topic_counts.items(), key=lambda x: x[1], reverse=True)[:10]] *)
Definition top_topics (topic_counts : list (string * Z))
    : list (string * Z) :=
  firstn 10
    (map fst (sort_desc (map (fun item => (item, inject_Z (snd item)))
                             topic_counts))).

(** The answer of the history endpoint; the rows of the feedback
    summary are passed on as they are. *)
Record History (A : Type) := {
  feedback_summary : list A;
  interaction_summary : list (string * Z);
  hist_preferred_topics : list (string * Z);
  total_interactions : Z;
  vector_search_enabled : bool
}.
Arguments feedback_summary {A} _.
Arguments interaction_summary {A} _.
Arguments hist_preferred_topics {A} _.
Arguments total_interactions {A} _.
Arguments vector_search_enabled {A} _.

(** [GET /{user_id}/history]; the three arguments of type [exc] answer
    its three queries, the last with the topics decoded. *)
Definition get_recommendation_history {A} (feedback_stats : exc (list A))
    (interaction_stats : exc (list (string * Z)))
    (recent_preferences : exc (list (option (list string))))
    (client_available : bool) (user_id current_user_id : Z)
    : outcome (History A) :=
  except_Exception
    (if negb (current_user_id =? user_id)%Z
     then HTTPException HTTP_403_FORBIDDEN
     else
       match
         (feedback_stats ← feedback_stats;
          interaction_stats ← interaction_stats;
          recent_preferences ← recent_preferences;
          let topic_counts := aggregate_topics recent_preferences in
          Ok {| feedback_summary := feedback_stats;
                interaction_summary := interaction_stats;
                hist_preferred_topics := top_topics topic_counts;
                total_interactions :=
                  fold_left Z.add (map snd interaction_stats) 0%Z;
                vector_search_enabled := client_available |})
       with
       | Ok answer => Return answer
       | Raise => Exception
       end).

(** ** Auxiliary definitions used to state the properties *)

(** Contribution of one course topic in each loop of
    [_calculate_topic_score]. *)
Definition preferred_hit (preferred_topics : list string) (topic : string) : Q :=
  if Text.mem (Text.lower topic) (map Text.lower preferred_topics)
  then 1 else 0.

Definition history_hit (positive_topics : list string) (topic : string) : Q :=
  if Text.mem (Text.lower topic) (map Text.lower positive_topics)
  then frequency_weight positive_topics (Text.lower topic) else 0.

Fixpoint Qsum (xs : list Q) : Q :=
  match xs with
  | [] => 0
  | x :: xs' => x + Qsum xs'
  end.

Definition topic_total
    (course_topics preferred_topics positive_topics : list string) : Q :=
  Qsum (map (preferred_hit preferred_topics) course_topics)
  + Qsum (map (history_hit positive_topics) course_topics).

(** The composite score as the specification writes it. *)
Definition spec_composite_score (preferences : Preferences)
    (positive_topics : list string) (c : Course) : Q :=
  0.20 * (rating c / 5.0)
  + 0.40 * default 0 (vector_similarity c)
  + 0.30 * _calculate_topic_score (default [] (topics c))
                                  (pref_topics preferences) positive_topics
  + 0.10 * _calculate_difficulty_score (difficulty c)
                                       (pref_difficulty preferences)
  + 0.05 * _calculate_learning_style_score (format c)
                                           (pref_learning_style preferences)
  + 0.05 * _calculate_diversity_score (default [] (topics c))
                                      (pref_topics preferences)
  + match source c with
    | Some Vector => 0.02
    | _ => 0
    end.

Definition spec_fallback_score (c : Course) : Q :=
  rating c / 5.0 + 0.5 * default 0 (vector_similarity c).

(** The scoring claim as stated: with a user context present every
    candidate gets the composite score, whatever becomes of the look-ups
    of the positively rated courses and whatever topics they yield. *)
Definition composite_score_for_every_context : Prop :=
  forall env h courses uc,
  exists positive_topics,
    Forall2 (fun course scored =>
               fst scored = course
               /\ snd scored
                  == spec_composite_score
                       (default empty_preferences (preferences uc))
                       positive_topics (h course))
            courses (_score_courses env h courses (Some uc)).

(** Ranking order and score classes. *)
Definition score_ge {A} (x y : A * Q) : Prop := snd y <= snd x.

Definition has_score {A} (s : Q) (x : A * Q) : bool := Qeq_bool (snd x) s.

(** Vocabulary for the fusion step. *)
Definition ids (h : heap) (ls : list loc) : list string :=
  map (fun l => id (h l)) ls.

Definition pairs (h : heap) (ls : list loc) : odict :=
  map (fun l => (id (h l), l)) ls.

Definition keys (d : odict) : list string := map fst d.

Definition tag (s : Source) (h : heap) (l : loc) : heap :=
  <[l := set_source s (h l)]> h.

(** The store after writing provenance [s] into every object of [ls]. *)
Definition tag_all (s : Source) (ls : list loc) (h : heap) : heap :=
  fold_left (tag s) ls h.

(** The dictionary built by the first loop, with identifiers read in [h]. *)
Definition od_sets (h : heap) (vs : list loc) (d : odict) : odict :=
  fold_left (fun d l => od_set (id (h l)) l d) vs d.

(** The content candidates the second loop inserts, [seen] being the keys
    already present. *)
Fixpoint content_kept (h : heap) (seen : list string) (cs : list loc)
    : list loc :=
  match cs with
  | [] => []
  | l :: cs' =>
      if Text.mem (id (h l)) seen then content_kept h seen cs'
      else l :: content_kept h (seen ++ [id (h l)]) cs'
  end.

(** Every key of the dictionary is the identifier of the object stored
    under it. *)
Definition keyed_by_id (h : heap) (d : odict) : Prop :=
  forall k l, In (k, l) d -> k = id (h l).

(** The fusion contract of the specification, read on the store: every
    vector candidate appears, tagged [Vector]; a content candidate appears
    with provenance [Content] exactly when its identifier is not one of
    the vector list; identifiers are unique in the result; and an
    identifier of both lists is represented by the vector object, its
    fields (similarity included) kept and its provenance [Vector]. *)
Definition fusion_contract (h : heap) (vs cs : list loc) : Prop :=
  let '(h', out) := _combine_recommendations h vs cs in
  (forall l, In l vs -> In l out /\ h' l = set_source Vector (h l))
  /\ (forall l, In l cs ->
        (In l out /\ source (h' l) = Some Content)
        <-> ~ In (id (h l)) (ids h vs))
  /\ List.NoDup (ids h' out)
  /\ (forall lv lc, In lv vs -> In lc cs -> id (h lv) = id (h lc) ->
        (forall l, In l out -> id (h' l) = id (h lv) -> l = lv)
        /\ vector_similarity (h' lv) = vector_similarity (h lv)
        /\ source (h' lv) = Some Vector).

(** The records a fusion result denotes. *)
Definition records (r : heap * list loc) : list Course := map (fst r) (snd r).

(** Idempotence as the specification states it, on the records. *)
Definition fusion_idempotent_on_records : Prop :=
  forall h A B,
    let r1 := _combine_recommendations h A B in
    records (_combine_recommendations (fst r1) (snd r1) A) = records r1.

(** Sample data. *)
Definition sample_course (i : string) (r : Q) (sim : option Q) : Course :=
  {| id := i; title := "Course"; description := "";
     topics := Some ["python"; "fundamentals"]%string;
     difficulty := Some "beginner"%string;
     duration := "4 weeks"; format := Some "interactive"%string; rating := r;
     vector_similarity := sim; source := None |}.

(** A content candidate without topics. *)
Definition plain_course : Course :=
  {| id := "c3"; title := "Course"; description := ""; topics := Some [];
     difficulty := Some "beginner"%string; duration := "4 weeks";
     format := Some "video"%string; rating := 4.0;
     vector_similarity := Some 0.0; source := Some Content |}.

(** Two distinct vector hits carrying the same identifier, then a content
    row. *)
Definition sample_store : heap := fun l =>
  match l with
  | O => sample_course "c1" 4.5 (Some 0.9)
  | S O => sample_course "c1" 4.0 (Some 0.5)
  | _ => sample_course "c2" 3.0 (Some 0.0)
  end.

(** Vocabulary for the cache key. *)
Fixpoint no_underscore (s : string) : Prop :=
  match s with
  | EmptyString => True
  | String c s' => c <> "_"%char /\ no_underscore s'
  end.

(** Injectivity of the key over (user id, query, result count), as the
    specification asks for it. *)
Definition cache_key_injective (hash : string -> Z) : Prop :=
  forall u1 q1 n1 u2 q2 n2,
    (u1, q1, n1) <> (u2, q2, n2) ->
    cache_key hash u1 q1 n1 <> cache_key hash u2 q2 n2.

(** Sample environments. *)
Definition sample_row (i : string) (r : Q) : Row :=
  {| row_id := i; row_title := "Course"; row_description := "";
     row_topics := ["python"]; row_difficulty := Some "beginner"%string;
     row_duration := "4 weeks"; row_format := Some "video"%string;
     row_rating := r |}.

Definition sample_object (i : string) (r : Q) (dist : Q) : VectorObject :=
  {| properties :=
       {| prop_courseId := i; prop_title := "Python Fundamentals";
          prop_description := "";
          prop_topics := Some ["python"; "fundamentals"]%string;
          prop_difficulty := Some "beginner"%string;
          prop_duration := "4 weeks";
          prop_format := Some "interactive"%string; prop_rating := r |};
     distance := Some dist |}.

Definition sample_env : Env :=
  {| select_topics := fun _ => Ok (Some ["python"%string]);
     select_course :=
       fun _ => Ok (Some ("Python Fundamentals"%string, ["python"%string]));
     vector_index := fun _ _ _ => Ok [sample_object "c1" 4.5 0.4];
     content_rows := Ok [sample_row "c1" 4.5; sample_row "c2" 3.0];
     catalog := Ok [sample_row "c2" 3.0; sample_row "c1" 4.5];
     now_check := 400000000;
     now_store := 400000001 |}.

(** The database fails on the look-ups by course id, inside the [try]
    blocks of the vector stage and of the scorer; the content stage finds
    one course; the catalogue holds a better rated one as well. *)
Definition vector_down_env : Env :=
  {| select_topics := fun _ => Raise;
     select_course := fun _ => Raise;
     vector_index := fun _ _ _ => Ok [sample_object "c1" 4.5 0.4];
     content_rows := Ok [sample_row "c2" 3.0];
     catalog := Ok [sample_row "c2" 3.0; sample_row "c1" 4.5];
     now_check := 0;
     now_store := 0 |}.

(** The index returns an object without difficulty, which makes the
    response constructor raise; the catalogue is unreachable. *)
Definition broken_env : Env :=
  {| select_topics := fun _ => Ok None;
     select_course := fun _ => Ok None;
     vector_index :=
       fun _ _ _ =>
         Ok [{| properties :=
                  {| prop_courseId := "c9"; prop_title := "Course";
                     prop_description := ""; prop_topics := Some [];
                     prop_difficulty := None; prop_duration := "";
                     prop_format := Some "video"%string;
                     prop_rating := 4.0 |};
                distance := Some 0.5 |}];
     content_rows := Ok [];
     catalog := Raise;
     now_check := 0;
     now_store := 0 |}.

Definition sample_hash (s : string) : Z := Z.of_nat (String.length s).

Definition sample_context : UserContext :=
  {| preferences :=
       Some {| pref_topics := ["python"; "data science"]%string;
               pref_difficulty := Some "beginner"%string;
               pref_learning_style := None |};
     recent_feedback :=
       Some [{| fb_course_id := Some "c1"%string; fb_rating := 5 |}] |}.

Definition fresh_engine : Engine := {| _cache := ∅; compute_calls := 0 |}.

Definition sample_entry : CacheEntry := {| data := []; timestamp := 200000000 |}.

Definition warm_engine : Engine :=
  {| _cache := {[ cache_key sample_hash 1 None 10 := sample_entry ]};
     compute_calls := 1 |}.


(** Vocabulary for the negative filtering. *)
Definition normalized (keyword : string) : string :=
  Text.strip (Text.lower keyword).

Definition long_enough (keyword : string) : bool :=
  (3 <=? String.length (normalized keyword))%nat.

Definition title_tokens (p : CourseProps) : list string :=
  Text.words (Text.lower (prop_title p)).

Definition topic_tags (p : CourseProps) : list string :=
  match prop_topics p with
  | Some topics => map Text.lower topics
  | None => []
  end.

Definition sample_props : CourseProps :=
  {| prop_courseId := "stats-r"; prop_title := "Intro to R and Statistics";
     prop_description := "";
     prop_topics := Some ["Data Science"; "ML"]%string;
     prop_difficulty := Some "beginner"%string; prop_duration := "";
     prop_format := Some "video"%string; prop_rating := 4.0 |}.


(** Every character of [s] satisfies [P]. *)
Fixpoint chars (P : ascii -> Prop) (s : string) : Prop :=
  match s with
  | EmptyString => True
  | String c s' => P c /\ chars P s'
  end.

Definition not_upper (c : ascii) : Prop := Text.is_upper c = false.

Definition not_space (c : ascii) : Prop := Text.is_space c = false.


(** ** Auxiliary definitions for the further properties *)

(** A feedback entry that [_extract_positive_topic_patterns] looks up. *)
Definition is_positive (fb : Feedback) : bool :=
  (4 <=? fb_rating fb)%Z && Text.truthy (fb_course_id fb).

(** What a feedback entry adds to the positive topics when no look-up
    raises. *)
Definition feedback_topics (env : Env) (fb : Feedback) : list string :=
  if is_positive fb then
    match select_topics env (default EmptyString (fb_course_id fb)) with
    | Ok (Some topics) => topics
    | _ => []
    end
  else [].

(** Two records that differ at most in their provenance. *)
Definition same_but_source (c c' : Course) : Prop :=
  set_source Vector c = set_source Vector c'.

(** Ranking of responses by the similarity they carry. *)
Definition sim_ge (a b : CourseResponse) : Prop :=
  exists x y, similarity_score a = Some x /\ similarity_score b = Some y
              /\ y <= x.

(** A response built from a candidate record and a raw score. *)
Definition response_for (c : Course) (score : Q) (r : CourseResponse) : Prop :=
  exists r0, response_of_course c = Ok r0
             /\ r = with_similarity (round3 score) r0.

(** The rows the fallback query selects. *)
Definition top_rows (rows : list Row) (limit : Z) : list Row :=
  sql_limit limit (map fst (sort_desc (map row_key rows))).

Definition row_complete (row : Row) : Prop :=
  row_difficulty row <> None /\ row_format row <> None.

(** The best rated row of the catalogue has no difficulty. *)
Definition incomplete_catalog_env : Env :=
  {| select_topics := fun _ => Ok None;
     select_course := fun _ => Ok None;
     vector_index := fun _ _ _ => Ok [];
     content_rows := Ok [];
     catalog :=
       Ok [sample_row "c2" 3.0;
           {| row_id := "c1"; row_title := "Course"; row_description := "";
              row_topics := []; row_difficulty := None; row_duration := "";
              row_format := Some "video"%string; row_rating := 4.5 |}];
     now_check := 0;
     now_store := 0 |}.

(** The formatted result of an index object, and the test it must pass. *)
Definition result_of (obj : VectorObject) : SearchResult :=
  (properties obj, 1.0 - default 1.0 (distance obj)).

Definition qualifies (min_certainty : Q) (negative_keywords : list string)
    (obj : VectorObject) : bool :=
  Qle_bool min_certainty (snd (result_of obj))
  && negb (_should_exclude_course (properties obj) negative_keywords).

(** [obj] is one of the objects the index returns to a search with the
    given text, limit and minimal certainty. *)
Definition from_index (env : Env) (query_text : string) (limit : Z)
    (min_certainty : Q) (obj : VectorObject) : Prop :=
  exists objects,
    vector_index env query_text (limit * 3) min_certainty = Ok objects
    /\ In obj objects.

(** The search text built from the target course. *)
Definition target_query (target_title target_description : string)
    (topics : list string) : string :=
  target_title +:+ " " +:+ target_description +:+ " "
  +:+ String.concat " " topics.

(** A catalogue look-up that knows one course. *)
Definition sample_target (course_id : string)
    : exc (option (string * string * list string)) :=
  if String.eqb course_id "c1"
  then Ok (Some ("Intro", "Learn python without statistics", []))%string
  else Ok None.

(** [k] is a run of consecutive characters of [s]. *)
Definition occurs_in (k s : string) : Prop :=
  exists before after, s = before +:+ k +:+ after.

(** A character a keyword may hold: neither whitespace nor one of the
    delimiters [,.!?]. *)
Definition keyword_char (c : ascii) : Prop :=
  Text.is_space c = false /\ Text.not_delim c = true.

(** The preferred topics stored for a user, none when there is no row
    or the column is empty. *)
Definition stored_topics (table : preference_table) (user_id : Z)
    : list string :=
  match table !! user_id with
  | Some row => default [] (up_preferred_topics row)
  | None => []
  end.

(** The row a positive feedback writes. *)
Definition row_after (table : preference_table) (user_id : Z)
    (feedback : FeedbackCreate) (course_topics : list string)
    : PreferenceRow :=
  {| up_preferred_topics :=
       Some (add_topics (stored_topics table user_id) course_topics);
     up_difficulty_level := fc_difficulty_preference feedback;
     up_learning_style := fc_learning_style feedback;
     up_time_commitment := table !! user_id ≫= up_time_commitment |}.

Definition sample_feedback : FeedbackCreate :=
  {| fc_course_id := "c1"; fc_rating := 5;
     fc_learning_style := None;
     fc_difficulty_preference := Some "advanced"%string |}.

Definition sample_table : preference_table :=
  {[ 1%Z := {| up_preferred_topics := Some ["sql"; "python"]%string;
               up_difficulty_level := Some "beginner"%string;
               up_learning_style := Some "visual"%string;
               up_time_commitment := Some "2h"%string |} ]}.

(** The index returns the target itself, a course on statistics and a
    third course. *)
Definition statistics_index_env : Env :=
  {| select_topics := fun _ => Ok None;
     select_course := fun _ => Ok None;
     vector_index :=
       fun _ _ _ =>
         Ok [sample_object "c1" 4.5 0.1;
             {| properties := sample_props; distance := Some 0.2 |};
             sample_object "c2" 4.0 0.3];
     content_rows := Ok [];
     catalog := Ok [];
     now_check := 0;
     now_store := 0 |}.

(** The topics of the rows of the history query, in order. *)
Definition all_topics (recent_preferences : list (option (list string)))
    : list string :=
  flat_map (fun pref => default [] pref) recent_preferences.

(** [topic_counts.get(topic, 0)] *)
Fixpoint count_in (topic : string) (topic_counts : list (string * Z)) : Z :=
  match topic_counts with
  | [] => 0%Z
  | (k, n) :: rest => if String.eqb topic k then n else count_in topic rest
  end.

(** A dictionary of counts that records the occurrences in [topics]. *)
Definition counts_of (topics : list string) (topic_counts : list (string * Z))
    : Prop :=
  List.NoDup (map fst topic_counts)
  /\ List.Forall
       (fun item => snd item = Z.of_nat (Text.count (fst item) topics)
                    /\ (1 <= snd item)%Z)
       topic_counts
  /\ forall topic, In topic topics -> In topic (map fst topic_counts).

Definition count_ge (a b : string * Z) : Prop := (snd b <= snd a)%Z.

(** The index returns a course whose topics are no list, then a
    complete one. *)
Definition untyped_index_env : Env :=
  {| select_topics := fun _ => Ok None;
     select_course := fun _ => Ok None;
     vector_index :=
       fun _ _ _ =>
         Ok [{| properties :=
                  {| prop_courseId := "n1"; prop_title := "Course";
                     prop_description := ""; prop_topics := None;
                     prop_difficulty := Some "beginner"%string;
                     prop_duration := "";
                     prop_format := Some "video"%string;
                     prop_rating := 4.0 |};
                distance := Some 0.1 |};
             sample_object "c2" 4.0 0.3];
     content_rows := Ok [];
     catalog := Ok [sample_row "c9" 5.0];
     now_check := 0;
     now_store := 0 |}.

(** ** Executions on small inputs *)

Example lower_ex : Text.lower "Data Science" = "data science"%string.
Proof. reflexivity. Qed.

Example split_ex : Text.split "  data   science " = ["data"; "science"]%string.
Proof. reflexivity. Qed.

Example words_ex :
  Text.words "intro to c++: part_2" = ["intro"; "to"; "c"; "part_2"]%string.
Proof. reflexivity. Qed.

Example strip_ex : Text.strip "  ml  " = "ml"%string.
Proof. reflexivity. Qed.

Example findall_ex :
  Regex.findall "no " Text.not_delim "no math, no long videos. piano lessons"
  = ["math"; "long videos"; "lessons"]%string.
Proof. reflexivity. Qed.

Example extract_ex :
  _extract_negative_keywords "Avoid statistics and not calculus, please"
  = ["statistics"; "and"; "not"; "calculus"]%string.
Proof. vm_compute. reflexivity. Qed.

Example key_ex :
  cache_key (fun _ => (-7)%Z) 3 (Some "ml"%string) 10 = "rec_3_-7_10"%string.
Proof. vm_compute. reflexivity. Qed.

Example preference_queries_ex :
  preference_queries
    {| pref_topics := ["python"; "data science"]%string;
       pref_difficulty := Some "beginner"%string;
       pref_learning_style := Some "visual"%string |}
  = ["courses about python data science"; "visual learning beginner level"]%string.
Proof. reflexivity. Qed.

Example sort_ex :
  sort_desc [("a", 0.5); ("b", 0.9); ("c", 0.5); ("d", 0.7)]%string
  = [("b", 0.9); ("d", 0.7); ("a", 0.5); ("c", 0.5)]%string.
Proof. reflexivity. Qed.

Example slice_ex :
  slice_to 2 [1; 2; 3]%nat = [1; 2]%nat /\ slice_to (-1) [1; 2; 3]%nat = [1; 2]%nat.
Proof. split; reflexivity. Qed.

Example round3_ex : Qred (round3 (291 # 400)) = 91 # 125.
Proof. reflexivity. Qed.

Example difficulty_ex :
  _calculate_difficulty_score (Some "Advanced"%string) (Some "beginner"%string)
  = 0.3
  /\ _calculate_difficulty_score (Some "expert"%string) (Some "beginner"%string)
     = 0.5
  /\ _calculate_difficulty_score None (Some "beginner"%string) = 0.5.
Proof. repeat split. Qed.

Example style_ex :
  _calculate_learning_style_score (Some "Video lectures"%string)
                                  (Some "visual"%string) = 0.8
  /\ _calculate_learning_style_score (Some "interactive"%string)
                                     (Some "Interactive"%string) = 1.0
  /\ _calculate_learning_style_score (Some "text"%string)
                                     (Some "visual"%string) = 0.4.
Proof. repeat split. Qed.

(** The keyword extracted from the query text removes the one hit. *)
Example search_ex :
  let env :=
    {| select_topics := fun _ => Ok None;
       select_course := fun _ => Ok None;
       vector_index :=
         fun _ _ _ =>
           Ok [{| properties :=
                    {| prop_courseId := "py"; prop_title := "Python Basics";
                       prop_description := "";
                       prop_topics := Some ["Programming"]%string;
                       prop_difficulty := Some "beginner"%string;
                       prop_duration := "";
                       prop_format := Some "video"%string;
                       prop_rating := 4.0 |};
                  distance := Some 0.3 |}];
       content_rows := Ok [];
       catalog := Ok [];
       now_check := 0;
       now_store := 0 |} in
  map (fun r => prop_courseId (fst r))
      (search_similar_courses env "web development" 5 0.4 [])
  = ["py"%string]
  /\ search_similar_courses env "coding but not python" 5 0.4 [] = []
  /\ search_similar_courses env "coding" 5 0.4 ["Programming"%string] = []
  /\ search_similar_courses env "coding" 5 0.8 [] = [].
Proof. vm_compute. repeat split. Qed.

(** ** Rational arithmetic helpers *)

Lemma Q_of_nat_nonneg n : 0 <= Q_of_nat n.
Proof. unfold Q_of_nat, Qle. simpl. lia. Qed.

Lemma Q_of_nat_le n m : (n <= m)%nat -> Q_of_nat n <= Q_of_nat m.
Proof. intros H. unfold Q_of_nat. rewrite <- Zle_Qle. lia. Qed.

Lemma Q_of_nat_pos n : (0 < n)%nat -> 0 < Q_of_nat n.
Proof. intros H. unfold Q_of_nat, Qlt. simpl. lia. Qed.

Lemma Qdiv_le_mono a b c : 0 < c -> a <= b -> a / c <= b / c.
Proof.
  intros Hc Hab. unfold Qdiv. apply Qmult_le_compat_r; [exact Hab|].
  apply Qinv_le_0_compat. apply Qlt_le_weak, Hc.
Qed.

Lemma Qsum_app xs ys : Qsum (xs ++ ys) == Qsum xs + Qsum ys.
Proof. induction xs as [|x xs IH]; simpl; [ring|]. rewrite IH. ring. Qed.

Lemma Qsum_nonneg {A} (f : A -> Q) ts :
  (forall t, 0 <= f t) -> 0 <= Qsum (map f ts).
Proof.
  intros Hf. induction ts as [|t ts IH]; simpl; [discriminate|].
  specialize (Hf t). lra.
Qed.

Lemma Qsum_le {A} (f g : A -> Q) ts :
  (forall t, f t <= g t) -> Qsum (map f ts) <= Qsum (map g ts).
Proof.
  intros Hfg. induction ts as [|t ts IH]; simpl; [discriminate|].
  specialize (Hfg t). lra.
Qed.

(** ** Topic affinity *)

Lemma preferred_pass_sum preferred_topics course_topics score :
  preferred_pass preferred_topics score course_topics
  == score + Qsum (map (preferred_hit preferred_topics) course_topics).
Proof.
  revert score. induction course_topics as [|t ts IH]; intros score; simpl.
  - ring.
  - unfold preferred_pass in *. simpl. rewrite IH. unfold preferred_hit.
    destruct (Text.mem _ _); ring.
Qed.

Lemma positive_pass_sum positive_topics course_topics score :
  positive_pass positive_topics score course_topics
  == score + Qsum (map (history_hit positive_topics) course_topics).
Proof.
  revert score. induction course_topics as [|t ts IH]; intros score; simpl.
  - ring.
  - unfold positive_pass in *. simpl. rewrite IH. unfold history_hit.
    destruct (Text.mem _ _); ring.
Qed.

Lemma frequency_weight_bounds positive_topics t :
  0 <= frequency_weight positive_topics t <= 0.8.
Proof.
  unfold frequency_weight. split.
  - apply Q.min_glb; [|discriminate].
    apply Qle_shift_div_l; [reflexivity|]. rewrite Qmult_0_l.
    apply Q_of_nat_nonneg.
  - apply Q.le_min_r.
Qed.

Lemma preferred_hit_bounds preferred_topics t :
  0 <= preferred_hit preferred_topics t <= 1.
Proof. unfold preferred_hit. destruct (Text.mem _ _); split; discriminate. Qed.

Lemma history_hit_bounds positive_topics t :
  0 <= history_hit positive_topics t <= 0.8.
Proof.
  unfold history_hit. destruct (Text.mem _ _).
  - apply frequency_weight_bounds.
  - split; discriminate.
Qed.

Lemma topic_total_nonneg ct pt pos : 0 <= topic_total ct pt pos.
Proof.
  unfold topic_total.
  pose proof (Qsum_nonneg (preferred_hit pt) ct
                (fun t => proj1 (preferred_hit_bounds pt t))).
  pose proof (Qsum_nonneg (history_hit pos) ct
                (fun t => proj1 (history_hit_bounds pos t))).
  lra.
Qed.

Lemma topic_score_closed_form course_topics preferred_topics positive_topics :
  course_topics <> [] ->
  _calculate_topic_score course_topics preferred_topics positive_topics
  == Qmin (topic_total course_topics preferred_topics positive_topics
           / Q_of_nat (length course_topics)) 1.
Proof.
  intros Hne. destruct course_topics as [|t ts]; [congruence|].
  unfold _calculate_topic_score, topic_total.
  set (cts := t :: ts).
  assert (Hlen : 1 <= Q_of_nat (length cts)).
  { unfold Q_of_nat. change 1 with (inject_Z 1). rewrite <- Zle_Qle.
    subst cts. simpl. lia. }
  rewrite (Q.max_l _ _ Hlen).
  rewrite positive_pass_sum, preferred_pass_sum.
  assert (E : 0.0 + Qsum (map (preferred_hit preferred_topics) cts)
              + Qsum (map (history_hit positive_topics) cts)
              == Qsum (map (preferred_hit preferred_topics) cts)
                 + Qsum (map (history_hit positive_topics) cts)) by ring.
  rewrite E. assert (E1 : 1.0 == 1) by reflexivity. rewrite E1. reflexivity.
Qed.

(** The score is monotone in the total of the contributions, for a fixed
    number of course topics. *)
Lemma topic_score_mono_total ct ct' pt pt' pos pos' :
  length ct = length ct' ->
  topic_total ct pt pos <= topic_total ct' pt' pos' ->
  _calculate_topic_score ct pt pos <= _calculate_topic_score ct' pt' pos'.
Proof.
  intros Hlen Htot.
  destruct ct as [|t ts], ct' as [|t' ts']; try discriminate Hlen.
  - simpl. discriminate.
  - rewrite !topic_score_closed_form by discriminate.
    apply Q.min_le_compat_r. rewrite Hlen.
    apply Qdiv_le_mono; [|exact Htot].
    apply Q_of_nat_pos. simpl. lia.
Qed.

Lemma mem_count x xs : Text.mem x xs = (0 <? Text.count x xs)%nat.
Proof.
  induction xs as [|y ys IH]; simpl; [reflexivity|].
  unfold Text.mem in *. simpl. rewrite IH.
  destruct (String.eqb x y); simpl; [reflexivity|].
  reflexivity.
Qed.

Lemma history_hit_mono pos pos' t :
  (forall x, (Text.count x (map Text.lower pos)
              <= Text.count x (map Text.lower pos'))%nat) ->
  history_hit pos t <= history_hit pos' t.
Proof.
  intros Hcount. unfold history_hit. rewrite !mem_count.
  specialize (Hcount (Text.lower t)).
  destruct (Nat.ltb_spec 0 (Text.count (Text.lower t) (map Text.lower pos)))
    as [Hpos|Hzero].
  - destruct (Nat.ltb_spec 0 (Text.count (Text.lower t) (map Text.lower pos')))
      as [_|Hzero']; [|lia].
    unfold frequency_weight. apply Q.min_le_compat_r.
    apply Qdiv_le_mono; [reflexivity|]. apply Q_of_nat_le, Hcount.
  - destruct (Nat.ltb_spec 0 (Text.count (Text.lower t) (map Text.lower pos')))
      as [_|_]; [|discriminate].
    apply frequency_weight_bounds.
Qed.

(** C8. [topic_affinity] ([_calculate_topic_score]) always lies in
    [[0,1]]; it does not decrease when a course topic that matches no
    preferred topic is replaced by one that (case-insensitively) does, nor
    when occurrences are added to the positive-history list; for a
    non-empty course it is the sum of the preferred matches and of
    [min(frequency / 3.0, 0.8)] over the course topics found in the
    history, divided by the number of course topics and capped at [1]. *)
Theorem topic_affinity_bounded_monotone :
  (forall ct pt pos, 0 <= _calculate_topic_score ct pt pos <= 1)
  /\ (forall pre t t' post pt pos,
        Text.mem (Text.lower t) (map Text.lower pt) = false ->
        Text.mem (Text.lower t') (map Text.lower pt) = true ->
        _calculate_topic_score (pre ++ t :: post) pt pos
        <= _calculate_topic_score (pre ++ t' :: post) pt pos)
  /\ (forall ct pt pos pos',
        (forall x, (Text.count x (map Text.lower pos)
                    <= Text.count x (map Text.lower pos'))%nat) ->
        _calculate_topic_score ct pt pos <= _calculate_topic_score ct pt pos')
  /\ (forall ct pt pos,
        ct <> [] ->
        _calculate_topic_score ct pt pos
        == Qmin ((Qsum (map (preferred_hit pt) ct)
                  + Qsum (map (fun t =>
                                 if Text.mem (Text.lower t) (map Text.lower pos)
                                 then Qmin (Q_of_nat (Text.count (Text.lower t)
                                                        (map Text.lower pos))
                                            / 3.0) 0.8
                                 else 0) ct))
                 / Q_of_nat (length ct)) 1).
Proof.
  split; [|split; [|split]].
  - intros ct pt pos. destruct ct as [|t ts].
    + simpl. split; discriminate.
    + rewrite topic_score_closed_form by discriminate. split.
      * apply Q.min_glb; [|discriminate].
        apply Qle_shift_div_l; [apply Q_of_nat_pos; simpl; lia|].
        rewrite Qmult_0_l. apply topic_total_nonneg.
      * apply Q.le_min_r.
  - intros pre t t' post pt pos Ht Ht'.
    apply topic_score_mono_total.
    + rewrite !length_app. reflexivity.
    + unfold topic_total. rewrite !map_app, !Qsum_app. simpl.
      unfold preferred_hit at 2 5. rewrite Ht, Ht'.
      pose proof (history_hit_bounds pos t) as [_ Hup].
      pose proof (history_hit_bounds pos t') as [Hlo _].
      lra.
  - intros ct pt pos pos' Hcount.
    apply topic_score_mono_total; [reflexivity|].
    unfold topic_total.
    pose proof (Qsum_le (history_hit pos) (history_hit pos') ct
                  (fun t => history_hit_mono pos pos' t Hcount)).
    lra.
  - intros ct pt pos Hne. apply topic_score_closed_form, Hne.
Qed.

(** The three parts at concrete inputs: one of two topics preferred; a
    non-matching topic replaced by a preferred one; one more positive
    rating for a course topic. *)
Lemma topic_affinity_bounded_monotone_witness :
  (0 <= _calculate_topic_score ["Python"; "Fundamentals"]
          ["python"; "data science"] [] <= 1)
  /\ _calculate_topic_score (["Fundamentals"] ++ "SQL" :: []) ["python"] ["sql"]
     <= _calculate_topic_score (["Fundamentals"] ++ "Python" :: []) ["python"] ["sql"]
  /\ _calculate_topic_score ["SQL"] [] ["sql"]
     <= _calculate_topic_score ["SQL"] [] ["sql"; "SQL"]
  /\ _calculate_topic_score ["Python"; "Fundamentals"] ["python"] ["python"]
     == 2 # 3.
Proof.
  destruct topic_affinity_bounded_monotone as (Hb & Hrep & Hhist & Hform).
  split; [apply Hb|]. split; [apply Hrep; reflexivity|].
  split.
  - apply Hhist. intros x. simpl.
    destruct (String.eqb x "sql"); simpl; lia.
  - rewrite Hform by discriminate. vm_compute. reflexivity.
Defined.

(** ** Composite score *)

Lemma course_score_formula preferences positive_topics c :
  course_score preferences positive_topics c
  == spec_composite_score preferences positive_topics c.
Proof.
  unfold course_score, spec_composite_score.
  destruct (source c) as [[|]|], (vector_similarity c) as [v|]; simpl; field.
Qed.

Lemma Forall2_map_r {A B} (P : A -> B -> Prop) (f : A -> B) xs :
  (forall x, P x (f x)) -> Forall2 P xs (map f xs).
Proof. intros H. induction xs; simpl; constructor; auto. Qed.

(** C1 (amended).  With a user context whose look-ups of the positively
    rated courses all answer, every candidate is scored
    [0.20*(rating/5.0) + 0.40*vector_similarity + 0.30*topic_affinity
    + 0.10*difficulty_fit + 0.05*style_fit + 0.05*diversity_bonus], plus
    [0.02] exactly for provenance [vector]; when one of these look-ups
    raises, every candidate of the batch is scored [rating/5.0]; without
    a user context the score is [rating/5.0 + 0.5*vector_similarity].  A
    missing similarity counts as [0]. *)
Theorem composite_score_formula env h courses uc :
  (forall positive_topics,
      _extract_positive_topic_patterns env uc = Ok positive_topics ->
      Forall2 (fun course scored =>
                 fst scored = course
                 /\ snd scored
                    == spec_composite_score
                         (default empty_preferences (preferences uc))
                         positive_topics (h course))
              courses (_score_courses env h courses (Some uc)))
  /\ (_extract_positive_topic_patterns env uc = Raise ->
      _score_courses env h courses (Some uc)
      = map (fun course => (course, rating (h course) / 5.0)) courses)
  /\ Forall2 (fun course scored =>
                fst scored = course
                /\ snd scored == spec_fallback_score (h course))
             courses (_score_courses env h courses None).
Proof.
  split; [|split].
  - intros positive_topics Hpos. unfold _score_courses. rewrite Hpos. simpl.
    apply Forall2_map_r. intros l. split; [reflexivity|].
    apply course_score_formula.
  - intros Hr. unfold _score_courses. rewrite Hr. reflexivity.
  - unfold _score_courses. simpl.
    apply Forall2_map_r. intros l. split; [reflexivity|].
    unfold spec_fallback_score.
    destruct (vector_similarity (h l)) as [v|]; simpl; field.
Qed.

(** The formula at a store of sample courses, the catalogue answering
    the look-up of the one positively rated course. *)
Lemma composite_score_formula_witness :
  Forall2 (fun course scored =>
             fst scored = course
             /\ snd scored
                == spec_composite_score
                     (default empty_preferences (preferences sample_context))
                     ["python"%string] (sample_store course))
          [0%nat; 2%nat]
          (_score_courses sample_env sample_store [0%nat; 2%nat]
             (Some sample_context))
  /\ Forall2 (fun course scored =>
                fst scored = course
                /\ snd scored == spec_fallback_score (sample_store course))
             [0%nat; 2%nat]
             (_score_courses sample_env sample_store [0%nat; 2%nat] None).
Proof.
  destruct (composite_score_formula sample_env sample_store [0%nat; 2%nat]
              sample_context) as (Hformula & _ & Habsent).
  split; [apply Hformula; reflexivity|exact Habsent].
Defined.

(** C1 as stated fails: the context is present, the look-up of the
    positively rated course raises inside the [try] block of the scorer,
    and the candidate is scored [rating/5.0 = 0.8], which the composite
    formula gives for no list of positive topics. *)
Lemma composite_score_fails_when_lookup_raises :
  ~ composite_score_for_every_context.
Proof.
  intros H.
  destruct (H vector_down_env (fun _ => plain_course) [0%nat] sample_context)
    as (positive_topics & Hf).
  change (_score_courses vector_down_env (fun _ => plain_course) [0%nat]
            (Some sample_context))
    with [(0%nat, rating plain_course / 5.0)] in Hf.
  inversion Hf as [|? ? ? ? [_ Hs] _]; subst.
  vm_compute in Hs. discriminate Hs.
Qed.

(** The end-to-end scenario of the specification: preferred topics
    python and data science, beginner; a course on python and
    fundamentals, rated 4.5, beginner, interactive, similarity 0.6, found
    by the vector search. *)
Example scenario_score :
  Qred (course_score
          {| pref_topics := ["python"; "data science"]%string;
             pref_difficulty := Some "beginner"%string;
             pref_learning_style := None |}
          []
          (set_source Vector (sample_course "c1" 4.5 (Some 0.6))))
  = 291 # 400.
Proof. vm_compute. reflexivity. Qed.


(** ** Ranking *)

Section Ranking.

Context {A : Type}.
Implicit Types (x : A * Q) (l : list (A * Q)).

Lemma insert_desc_perm x l : Permutation (x :: l) (insert_desc x l).
Proof.
  induction l as [|y l IH]; simpl; [reflexivity|].
  destruct (Qle_bool (snd y) (snd x)); [reflexivity|].
  rewrite perm_swap. constructor. exact IH.
Qed.

Lemma sort_desc_perm l : Permutation l (sort_desc l).
Proof.
  induction l as [|x l IH]; simpl; [reflexivity|].
  rewrite <- insert_desc_perm. constructor. exact IH.
Qed.

Lemma insert_desc_sorted x l :
  StronglySorted score_ge l -> StronglySorted score_ge (insert_desc x l).
Proof.
  induction 1 as [|y l Hs IH Hy]; simpl.
  - repeat constructor.
  - destruct (Qle_bool (snd y) (snd x)) eqn:E.
    + apply Qle_bool_iff in E. constructor; [constructor; assumption|].
      constructor; [exact E|].
      eapply List.Forall_impl; [|exact Hy]. intros z Hz.
      unfold score_ge in *. eapply Qle_trans; eassumption.
    + constructor; [exact IH|].
      assert (Hlt : snd x <= snd y).
      { destruct (Qlt_le_dec (snd x) (snd y)) as [Hl|Hl];
          [apply Qlt_le_weak, Hl|].
        apply Qle_bool_iff in Hl. congruence. }
      rewrite <- (insert_desc_perm x l). constructor; assumption.
Qed.

Lemma sort_desc_sorted l : StronglySorted score_ge (sort_desc l).
Proof.
  induction l as [|x l IH]; simpl; [constructor|].
  apply insert_desc_sorted, IH.
Qed.

Lemma insert_desc_stable s x l :
  List.filter (has_score s) (insert_desc x l)
  = List.filter (has_score s) (x :: l).
Proof.
  induction l as [|y l IH]; [reflexivity|].
  simpl insert_desc. destruct (Qle_bool (snd y) (snd x)) eqn:E;
    [reflexivity|].
  simpl in *. rewrite IH.
  destruct (has_score s x) eqn:Ex, (has_score s y) eqn:Ey;
    try reflexivity.
  unfold has_score in *. apply Qeq_bool_iff in Ex, Ey.
  assert (Hle : snd y <= snd x) by (rewrite Ex, Ey; apply Qle_refl).
  apply Qle_bool_iff in Hle. congruence.
Qed.

Lemma sort_desc_stable s l :
  List.filter (has_score s) (sort_desc l) = List.filter (has_score s) l.
Proof.
  induction l as [|x l IH]; [reflexivity|].
  simpl sort_desc. rewrite insert_desc_stable. simpl. rewrite IH.
  reflexivity.
Qed.

End Ranking.

(** C2. The scored candidates, once sorted, are in non-increasing score
    order; they are the scored candidates (a permutation); and for every
    score value the candidates carrying it come in the order they had
    before sorting, which is the order of the fused list. *)
Theorem scorer_output_sorted_stable env h courses user_context :
  let scored_courses := _score_courses env h courses user_context in
  let ranked := sort_desc scored_courses in
  StronglySorted (fun a b => snd b <= snd a) ranked
  /\ Permutation scored_courses ranked
  /\ (forall s,
        List.filter (fun p => Qeq_bool (snd p) s) ranked
        = List.filter (fun p => Qeq_bool (snd p) s) scored_courses)
  /\ (exists scores, scored_courses = combine courses scores
                     /\ length scores = length courses).
Proof.
  intros scored_courses ranked. split; [apply sort_desc_sorted|].
  split; [apply sort_desc_perm|]. split; [intros s; apply sort_desc_stable|].
  exists (map snd scored_courses). subst scored_courses.
  unfold _score_courses, try_except.
  destruct user_context as [uc|]; simpl.
  - destruct (_extract_positive_topic_patterns env uc); simpl;
      rewrite !length_map; split; try reflexivity;
      induction courses; simpl; congruence.
  - rewrite !length_map; split; try reflexivity.
    induction courses; simpl; congruence.
Qed.

(** ** Candidate Fusion *)

Lemma mem_In x xs : Text.mem x xs = true <-> In x xs.
Proof.
  unfold Text.mem. rewrite existsb_exists. split.
  - intros (y & Hy & E). apply String.eqb_eq in E. subst. exact Hy.
  - intros H. exists x. split; [exact H|apply String.eqb_refl].
Qed.

Lemma mem_false x xs : Text.mem x xs = false <-> ~ In x xs.
Proof.
  rewrite <- mem_In. destruct (Text.mem x xs); split; congruence.
Qed.

Lemma set_source_idem s c : set_source s (set_source s c) = set_source s c.
Proof. reflexivity. Qed.

Lemma tag_same s h l : tag s h l l = set_source s (h l).
Proof. unfold tag. apply fn_lookup_insert. Qed.

Lemma tag_other s h a l : a <> l -> tag s h a l = h l.
Proof. intros Hne. unfold tag. apply fn_lookup_insert_ne, Hne. Qed.

Lemma tag_all_cons s a ls h : tag_all s (a :: ls) h = tag_all s ls (tag s h a).
Proof. reflexivity. Qed.

Lemma id_tag s h l l' : id (tag s h l l') = id (h l').
Proof.
  destruct (Nat.eq_dec l l') as [->|Hne].
  - rewrite tag_same. reflexivity.
  - rewrite tag_other by exact Hne. reflexivity.
Qed.

Lemma id_tag_all s ls h l' : id (tag_all s ls h l') = id (h l').
Proof.
  revert h. induction ls as [|l ls IH]; intros h; [reflexivity|].
  rewrite tag_all_cons, IH. apply id_tag.
Qed.

Lemma tag_all_notin s ls h l : ~ In l ls -> tag_all s ls h l = h l.
Proof.
  revert h. induction ls as [|a ls IH]; intros h Hin; [reflexivity|].
  rewrite tag_all_cons, IH by (intros H; apply Hin; right; exact H).
  apply tag_other. intros ->. apply Hin. left. reflexivity.
Qed.

Lemma tag_all_in s ls h l :
  In l ls -> tag_all s ls h l = set_source s (h l).
Proof.
  revert h. induction ls as [|a ls IH]; intros h Hin; [destruct Hin|].
  rewrite tag_all_cons.
  destruct (in_dec Nat.eq_dec l ls) as [Hl|Hl].
  - rewrite IH by exact Hl.
    destruct (Nat.eq_dec a l) as [->|Hne].
    + rewrite tag_same. reflexivity.
    + rewrite tag_other by exact Hne. reflexivity.
  - destruct Hin as [->|Hin]; [|contradiction].
    rewrite tag_all_notin by exact Hl. apply tag_same.
Qed.

(** *** The ordered dictionary *)

Lemma od_set_fresh k v d :
  ~ In k (keys d) -> od_set k v d = d ++ [(k, v)].
Proof.
  induction d as [|[k' v'] d IH]; intros Hk; simpl; [reflexivity|].
  destruct (String.eqb_spec k k') as [->|Hne].
  - exfalso. apply Hk. left. reflexivity.
  - rewrite IH; [reflexivity|]. intros H. apply Hk. right. exact H.
Qed.

Lemma keys_od_set k v d :
  keys (od_set k v d) = if Text.mem k (keys d) then keys d else keys d ++ [k].
Proof.
  induction d as [|[k' v'] d IH]; simpl; [reflexivity|].
  unfold Text.mem in *. simpl.
  destruct (String.eqb_spec k k') as [->|Hne]; simpl; [reflexivity|].
  rewrite IH. destruct (existsb _ _); reflexivity.
Qed.

Lemma od_set_In k v d p :
  In p (od_set k v d) -> In p d \/ p = (k, v).
Proof.
  induction d as [|[k' v'] d IH]; simpl.
  - intros [<-|[]]. right. reflexivity.
  - destruct (String.eqb_spec k k') as [->|Hne]; simpl.
    + intros [<-|H]; [right; reflexivity|left; right; exact H].
    + intros [<-|H]; [left; left; reflexivity|].
      destruct (IH H) as [H'|H']; [left; right; exact H'|right; exact H'].
Qed.

Lemma od_sets_ext h h' vs d :
  (forall l, id (h l) = id (h' l)) -> od_sets h vs d = od_sets h' vs d.
Proof.
  intros E. revert d. induction vs as [|l vs IH]; intros d; [reflexivity|].
  unfold od_sets in *. simpl. rewrite E. apply IH.
Qed.

Lemma ids_ext h h' ls :
  (forall l, id (h l) = id (h' l)) -> ids h ls = ids h' ls.
Proof. intros E. unfold ids. apply map_ext. intros l. apply E. Qed.

Lemma pairs_ext h h' ls :
  (forall l, id (h l) = id (h' l)) -> pairs h ls = pairs h' ls.
Proof. intros E. unfold pairs. apply map_ext. intros l. rewrite E. reflexivity. Qed.

Lemma content_kept_ext h h' seen cs :
  (forall l, id (h l) = id (h' l)) ->
  content_kept h seen cs = content_kept h' seen cs.
Proof.
  intros E. revert seen. induction cs as [|l cs IH]; intros seen; simpl;
    [reflexivity|].
  rewrite E. destruct (Text.mem _ _); [apply IH|]. f_equal. apply IH.
Qed.

Lemma keys_pairs h ls : keys (pairs h ls) = ids h ls.
Proof. unfold keys, pairs, ids. rewrite map_map. reflexivity. Qed.

Lemma values_pairs h ls : map snd (pairs h ls) = ls.
Proof. unfold pairs. rewrite map_map. simpl. apply map_id. Qed.

(** *** The two loops *)

Lemma vector_fold h d vs :
  fold_left vector_step vs (h, d) = (tag_all Vector vs h, od_sets h vs d).
Proof.
  revert h d. induction vs as [|l vs IH]; intros h d; [reflexivity|].
  simpl fold_left.
  change (vector_step (h, d) l)
    with (tag Vector h l, od_set (id (h l)) l d).
  rewrite IH, tag_all_cons. f_equal.
  rewrite (od_sets_ext (tag Vector h l) h) by (intros l'; apply id_tag).
  reflexivity.
Qed.

Lemma content_step_skip h d l :
  Text.mem (id (h l)) (keys d) = true -> content_step (h, d) l = (h, d).
Proof. intros E. unfold content_step, od_mem. fold (keys d). rewrite E. reflexivity. Qed.

Lemma content_step_keep h d l :
  Text.mem (id (h l)) (keys d) = false ->
  content_step (h, d) l = (tag Content h l, d ++ [(id (h l), l)]).
Proof.
  intros E. unfold content_step, od_mem. fold (keys d). rewrite E. simpl.
  apply mem_false in E. rewrite (od_set_fresh _ _ _ E). reflexivity.
Qed.

Lemma content_fold h d cs :
  fold_left content_step cs (h, d)
  = (tag_all Content (content_kept h (keys d) cs) h,
     d ++ pairs h (content_kept h (keys d) cs)).
Proof.
  revert h d. induction cs as [|l cs IH]; intros h d.
  - simpl. rewrite app_nil_r. reflexivity.
  - change (fold_left content_step (l :: cs) (h, d))
      with (fold_left content_step cs (content_step (h, d) l)).
    simpl content_kept.
    destruct (Text.mem (id (h l)) (keys d)) eqn:E.
    + rewrite content_step_skip by exact E. apply IH.
    + rewrite content_step_keep by exact E. rewrite IH.
      assert (Eid : forall l', id (tag Content h l l') = id (h l'))
        by (intros l'; apply id_tag).
      rewrite (content_kept_ext _ h _ _ Eid), (pairs_ext _ h _ Eid).
      unfold keys at 1 2. rewrite map_app. simpl. fold (keys d).
      rewrite <- app_assoc. reflexivity.
Qed.

(** The result of the fusion in closed form. *)
Lemma combine_closed_form h vs cs :
  let d := od_sets h vs [] in
  let kept := content_kept h (keys d) cs in
  _combine_recommendations h vs cs
  = (tag_all Content kept (tag_all Vector vs h), map snd d ++ kept).
Proof.
  intros d kept. unfold _combine_recommendations.
  rewrite vector_fold, content_fold. fold d.
  assert (Eid : forall l', id (tag_all Vector vs h l') = id (h l'))
    by (intros l'; apply id_tag_all).
  rewrite (content_kept_ext _ h _ _ Eid), (pairs_ext _ h _ Eid). fold kept.
  rewrite map_app, values_pairs. reflexivity.
Qed.

(** *** Invariants of the dictionary: keys are unique and are the
    identifiers of the objects stored under them *)

Lemma ids_cons h l ls : ids h (l :: ls) = id (h l) :: ids h ls.
Proof. reflexivity. Qed.

Lemma ids_app h ls ls' : ids h (ls ++ ls') = ids h ls ++ ids h ls'.
Proof. unfold ids. apply map_app. Qed.

Lemma od_sets_cons h l vs d :
  od_sets h (l :: vs) d = od_sets h vs (od_set (id (h l)) l d).
Proof. reflexivity. Qed.

Lemma od_set_keys_NoDup k v d : List.NoDup (keys d) -> List.NoDup (keys (od_set k v d)).
Proof.
  intros Hd. rewrite keys_od_set. destruct (Text.mem k (keys d)) eqn:E;
    [exact Hd|].
  apply mem_false in E.
  apply List.NoDup_app; [exact Hd|repeat constructor; intros []|].
  intros x Hx [<-|[]]. contradiction.
Qed.

Lemma od_set_keys_incl k v d x : In x (keys d) -> In x (keys (od_set k v d)).
Proof.
  intros Hx. rewrite keys_od_set. destruct (Text.mem k (keys d));
    [exact Hx|]. apply in_or_app. left. exact Hx.
Qed.

Lemma od_set_keys_new k v d : In k (keys (od_set k v d)).
Proof.
  rewrite keys_od_set. destruct (Text.mem k (keys d)) eqn:E.
  - apply mem_In, E.
  - apply in_or_app. right. left. reflexivity.
Qed.

Lemma od_sets_keys_NoDup h vs d :
  List.NoDup (keys d) -> List.NoDup (keys (od_sets h vs d)).
Proof.
  revert d. induction vs as [|l vs IH]; intros d Hd; [exact Hd|].
  rewrite od_sets_cons. apply IH, od_set_keys_NoDup, Hd.
Qed.

Lemma od_sets_keys_incl h vs d x :
  In x (keys d) -> In x (keys (od_sets h vs d)).
Proof.
  revert d. induction vs as [|l vs IH]; intros d Hx; [exact Hx|].
  rewrite od_sets_cons. apply IH, od_set_keys_incl, Hx.
Qed.

Lemma od_sets_keys_ids h vs d l :
  In l vs -> In (id (h l)) (keys (od_sets h vs d)).
Proof.
  revert d. induction vs as [|a vs IH]; intros d Hl; [destruct Hl|].
  rewrite od_sets_cons. destruct Hl as [->|Hl].
  - apply od_sets_keys_incl, od_set_keys_new.
  - apply IH, Hl.
Qed.

Lemma od_sets_keyed h vs d : keyed_by_id h d -> keyed_by_id h (od_sets h vs d).
Proof.
  revert d. induction vs as [|a vs IH]; intros d Hd; [exact Hd|].
  rewrite od_sets_cons. apply IH. intros k l Hin.
  apply od_set_In in Hin. destruct Hin as [Hin|E].
  - apply Hd, Hin.
  - injection E as -> ->. reflexivity.
Qed.

Lemma keyed_ids h d : keyed_by_id h d -> ids h (map snd d) = keys d.
Proof.
  induction d as [|[k l] d IH]; intros Hd; [reflexivity|].
  unfold ids, keys in *. simpl. f_equal.
  - symmetry. apply Hd. left. reflexivity.
  - apply IH. intros k' l' Hin. apply Hd. right. exact Hin.
Qed.

Lemma od_sets_values_In h vs d l :
  In l (map snd (od_sets h vs d)) -> In l (map snd d) \/ In l vs.
Proof.
  revert d. induction vs as [|a vs IH]; intros d Hl; [left; exact Hl|].
  rewrite od_sets_cons in Hl. apply IH in Hl. destruct Hl as [Hl|Hl].
  - apply in_map_iff in Hl. destruct Hl as ([k v] & <- & Hin).
    apply od_set_In in Hin. destruct Hin as [Hin|E].
    + left. apply in_map_iff. exists (k, v). split; [reflexivity|exact Hin].
    + injection E as -> ->. right. left. reflexivity.
  - right. right. exact Hl.
Qed.

Lemma od_sets_fresh h vs d :
  List.NoDup (ids h vs) ->
  (forall k, In k (ids h vs) -> ~ In k (keys d)) ->
  od_sets h vs d = d ++ pairs h vs.
Proof.
  revert d. induction vs as [|l vs IH]; intros d Hnd Hfresh.
  - simpl. rewrite app_nil_r. reflexivity.
  - rewrite od_sets_cons.
    rewrite ids_cons in Hnd. apply List.NoDup_cons_iff in Hnd.
    destruct Hnd as [Hl Hnd].
    rewrite od_set_fresh by (apply Hfresh; left; reflexivity).
    rewrite IH; [simpl; rewrite <- app_assoc; reflexivity|exact Hnd|].
    intros k Hk Hin. unfold keys in Hin. rewrite map_app in Hin.
    apply in_app_or in Hin. destruct Hin as [Hin|[<-|[]]].
    + apply (Hfresh k); [right; exact Hk|exact Hin].
    + contradiction.
Qed.

(** *** The content candidates that are inserted *)

Lemma content_kept_In h seen cs l :
  In l (content_kept h seen cs) -> In l cs /\ ~ In (id (h l)) seen.
Proof.
  revert seen. induction cs as [|a cs IH]; intros seen Hl; [destruct Hl|].
  simpl in Hl. destruct (Text.mem (id (h a)) seen) eqn:E.
  - destruct (IH _ Hl) as [H1 H2]. split; [right; exact H1|exact H2].
  - destruct Hl as [->|Hl].
    + split; [left; reflexivity|apply mem_false, E].
    + destruct (IH _ Hl) as [H1 H2]. split; [right; exact H1|].
      intros H. apply H2. apply in_or_app. left. exact H.
Qed.

Lemma content_kept_NoDup h seen cs :
  List.NoDup seen -> List.NoDup (seen ++ ids h (content_kept h seen cs)).
Proof.
  revert seen. induction cs as [|a cs IH]; intros seen Hs.
  - simpl. rewrite app_nil_r. exact Hs.
  - simpl. destruct (Text.mem (id (h a)) seen) eqn:E; [apply IH, Hs|].
    apply mem_false in E. rewrite ids_cons.
    replace (seen ++ id (h a) :: ids h (content_kept h (seen ++ [id (h a)]) cs))
      with ((seen ++ [id (h a)])
            ++ ids h (content_kept h (seen ++ [id (h a)]) cs))
      by (rewrite <- app_assoc; reflexivity).
    apply IH.
    apply List.NoDup_app; [exact Hs|repeat constructor; intros []|].
    intros x Hx [<-|[]]. contradiction.
Qed.

Lemma content_kept_nil h seen cs :
  (forall l, In l cs -> In (id (h l)) seen) -> content_kept h seen cs = [].
Proof.
  induction cs as [|a cs IH]; intros Hall; [reflexivity|].
  simpl. assert (E : Text.mem (id (h a)) seen = true)
    by (apply mem_In, Hall; left; reflexivity).
  rewrite E. apply IH. intros l Hl. apply Hall. right. exact Hl.
Qed.

Lemma content_kept_filter h seen cs :
  List.NoDup (ids h cs) ->
  content_kept h seen cs
  = List.filter (fun l => negb (Text.mem (id (h l)) seen)) cs.
Proof.
  revert seen. induction cs as [|a cs IH]; intros seen Hnd; [reflexivity|].
  rewrite ids_cons in Hnd. apply List.NoDup_cons_iff in Hnd.
  destruct Hnd as [Ha Hnd].
  simpl. destruct (Text.mem (id (h a)) seen) eqn:E; simpl.
  - apply IH, Hnd.
  - f_equal. rewrite IH by exact Hnd. apply filter_ext_in. intros l Hl.
    f_equal. unfold Text.mem. rewrite existsb_app. simpl.
    destruct (String.eqb_spec (id (h l)) (id (h a))) as [Eid|_];
      [|rewrite !orb_false_r; reflexivity].
    exfalso. apply Ha. rewrite <- Eid. unfold ids. apply in_map_iff.
    exists l. split; [reflexivity|exact Hl].
Qed.

(** *** Properties of every fusion result *)

Lemma combine_ids_NoDup h vs cs :
  let r := _combine_recommendations h vs cs in List.NoDup (ids (fst r) (snd r)).
Proof.
  intros r. subst r. rewrite combine_closed_form. simpl.
  set (d := od_sets h vs []). set (kept := content_kept h (keys d) cs).
  rewrite (ids_ext _ h)
    by (intros l; rewrite !id_tag_all; reflexivity).
  rewrite ids_app, keyed_ids by (apply od_sets_keyed; intros k l []).
  apply content_kept_NoDup, od_sets_keys_NoDup. constructor.
Qed.

Lemma combine_covers_vector h vs cs l :
  let r := _combine_recommendations h vs cs in
  In l vs -> In (id (h l)) (ids (fst r) (snd r)).
Proof.
  intros r Hl. subst r. rewrite combine_closed_form. simpl.
  set (d := od_sets h vs []). set (kept := content_kept h (keys d) cs).
  rewrite (ids_ext _ h)
    by (intros l'; rewrite !id_tag_all; reflexivity).
  rewrite ids_app, keyed_ids by (apply od_sets_keyed; intros k l' []).
  apply in_or_app. left. apply od_sets_keys_ids, Hl.
Qed.

(** With identifiers unique inside each list, the result is the vector
    list followed by the content candidates whose identifier is new. *)
Lemma combine_unique h vs cs :
  List.NoDup (ids h vs) -> List.NoDup (ids h cs) ->
  let kept :=
    List.filter (fun l => negb (Text.mem (id (h l)) (ids h vs))) cs in
  _combine_recommendations h vs cs
  = (tag_all Content kept (tag_all Vector vs h), vs ++ kept).
Proof.
  intros Hv Hc kept. rewrite combine_closed_form.
  rewrite (od_sets_fresh h vs []) by (auto; intros k _ []).
  simpl app. rewrite keys_pairs, values_pairs.
  rewrite content_kept_filter by exact Hc. reflexivity.
Qed.

Lemma ids_inj h ls a b :
  List.NoDup (ids h ls) -> In a ls -> In b ls -> id (h a) = id (h b) -> a = b.
Proof.
  induction ls as [|x ls IH]; intros Hnd Ha Hb E; [destruct Ha|].
  rewrite ids_cons in Hnd. apply List.NoDup_cons_iff in Hnd.
  destruct Hnd as [Hx Hnd].
  assert (Hin : forall l, In l ls -> In (id (h l)) (ids h ls)).
  { intros l Hl. unfold ids. apply in_map_iff. exists l. auto. }
  destruct Ha as [->|Ha], Hb as [->|Hb]; try reflexivity.
  - exfalso. apply Hx. rewrite E. apply Hin, Hb.
  - exfalso. apply Hx. rewrite <- E. apply Hin, Ha.
  - apply IH; assumption.
Qed.

Lemma In_ids h ls l : In l ls -> In (id (h l)) (ids h ls).
Proof. intros Hl. unfold ids. apply in_map_iff. exists l. auto. Qed.

(** C3 (amended).  For a vector list and a content list each free of
    repeated identifiers, the fusion returns a list in which every vector
    candidate appears, tagged [Vector]; a content candidate appears as a
    [Content] item exactly when its identifier is absent from the vector
    list; no identifier appears twice; and an identifier present in both
    lists is represented by the vector object, its similarity kept and
    its provenance [Vector]. *)
Theorem fusion_contract_unique_ids h vs cs :
  List.NoDup (ids h vs) -> List.NoDup (ids h cs) -> fusion_contract h vs cs.
Proof.
  intros Hv Hc. unfold fusion_contract.
  pose proof (combine_ids_NoDup h vs cs) as Hnd.
  rewrite (combine_unique h vs cs Hv Hc) in *. simpl in Hnd.
  set (kept := List.filter
                 (fun l => negb (Text.mem (id (h l)) (ids h vs))) cs) in *.
  set (h' := tag_all Content kept (tag_all Vector vs h)) in *.
  assert (Hkept : forall l, In l kept <->
                            In l cs /\ ~ In (id (h l)) (ids h vs)).
  { intros l. subst kept. rewrite filter_In, negb_true_iff, mem_false.
    reflexivity. }
  assert (Hvec : forall l, In l vs -> h' l = set_source Vector (h l)).
  { intros l Hl. subst h'. rewrite tag_all_notin, tag_all_in; auto.
    intros Hk. apply Hkept in Hk. destruct Hk as [_ Hk].
    apply Hk, In_ids, Hl. }
  assert (Hid : forall l, id (h' l) = id (h l)).
  { intros l. subst h'. rewrite !id_tag_all. reflexivity. }
  split; [|split; [|split]].
  - intros l Hl. split; [apply in_or_app; left; exact Hl|apply Hvec, Hl].
  - intros l Hl. split.
    + intros [Hout Hsrc]. apply in_app_or in Hout.
      destruct Hout as [Hout|Hout]; [|apply Hkept, Hout].
      rewrite (Hvec l Hout) in Hsrc. discriminate Hsrc.
    + intros Hnew. assert (Hk : In l kept) by (apply Hkept; auto).
      split; [apply in_or_app; right; exact Hk|].
      subst h'. rewrite tag_all_in by exact Hk. reflexivity.
  - exact Hnd.
  - intros lv lc Hlv Hlc E. split; [|rewrite (Hvec lv Hlv); auto].
    intros l Hl El. rewrite Hid in El.
    rewrite (ids_ext h' h _ Hid) in Hnd.
    apply (ids_inj h (vs ++ kept)); auto.
    apply in_or_app. left. exact Hlv.
Qed.

(** The contract at a vector hit [c1] and two content rows [c1], [c2]. *)
Lemma fusion_contract_unique_ids_witness :
  fusion_contract sample_store [0%nat] [1%nat; 2%nat].
Proof.
  apply fusion_contract_unique_ids.
  - repeat constructor; simpl; intuition discriminate.
  - repeat constructor; simpl; intuition discriminate.
Defined.

(** C3 as stated, for every pair of lists, fails: of two vector hits with
    the same identifier only the second is returned. *)
Lemma fusion_contract_fails_on_repeated_ids :
  ~ (forall h vs cs, fusion_contract h vs cs).
Proof.
  intros H. specialize (H sample_store [0%nat; 1%nat] []).
  unfold fusion_contract in H. cbn in H.
  destruct H as (H & _). destruct (H 0%nat) as [Hin _].
  - left. reflexivity.
  - destruct Hin as [E|[]]. discriminate E.
Qed.

Example fusion_repeated_ids :
  snd (_combine_recommendations sample_store [0%nat; 1%nat] [2%nat])
  = [1%nat; 2%nat].
Proof. reflexivity. Qed.

(** C9 (amended).  Fusing a list [A] of unique identifiers with itself
    returns [A] itself, the same objects in the same order, each now
    tagged [Vector], and no identifier twice; and for all lists [A] and
    [B], fusing the result of [fuse(A, B)] again with [A] returns the
    objects of [fuse(A, B)] in the same order, the store changed only in
    that every one of them is now tagged [Vector]. *)
Theorem fusion_idempotent_up_to_provenance :
  (forall h A,
      List.NoDup (ids h A) ->
      _combine_recommendations h A A = (tag_all Vector A h, A)
      /\ List.NoDup (ids (tag_all Vector A h) A))
  /\ (forall h A B,
        let r1 := _combine_recommendations h A B in
        _combine_recommendations (fst r1) (snd r1) A
        = (tag_all Vector (snd r1) (fst r1), snd r1))
  /\ (forall s ls h l,
        (In l ls -> tag_all s ls h l = set_source s (h l))
        /\ (~ In l ls -> tag_all s ls h l = h l)).
Proof.
  split; [|split].
  - intros h A Hnd. split.
    + rewrite combine_closed_form.
      rewrite (od_sets_fresh h A []) by (auto; intros k _ []).
      simpl app. rewrite keys_pairs, values_pairs.
      rewrite content_kept_nil by (intros l; apply In_ids).
      rewrite app_nil_r. reflexivity.
    + rewrite (ids_ext _ h) by (intros l; apply id_tag_all). exact Hnd.
  - intros h A B r1.
    pose proof (combine_ids_NoDup h A B) as Hnd. fold r1 in Hnd. simpl in Hnd.
    pose proof (fun l => combine_covers_vector h A B l) as Hcov.
    fold r1 in Hcov. simpl in Hcov.
    assert (Hid : forall l, id (fst r1 l) = id (h l)).
    { intros l. subst r1. rewrite combine_closed_form. simpl.
      rewrite !id_tag_all. reflexivity. }
    rewrite combine_closed_form.
    rewrite (od_sets_fresh (fst r1) (snd r1) []) by (auto; intros k _ []).
    simpl app. rewrite keys_pairs, values_pairs.
    rewrite content_kept_nil
      by (intros l Hl; rewrite Hid; apply Hcov, Hl).
    rewrite app_nil_r. reflexivity.
  - intros s ls h l. split; [apply tag_all_in|apply tag_all_notin].
Qed.

Lemma fusion_idempotent_up_to_provenance_witness :
  _combine_recommendations sample_store [0%nat; 2%nat] [0%nat; 2%nat]
  = (tag_all Vector [0%nat; 2%nat] sample_store, [0%nat; 2%nat])
  /\ List.NoDup (ids (tag_all Vector [0%nat; 2%nat] sample_store)
                     [0%nat; 2%nat]).
Proof.
  apply (proj1 fusion_idempotent_up_to_provenance).
  repeat constructor; simpl; intuition discriminate.
Defined.

(** C9 as stated fails on the records: a candidate that came from [B]
    alone is tagged [Content] by the first fusion and [Vector] by the
    second. *)
Lemma fusion_not_idempotent_on_records : ~ fusion_idempotent_on_records.
Proof.
  intros H. specialize (H sample_store [] [2%nat]).
  unfold records in H. cbn in H. discriminate H.
Qed.

(** ** Cache key *)

Lemma pretty_N_char_no_underscore x : pretty_N_char x <> "_"%char.
Proof. unfold pretty_N_char. repeat case_match; discriminate. Qed.

Lemma pretty_N_go_no_underscore x s :
  no_underscore s -> no_underscore (pretty_N_go x s).
Proof.
  revert s. induction (N.lt_wf_0 x) as [x _ IH]; intros s Hs.
  destruct (decide (x = 0)%N) as [->|Hx].
  - rewrite pretty_N_go_0. exact Hs.
  - rewrite pretty_N_go_step by lia. apply IH.
    + apply N.div_lt; lia.
    + split; [apply pretty_N_char_no_underscore|exact Hs].
Qed.

Lemma pretty_N_no_underscore (x : N) : no_underscore (pretty x).
Proof.
  unfold pretty, pretty_N. destruct (decide (x = 0)%N).
  - simpl. split; [discriminate|exact I].
  - apply pretty_N_go_no_underscore. exact I.
Qed.

Lemma pretty_Z_no_underscore (x : Z) : no_underscore (pretty x).
Proof.
  unfold pretty, pretty_Z. destruct x as [|p|p].
  - simpl. split; [discriminate|exact I].
  - apply (pretty_N_no_underscore (N.pos p)).
  - split; [discriminate|]. apply (pretty_N_no_underscore (N.pos p)).
Qed.

(** A field without underscore is delimited by the first underscore. *)
Lemma field_inj a a' r r' :
  no_underscore a -> no_underscore a' ->
  a +:+ String "_" r = a' +:+ String "_" r' -> a = a' /\ r = r'.
Proof.
  revert a'. induction a as [|c a IH]; intros [|c' a'] Ha Ha' E; simpl in *.
  - injection E as ->. auto.
  - injection E as <- _. destruct Ha' as [Hc _]. congruence.
  - injection E as -> _. destruct Ha as [Hc _]. congruence.
  - injection E as -> E. destruct Ha as [_ Ha], Ha' as [_ Ha'].
    destruct (IH a' Ha Ha' E) as [-> ->]. auto.
Qed.

(** C5 (amended).  The cache key is injective in the triple (user id,
    hash of [str(query)], result count): two requests have the same key
    exactly when they agree on the user id, on the result count and on
    the hash of the stringified query. *)
Theorem cache_key_collisions hash u1 q1 n1 u2 q2 n2 :
  cache_key hash u1 q1 n1 = cache_key hash u2 q2 n2
  <-> u1 = u2 /\ hash (py_str q1) = hash (py_str q2) /\ n1 = n2.
Proof.
  split.
  - unfold cache_key. intros E. simpl in E.
    injection E as E.
    apply field_inj in E; try apply pretty_Z_no_underscore.
    destruct E as [Eu E].
    apply field_inj in E; try apply pretty_Z_no_underscore.
    destruct E as [Eh En].
    apply (inj pretty) in Eu, Eh, En. auto.
  - intros (-> & Eh & ->). unfold cache_key. rewrite Eh. reflexivity.
Qed.

(** C5 as stated fails whatever the hash function: the absent query is
    stringified to ["None"] and shares its key with that real query. *)
Lemma cache_key_not_injective : ~ exists hash, cache_key_injective hash.
Proof.
  intros [hash H].
  apply (H 1%Z None 10%Z 1%Z (Some "None"%string) 10%Z).
  - discriminate.
  - reflexivity.
Qed.

Example absent_query_collides hash :
  cache_key hash 7 None 10 = cache_key hash 7 (Some "None"%string) 10.
Proof. reflexivity. Qed.

(** ** Result Cache *)

Lemma cache_lookup_hit env cache key entry :
  cache !! key = Some entry ->
  (now_check env - timestamp entry < timedelta_seconds _cache_ttl)%Z ->
  cache_lookup env cache key false = Hit (data entry).
Proof.
  intros Hk Hfresh. unfold cache_lookup. simpl. rewrite Hk.
  apply Z.ltb_lt in Hfresh. rewrite Hfresh. reflexivity.
Qed.

(** On a miss the entries under the other keys are left alone, and the
    looked-up key holds no fresh entry any more. *)
Lemma cache_lookup_miss env cache key force_refresh :
  force_refresh = true
  \/ cache !! key = None
  \/ (exists entry, cache !! key = Some entry
                    /\ (timedelta_seconds _cache_ttl
                        <= now_check env - timestamp entry)%Z) ->
  exists cache',
    cache_lookup env cache key force_refresh = Miss cache'
    /\ forall k, k <> key -> cache' !! k = cache !! k.
Proof.
  unfold cache_lookup. intros [->|H].
  - exists cache. auto.
  - destruct force_refresh; simpl; [exists cache; auto|].
    destruct H as [Hk|(entry & Hk & Hold)]; rewrite Hk.
    + exists cache. auto.
    + apply Z.ltb_ge in Hold. rewrite Hold. eexists. split; [reflexivity|].
      intros k Hne. apply lookup_delete_ne. congruence.
Qed.

(** C6.  A look-up that finds an entry younger than the time-to-live, with
    [force_refresh] false, returns the stored list and leaves the engine
    as it was (no entry into the compute path).  A look-up with
    [force_refresh] true, or that finds no entry, or an entry as old as
    the time-to-live or older, enters the compute path once, and when
    that yields a list, stores it under the key with the time of the
    store and returns it; the other keys keep their entries. *)
Theorem cache_hit_and_miss hash env self user_id query user_context
    max_results :
  let key := cache_key hash user_id query max_results in
  let call := get_personalized_recommendations hash env self user_id query
                user_context max_results in
  (forall entry,
      _cache self !! key = Some entry ->
      (now_check env - timestamp entry < timedelta_seconds _cache_ttl)%Z ->
      call false = (data entry, self))
  /\ (forall force_refresh recommendations,
        force_refresh = true
        \/ _cache self !! key = None
        \/ (exists entry, _cache self !! key = Some entry
                          /\ (timedelta_seconds _cache_ttl
                              <= now_check env - timestamp entry)%Z) ->
        compute env query user_context max_results = Ok recommendations ->
        fst (call force_refresh) = recommendations
        /\ _cache (snd (call force_refresh)) !! key
           = Some {| data := recommendations; timestamp := now_store env |}
        /\ compute_calls (snd (call force_refresh)) = S (compute_calls self)
        /\ forall k, k <> key ->
             _cache (snd (call force_refresh)) !! k = _cache self !! k).
Proof.
  intros key call. split.
  - intros entry Hk Hfresh. subst call. cbv beta.
    unfold get_personalized_recommendations. fold key.
    rewrite (cache_lookup_hit env _ key entry Hk Hfresh). reflexivity.
  - intros force_refresh recommendations Hmiss Hcompute. subst call.
    cbv beta. unfold get_personalized_recommendations. fold key.
    destruct (cache_lookup_miss env (_cache self) key force_refresh Hmiss)
      as (cache' & -> & Hother).
    rewrite Hcompute. simpl. split; [reflexivity|].
    split; [apply lookup_insert_eq|]. split; [reflexivity|].
    intros k Hne. rewrite lookup_insert_ne by congruence. apply Hother, Hne.
Qed.


Lemma cache_hit_and_miss_witness :
  get_personalized_recommendations sample_hash sample_env warm_engine 1 None
    (Some sample_context) 10 false
  = (data sample_entry, warm_engine)
  /\ exists recommendations,
       compute sample_env None (Some sample_context) 10 = Ok recommendations
       /\ fst (get_personalized_recommendations sample_hash sample_env
                 warm_engine 1 None (Some sample_context) 10 true)
          = recommendations
       /\ compute_calls
            (snd (get_personalized_recommendations sample_hash sample_env
                    warm_engine 1 None (Some sample_context) 10 true))
          = 2%nat.
Proof.
  pose proof (cache_hit_and_miss sample_hash sample_env warm_engine 1 None
                (Some sample_context) 10) as [Hhit Hmiss].
  split.
  - apply Hhit; [apply lookup_singleton_eq|reflexivity].
  - set (recommendations :=
           try_except (compute sample_env None (Some sample_context) 10) []).
    assert (E : compute sample_env None (Some sample_context) 10
                = Ok recommendations) by (vm_compute; reflexivity).
    exists recommendations. split; [exact E|].
    destruct (Hmiss true recommendations) as (H1 & _ & H3 & _);
      [left; reflexivity|exact E|].
    split; [exact H1|exact H3].
Defined.

(** ** Fallback Supplier and error handling *)




Lemma In_prefix {A} n (l : list A) x : In x (firstn n l) -> In x l.
Proof.
  intros H. rewrite <- (firstn_skipn n l). apply in_or_app. left. exact H.
Qed.

Lemma StronglySorted_firstn {A} (R : A -> A -> Prop) n l :
  StronglySorted R l -> StronglySorted R (firstn n l).
Proof.
  revert n. induction l as [|x l IH]; intros [|n] Hs; simpl;
    try constructor.
  - apply IH. inversion Hs; assumption.
  - inversion Hs as [|? ? _ Hx]; subst.
    rewrite List.Forall_forall in *. intros y Hy. apply Hx.
    eapply In_prefix. exact Hy.
Qed.





(** In the embedding, response construction is the one statement of the
    compute path that can raise: it does exactly when a ranked candidate
    lacks its topics, a difficulty or a format. *)
Lemma build_responses_raises h scored :
  build_responses h scored = Raise
  <-> exists p, In p scored
                /\ (topics (h (fst p)) = None
                    \/ difficulty (h (fst p)) = None
                    \/ format (h (fst p)) = None).
Proof.
  induction scored as [|[course score] scored IH]; simpl.
  - split; [discriminate|]. intros (p & [] & _).
  - unfold response_of_course, make_response.
    destruct (topics (h course)) as [ts|] eqn:Et,
             (difficulty (h course)) as [d|] eqn:Ed,
             (format (h course)) as [f|] eqn:Ef; simpl;
      try (split; [intros _|reflexivity]; exists (course, score); simpl;
           auto).
    destruct (build_responses h scored) as [rs|] eqn:Eb; simpl.
    + split; [discriminate|]. intros (p & [<-|Hp] & H); simpl in H.
      * destruct H as [H|[H|H]]; congruence.
      * apply proj2 in IH. discriminate IH. exists p. auto.
    + split; [intros _|reflexivity].
      destruct (proj1 IH eq_refl) as (p & Hp & H). exists p. auto.
Qed.




Example vector_down_request :
  map r_id (fst (get_personalized_recommendations sample_hash
                   vector_down_env fresh_engine 1 None (Some sample_context)
                   10 true))
  = ["c2"%string]
  /\ map r_id (_get_fallback_recommendations vector_down_env 10)
     = ["c1"; "c2"]%string.
Proof. vm_compute. split; reflexivity. Qed.

(** ** Negative filtering in the vector search *)

Lemma exclude_loop_true topic_tokens title_tokens kws :
  exclude_loop topic_tokens title_tokens kws = true
  <-> exists k, In k kws
                /\ long_enough k = true
                /\ (In (normalized k) title_tokens
                    \/ In (normalized k) topic_tokens).
Proof.
  induction kws as [|k kws IH]; simpl.
  - split; [discriminate|]. intros (k & [] & _).
  - fold (normalized k).
    destruct (Nat.ltb_spec (String.length (normalized k)) 3) as [Hshort|Hlong].
    + rewrite IH. split.
      * intros (k' & Hin & H). exists k'. split; [right; exact Hin|exact H].
      * intros (k' & [<-|Hin] & Hlen & H).
        -- unfold long_enough in Hlen. apply Nat.leb_le in Hlen. lia.
        -- exists k'. auto.
    + destruct (Text.mem (normalized k) topic_tokens
                || Text.mem (normalized k) title_tokens) eqn:E.
      * split; [intros _|reflexivity]. exists k.
        split; [left; reflexivity|].
        split; [apply Nat.leb_le, Hlong|].
        apply orb_true_iff in E. rewrite !mem_In in E. tauto.
      * rewrite IH. apply orb_false_iff in E. rewrite !mem_false in E.
        split.
        -- intros (k' & Hin & H). exists k'. split; [right; exact Hin|exact H].
        -- intros (k' & [<-|Hin] & Hlen & H); [tauto|]. exists k'. auto.
Qed.

Lemma should_exclude_loop props kws :
  _should_exclude_course props kws
  = exclude_loop (topic_tags props) (title_tokens props) kws.
Proof. destruct kws; reflexivity. Qed.

(** C10.  A course is excluded exactly when some keyword whose stripped
    lower-case form has at least three characters equals one of its
    title tokens or lower-cased topic tags; keywords with a shorter form
    never matter: dropping them does not change the decision. *)
Theorem short_keywords_never_exclude props kws :
  (_should_exclude_course props kws = true
   <-> exists k, In k kws
                 /\ (3 <= String.length (Text.strip (Text.lower k)))%nat
                 /\ (In (Text.strip (Text.lower k))
                        (Text.words (Text.lower (prop_title props)))
                     \/ In (Text.strip (Text.lower k)) (topic_tags props)))
  /\ _should_exclude_course props (List.filter long_enough kws)
     = _should_exclude_course props kws.
Proof.
  split.
  - rewrite should_exclude_loop, exclude_loop_true. unfold long_enough.
    split; intros (k & Hin & Hlen & H); exists k; (split; [exact Hin|]);
      (split; [|exact H]); apply Nat.leb_le; exact Hlen.
  - rewrite !should_exclude_loop.
    induction kws as [|k kws IH]; [reflexivity|].
    simpl. unfold long_enough at 1. fold (normalized k).
    destruct (Nat.leb_spec 3 (String.length (normalized k))) as [Hlong|Hshort].
    + simpl. fold (normalized k).
      destruct (Nat.ltb_spec (String.length (normalized k)) 3); [lia|].
      rewrite IH. reflexivity.
    + destruct (Nat.ltb_spec (String.length (normalized k)) 3); [|lia].
      exact IH.
Qed.

Example exclude_ex :
  _should_exclude_course sample_props ["Statistics"]%string = true
  /\ _should_exclude_course sample_props ["r"; "ml"; " to "]%string = false
  /\ _should_exclude_course sample_props ["data"; "stat"]%string = false
  /\ _should_exclude_course sample_props ["data science"]%string = true.
Proof. vm_compute. repeat split. Qed.

(** ** Negative-Intent Extractor *)

(** *** Characters of the strings the text primitives return *)

Lemma chars_of_list P l :
  chars P (string_of_list_ascii l) <-> List.Forall P l.
Proof.
  induction l as [|c l IH]; simpl.
  - split; [constructor|exact (fun _ => I)].
  - rewrite IH. split.
    + intros [H1 H2]. constructor; assumption.
    + intros H. inversion H; subst. auto.
Qed.

Lemma chars_to_list P s :
  chars P s <-> List.Forall P (list_ascii_of_string s).
Proof.
  rewrite <- chars_of_list, string_of_list_ascii_of_string. reflexivity.
Qed.

Lemma lower_ascii_not_upper c : not_upper (Text.lower_ascii c).
Proof.
  destruct c as [b0 b1 b2 b3 b4 b5 b6 b7].
  destruct b0, b1, b2, b3, b4, b5, b6, b7; reflexivity.
Qed.

Lemma lower_not_upper s : chars not_upper (Text.lower s).
Proof.
  induction s as [|c s IH]; simpl; [exact I|].
  split; [apply lower_ascii_not_upper|exact IH].
Qed.

Lemma lower_fixed s : chars not_upper s -> Text.lower s = s.
Proof.
  induction s as [|c s IH]; simpl; [reflexivity|].
  intros [Hc Hs]. rewrite (IH Hs). unfold Text.lower_ascii.
  unfold not_upper in Hc. rewrite Hc. reflexivity.
Qed.




Lemma flush_Forall (Q : string -> Prop) cur acc :
  (cur <> [] -> Q (string_of_list_ascii (rev cur))) ->
  List.Forall Q acc -> List.Forall Q (Text.flush cur acc).
Proof.
  intros Hcur Hacc. destruct cur as [|c cur]; simpl; [exact Hacc|].
  apply Forall_app. split; [exact Hacc|]. constructor; [|constructor].
  apply Hcur. discriminate.
Qed.

Lemma chars_tokens P sep s cur acc :
  chars P s -> List.Forall P cur -> List.Forall (chars P) acc ->
  List.Forall (chars P) (Text.tokens_go sep s cur acc).
Proof.
  revert cur acc. induction s as [|c s IH]; intros cur acc Hs Hcur Hacc.
  - simpl. apply flush_Forall; [|exact Hacc].
    intros _. apply chars_of_list, List.Forall_rev, Hcur.
  - destruct Hs as [Hc Hs]. simpl. destruct (sep c).
    + apply IH; [exact Hs|constructor|].
      apply flush_Forall; [|exact Hacc].
      intros _. apply chars_of_list, List.Forall_rev, Hcur.
    + apply IH; [exact Hs|constructor; assumption|exact Hacc].
Qed.

(** *** Tokens of [split] are non-empty and free of whitespace, so the
    [strip] and the filter of the comprehension change nothing *)

Lemma split_tokens_clean s cur acc :
  List.Forall not_space cur ->
  List.Forall (fun t => t <> EmptyString /\ chars not_space t) acc ->
  List.Forall (fun t => t <> EmptyString /\ chars not_space t)
              (Text.tokens_go Text.is_space s cur acc).
Proof.
  revert cur acc. induction s as [|c s IH]; intros cur acc Hcur Hacc.
  - simpl. apply flush_Forall; [|exact Hacc]. intros Hne. split.
    + destruct (rev cur) eqn:E; [|discriminate].
      apply (f_equal (@rev ascii)) in E. rewrite rev_involutive in E.
      contradiction.
    + apply chars_of_list, List.Forall_rev, Hcur.
  - simpl. destruct (Text.is_space c) eqn:Ec.
    + apply IH; [constructor|].
      apply flush_Forall; [|exact Hacc]. intros Hne. split.
      * destruct (rev cur) eqn:E; [|discriminate].
        apply (f_equal (@rev ascii)) in E. rewrite rev_involutive in E.
        contradiction.
      * apply chars_of_list, List.Forall_rev, Hcur.
    + apply IH; [constructor; [exact Ec|exact Hcur]|exact Hacc].
Qed.

Lemma lstrip_clean t : chars not_space t -> Text.lstrip t = t.
Proof.
  destruct t as [|c t]; simpl; [reflexivity|].
  intros [Hc _]. unfold not_space in Hc. rewrite Hc. reflexivity.
Qed.

Lemma rev_string_chars P t : chars P t -> chars P (Text.rev_string t).
Proof.
  intros H. unfold Text.rev_string.
  apply chars_of_list, List.Forall_rev, chars_to_list, H.
Qed.

Lemma rev_string_involutive t : Text.rev_string (Text.rev_string t) = t.
Proof.
  unfold Text.rev_string.
  rewrite list_ascii_of_string_of_list_ascii, rev_involutive.
  apply string_of_list_ascii_of_string.
Qed.

Lemma strip_clean t : chars not_space t -> Text.strip t = t.
Proof.
  intros H. unfold Text.strip. rewrite (lstrip_clean t H).
  rewrite (lstrip_clean _ (rev_string_chars _ _ H)).
  apply rev_string_involutive.
Qed.

Lemma keywords_of_split span : keywords_of span = Text.split span.
Proof.
  unfold keywords_of, Text.split, Text.tokens.
  pose proof (split_tokens_clean span [] []
                (List.Forall_nil _) (List.Forall_nil _)) as H.
  induction H as [|t ts [Hne Ht] _ IH]; [reflexivity|].
  simpl. rewrite (strip_clean t Ht).
  destruct (String.eqb_spec t ""); [contradiction|].
  simpl. rewrite (strip_clean t Ht), IH. reflexivity.
Qed.

(** *** Where no pattern head occurs, nothing is found *)

Lemma findall_go_nil lit cls skip s :
  Text.contains lit s = false -> Regex.findall_go lit cls skip s = [].
Proof.
  revert skip. induction s as [|c s IH]; intros skip H; [reflexivity|].
  cbn [Text.contains] in H. apply orb_false_iff in H. destruct H as [Hp Hs].
  cbn [Regex.findall_go]. destruct skip as [|k]; [|apply IH, Hs].
  rewrite Hp. apply IH, Hs.
Qed.

(** A head that begins with a capital letter is never met in a
    lower-cased query: the pattern ["I don't like "] cannot match. *)
Lemma capital_head_never_matches a lit cls s :
  Text.is_upper a = true ->
  Regex.findall (String a lit) cls (Text.lower s) = [].
Proof.
  intros Ha. apply findall_go_nil.
  induction s as [|c s IH]; [reflexivity|].
  cbn [Text.lower Text.contains]. rewrite IH, orb_false_r.
  cbn [String.prefix]. destruct (ascii_dec a (Text.lower_ascii c)) as [E|_];
    [|reflexivity].
  pose proof (lower_ascii_not_upper c) as Hc. unfold not_upper in Hc.
  rewrite <- E in Hc. congruence.
Qed.

Lemma phrase_keywords_In query_lower k :
  In k (phrase_keywords query_lower)
  <-> exists pattern span,
        In pattern negative_patterns
        /\ In span (Regex.findall pattern Text.not_delim query_lower)
        /\ In k (Text.split span).
Proof.
  unfold phrase_keywords. rewrite in_flat_map. split.
  - intros (pattern & Hp & Hk). apply in_flat_map in Hk.
    destruct Hk as (span & Hs & Hk). rewrite keywords_of_split in Hk.
    exists pattern, span. auto.
  - intros (pattern & span & Hp & Hs & Hk). exists pattern.
    split; [exact Hp|]. apply in_flat_map. exists span.
    rewrite keywords_of_split. auto.
Qed.


Lemma extract_In s k :
  In k (_extract_negative_keywords s)
  <-> In k (phrase_keywords (Text.lower s))
      \/ In k (Regex.findall "not " Text.is_word (Text.lower s)).
Proof.
  unfold _extract_negative_keywords.
  rewrite <- list_elem_of_In, elem_of_remove_dups, list_elem_of_In.
  apply in_app_iff.
Qed.




(** Heads inside words are taken for negative phrases, and the engine's
    inlined extraction knows no catch-all. *)
Example extract_inside_words :
  _extract_negative_keywords "piano lessons" = ["lessons"%string]
  /\ _extract_negative_keywords "I cannot swim" = ["swim"%string]
  /\ _extract_negative_keywords "I don't like math" = []
  /\ engine_exclude_topics (Some "I do not want statistics"%string) = []
  /\ _extract_negative_keywords "I do not want statistics" = ["want"%string].
Proof. vm_compute. repeat split. Qed.

(** * Further properties of the code

    ** Sub-scores *)

Lemma index_inj x y xs i :
  Text.index x xs = Some i -> Text.index y xs = Some i -> x = y.
Proof.
  revert i. induction xs as [|z xs IH]; intros i; simpl; [discriminate|].
  destruct (String.eqb_spec x z) as [->|Hx], (String.eqb_spec y z) as [->|Hy].
  - reflexivity.
  - intros [= <-]. destruct (Text.index y xs); discriminate.
  - destruct (Text.index x xs); simpl; [|discriminate]. intros [= <-].
    discriminate.
  - destruct (Text.index x xs) as [a|] eqn:Ea; [|discriminate].
    destruct (Text.index y xs) as [b|] eqn:Eb; [|discriminate].
    simpl. intros [= <-] [= ->]. apply (IH a); reflexivity.
Qed.

Lemma lower_ascii_idem c :
  Text.lower_ascii (Text.lower_ascii c) = Text.lower_ascii c.
Proof.
  unfold Text.lower_ascii at 1.
  pose proof (lower_ascii_not_upper c) as H. unfold not_upper in H.
  rewrite H. reflexivity.
Qed.

Lemma lower_idem s : Text.lower (Text.lower s) = Text.lower s.
Proof. apply lower_fixed, lower_not_upper. Qed.

Lemma truthy_lower s :
  Text.truthy (Some (Text.lower s)) = Text.truthy (Some s).
Proof. destruct s; reflexivity. Qed.

(** The score when both difficulties are given, and when one is not. *)
Lemma difficulty_score_given c p :
  c <> EmptyString -> p <> EmptyString ->
  _calculate_difficulty_score (Some c) (Some p)
  = if String.eqb (Text.lower c) (Text.lower p) then 1.0
    else match Text.index (Text.lower c) difficulty_levels,
               Text.index (Text.lower p) difficulty_levels with
         | Some i, Some j =>
             if (Z.abs (Z.of_nat i - Z.of_nat j) =? 0)%Z then 1.0
             else if (Z.abs (Z.of_nat i - Z.of_nat j) =? 1)%Z then 0.7
             else 0.3
         | _, _ => 0.5
         end.
Proof. destruct c, p; try congruence. reflexivity. Qed.

Lemma difficulty_score_missing cd pd :
  Text.truthy cd = false \/ Text.truthy pd = false ->
  _calculate_difficulty_score cd pd = 0.5.
Proof.
  unfold _calculate_difficulty_score. intros [->| ->]; simpl;
    [rewrite orb_true_r|]; reflexivity.
Qed.

Lemma truthy_spec o :
  Text.truthy o = true <-> exists s, o = Some s /\ s <> EmptyString.
Proof.
  destruct o as [[|a s]|]; simpl; split; try discriminate.
  - intros (s & [= <-] & H). congruence.
  - intros _. eexists. split; [reflexivity|discriminate].
  - intros (s' & [= <-] & _). reflexivity.
  - intros (s & H & _). discriminate.
Qed.

Lemma difficulty_score_values cd pd :
  In (_calculate_difficulty_score cd pd) [0.3; 0.5; 0.7; 1.0].
Proof.
  destruct (Text.truthy cd) eqn:Tc; [|rewrite difficulty_score_missing; simpl; auto].
  destruct (Text.truthy pd) eqn:Tp; [|rewrite difficulty_score_missing; simpl; auto].
  apply truthy_spec in Tc, Tp.
  destruct Tc as (c & -> & Hc), Tp as (p & -> & Hp).
  rewrite difficulty_score_given by assumption.
  destruct (String.eqb _ _); [simpl; tauto|].
  destruct (Text.index _ _); [|simpl; tauto].
  destruct (Text.index _ _); [|simpl; tauto].
  destruct (_ =? 0)%Z; [simpl; tauto|].
  destruct (_ =? 1)%Z; simpl; tauto.
Qed.

(** X1.  The difficulty fit is symmetric in its two arguments, takes one
    of the four values 0.3, 0.5, 0.7, 1.0, and is 1.0 exactly when both
    difficulties are given and equal up to letter case: the branch for
    distance 0 between two tiers is never the one that answers. *)
Theorem difficulty_score_symmetric cd pd :
  _calculate_difficulty_score cd pd = _calculate_difficulty_score pd cd
  /\ In (_calculate_difficulty_score cd pd) [0.3; 0.5; 0.7; 1.0]
  /\ (_calculate_difficulty_score cd pd = 1.0
      <-> exists c p, cd = Some c /\ pd = Some p
                      /\ c <> EmptyString /\ p <> EmptyString
                      /\ Text.lower c = Text.lower p).
Proof.
  split; [|split; [apply difficulty_score_values|]].
  - destruct (Text.truthy cd) eqn:Tc;
      [|rewrite !difficulty_score_missing; auto].
    destruct (Text.truthy pd) eqn:Tp;
      [|rewrite !difficulty_score_missing; auto].
    apply truthy_spec in Tc, Tp.
    destruct Tc as (c & -> & Hc), Tp as (p & -> & Hp).
    rewrite !difficulty_score_given by assumption.
    rewrite (String.eqb_sym (Text.lower p) (Text.lower c)).
    destruct (String.eqb _ _); [reflexivity|].
    destruct (Text.index (Text.lower c) _) as [i|],
             (Text.index (Text.lower p) _) as [j|]; try reflexivity.
    replace (Z.abs (Z.of_nat j - Z.of_nat i))
      with (Z.abs (Z.of_nat i - Z.of_nat j)) by lia.
    reflexivity.
  - split.
    + intros H1.
      destruct (Text.truthy cd) eqn:Tc;
        [|rewrite difficulty_score_missing in H1 by auto; discriminate H1].
      destruct (Text.truthy pd) eqn:Tp;
        [|rewrite difficulty_score_missing in H1 by auto; discriminate H1].
      apply truthy_spec in Tc, Tp.
      destruct Tc as (c & -> & Hc), Tp as (p & -> & Hp).
      exists c, p. repeat split; try assumption.
      rewrite difficulty_score_given in H1 by assumption.
      destruct (String.eqb_spec (Text.lower c) (Text.lower p)) as [E|NE];
        [exact E|].
      destruct (Text.index (Text.lower c) _) as [i|] eqn:Ei;
        [|discriminate H1].
      destruct (Text.index (Text.lower p) _) as [j|] eqn:Ej;
        [|discriminate H1].
      destruct (Z.eqb_spec (Z.abs (Z.of_nat i - Z.of_nat j)) 0) as [E0|_].
      * assert (i = j) by lia. subst j. eapply index_inj; eassumption.
      * destruct (_ =? 1)%Z; discriminate H1.
    + intros (c & p & -> & -> & Hc & Hp & E).
      rewrite difficulty_score_given by assumption.
      rewrite E, String.eqb_refl. reflexivity.
Qed.

(** X2.  Both fits read their arguments up to letter case only. *)
Theorem fit_scores_ignore_case a a' b b' :
  Text.lower a = Text.lower a' -> Text.lower b = Text.lower b' ->
  _calculate_difficulty_score (Some a) (Some b)
  = _calculate_difficulty_score (Some a') (Some b')
  /\ _calculate_learning_style_score (Some a) (Some b)
     = _calculate_learning_style_score (Some a') (Some b').
Proof.
  intros Ea Eb.
  assert (Ta : Text.truthy (Some a) = Text.truthy (Some a'))
    by (rewrite <- (truthy_lower a), <- (truthy_lower a'), Ea; reflexivity).
  assert (Tb : Text.truthy (Some b) = Text.truthy (Some b'))
    by (rewrite <- (truthy_lower b), <- (truthy_lower b'), Eb; reflexivity).
  unfold _calculate_difficulty_score, _calculate_learning_style_score.
  simpl default. rewrite Ta, Tb, Ea, Eb. split; reflexivity.
Qed.

Lemma fit_scores_ignore_case_witness :
  _calculate_difficulty_score (Some "Beginner"%string) (Some "ADVANCED"%string)
  = _calculate_difficulty_score (Some "beginner"%string) (Some "advanced"%string)
  /\ _calculate_learning_style_score (Some "Video"%string) (Some "Visual"%string)
     = _calculate_learning_style_score (Some "video"%string) (Some "visual"%string).
Proof.
  split.
  - apply (fit_scores_ignore_case "Beginner" "beginner" "ADVANCED" "advanced");
      reflexivity.
  - apply (fit_scores_ignore_case "Video" "video" "Visual" "visual");
      reflexivity.
Defined.



Lemma topic_score_bounds ct pt pos : 0 <= _calculate_topic_score ct pt pos <= 1.
Proof.
  destruct ct as [|t ts]; [simpl; split; discriminate|].
  rewrite topic_score_closed_form by discriminate. split.
  - apply Q.min_glb; [|discriminate].
    apply Qle_shift_div_l; [apply Q_of_nat_pos; simpl; lia|].
    rewrite Qmult_0_l. apply topic_total_nonneg.
  - apply Q.le_min_r.
Qed.

Lemma Q_of_nat_S n : Q_of_nat (S n) == Q_of_nat n + 1.
Proof.
  unfold Q_of_nat. rewrite Nat2Z.inj_succ, <- Z.add_1_r, inject_Z_plus.
  reflexivity.
Qed.

(** Course topics are either matches of a preferred topic or new. *)
Lemma new_plus_matched pt ct :
  Q_of_nat (length (List.filter
                      (fun t => negb (Text.mem (Text.lower t)
                                               (map Text.lower pt))) ct))
  + Qsum (map (preferred_hit pt) ct)
  == Q_of_nat (length ct).
Proof.
  induction ct as [|t ct IH]; [reflexivity|].
  cbn [List.filter map Qsum length]. unfold preferred_hit at 1.
  destruct (Text.mem (Text.lower t) (map Text.lower pt)); cbn [negb length];
    rewrite !Q_of_nat_S; rewrite <- IH; ring.
Qed.

Lemma diversity_score_nonempty ct pt :
  ct <> [] -> pt <> [] ->
  _calculate_diversity_score ct pt
  == 0.5 * (1 - Qsum (map (preferred_hit pt) ct) / Q_of_nat (length ct)).
Proof.
  intros Hc Hp. destruct ct as [|t ct]; [congruence|].
  destruct pt as [|p pt]; [congruence|].
  set (cts := t :: ct). set (pts := p :: pt).
  change (_calculate_diversity_score cts pts)
    with (Q_of_nat (length (List.filter
                              (fun t => negb (Text.mem (Text.lower t)
                                                       (map Text.lower pts)))
                              cts))
          / Q_of_nat (length cts) * 0.5).
  pose proof (new_plus_matched pts cts) as H.
  assert (Hn : ~ Q_of_nat (length cts) == 0).
  { intros E. pose proof (Q_of_nat_pos (length cts)) as Hpos.
    rewrite E in Hpos. apply (Qlt_irrefl 0), Hpos. simpl. lia. }
  revert H Hn.
  generalize (Q_of_nat (length (List.filter
                                  (fun t => negb (Text.mem (Text.lower t)
                                                           (map Text.lower pts)))
                                  cts))).
  generalize (Qsum (map (preferred_hit pts) cts)).
  generalize (Q_of_nat (length cts)).
  intros L S N H Hn. assert (ES : S == L - N) by lra.
  rewrite ES. field. exact Hn.
Qed.

(** X3.  The diversity bonus lies between 0 and 0.5; it is 0.2 when the
    course has no topic or the user no preferred topic, and otherwise it
    is half the share of course topics that match no preferred topic, so
    that it falls as the preferred matches counted by the topic score
    rise. *)
Theorem diversity_score_complements_matches ct pt :
  0 <= _calculate_diversity_score ct pt <= 0.5
  /\ (ct = [] \/ pt = [] -> _calculate_diversity_score ct pt = 0.2)
  /\ (ct <> [] -> pt <> [] ->
      _calculate_diversity_score ct pt
      == 0.5 * (1 - Qsum (map (preferred_hit pt) ct) / Q_of_nat (length ct))).
Proof.
  assert (Hempty : ct = [] \/ pt = [] -> _calculate_diversity_score ct pt = 0.2).
  { intros [->| ->]; [reflexivity|]. destruct ct; reflexivity. }
  split; [|split; [exact Hempty|apply diversity_score_nonempty]].
  destruct ct as [|t ct]; [rewrite Hempty by auto; split; discriminate|].
  destruct pt as [|p pt]; [rewrite Hempty by auto; split; discriminate|].
  rewrite diversity_score_nonempty by discriminate.
  set (cts := t :: ct). set (pts := p :: pt).
  pose proof (new_plus_matched pts cts) as H.
  pose proof (Q_of_nat_nonneg
                (length (List.filter
                           (fun t => negb (Text.mem (Text.lower t)
                                                    (map Text.lower pts)))
                           cts))) as Hnew.
  pose proof (Qsum_nonneg (preferred_hit pts) cts
                (fun t => proj1 (preferred_hit_bounds pts t))) as Hm.
  assert (Hpos : 0 < Q_of_nat (length cts))
    by (apply Q_of_nat_pos; simpl; lia).
  assert (Hfrac : 0 <= Qsum (map (preferred_hit pts) cts)
                       / Q_of_nat (length cts) <= 1).
  { split.
    - apply Qle_shift_div_l; [exact Hpos|]. rewrite Qmult_0_l. exact Hm.
    - apply Qle_shift_div_r; [exact Hpos|]. rewrite Qmult_1_l. lra. }
  lra.
Qed.

Lemma diversity_score_complements_matches_witness :
  _calculate_diversity_score ["Python"; "SQL"] ["python"]
  == 0.5 * (1 - Qsum (map (preferred_hit ["python"]) ["Python"; "SQL"])
                / Q_of_nat (length ["Python"; "SQL"]%string)).
Proof.
  apply (proj2 (proj2 (diversity_score_complements_matches
                         ["Python"; "SQL"] ["python"]))); discriminate.
Defined.

Lemma diversity_score_bounds ct pt :
  0 <= _calculate_diversity_score ct pt <= 0.5.
Proof.
  destruct ct as [|t ct]; [simpl; split; discriminate|].
  destruct pt as [|p pt]; [simpl; split; discriminate|].
  rewrite diversity_score_nonempty by discriminate.
  set (cts := t :: ct). set (pts := p :: pt).
  pose proof (new_plus_matched pts cts) as H.
  pose proof (Q_of_nat_nonneg
                (length (List.filter
                           (fun t => negb (Text.mem (Text.lower t)
                                                    (map Text.lower pts)))
                           cts))) as Hnew.
  pose proof (Qsum_nonneg (preferred_hit pts) cts
                (fun t => proj1 (preferred_hit_bounds pts t))) as Hm.
  assert (Hpos : 0 < Q_of_nat (length cts))
    by (apply Q_of_nat_pos; simpl; lia).
  assert (Hfrac : 0 <= Qsum (map (preferred_hit pts) cts)
                       / Q_of_nat (length cts) <= 1).
  { split.
    - apply Qle_shift_div_l; [exact Hpos|]. rewrite Qmult_0_l. exact Hm.
    - apply Qle_shift_div_r; [exact Hpos|]. rewrite Qmult_1_l. lra. }
  lra.
Qed.





(** ** Positive topics *)

Lemma positive_loop_acc env fbs acc :
  positive_loop env fbs acc
  = match positive_loop env fbs [] with
    | Ok ts => Ok (acc ++ ts)
    | Raise => Raise
    end.
Proof.
  revert acc. induction fbs as [|fb fbs IH]; intros acc; simpl.
  - rewrite app_nil_r. reflexivity.
  - destruct ((4 <=? fb_rating fb)%Z && Text.truthy (fb_course_id fb));
      [|apply IH].
    destruct (select_topics env _) as [course|]; simpl; [|reflexivity].
    rewrite IH, (IH (default [] course)).
    destruct (positive_loop env fbs []); [|reflexivity].
    rewrite app_assoc. reflexivity.
Qed.

Lemma positive_loop_cons env fb fbs :
  positive_loop env (fb :: fbs) []
  = if is_positive fb then
      match select_topics env (default EmptyString (fb_course_id fb)) with
      | Ok course =>
          match positive_loop env fbs [] with
          | Ok ts => Ok (default [] course ++ ts)
          | Raise => Raise
          end
      | Raise => Raise
      end
    else positive_loop env fbs [].
Proof.
  simpl. fold (is_positive fb). destruct (is_positive fb); [|reflexivity].
  destruct (select_topics env _) as [course|]; simpl; [|reflexivity].
  apply positive_loop_acc.
Qed.

(** X5.  The positive topics are read from the entries of the recent
    feedback rated 4 or more that name a course, and from no other: the
    call raises exactly when the look-up of one of them raises, and
    otherwise returns the topics of their courses, in feedback order and
    with repetitions; without such an entry it returns no topic and asks
    the database nothing. *)
Theorem positive_topics_from_positive_feedback env uc :
  let feedback := default [] (recent_feedback uc) in
  (_extract_positive_topic_patterns env uc = Raise
   <-> exists fb, In fb feedback /\ is_positive fb = true
                  /\ select_topics env (default EmptyString (fb_course_id fb))
                     = Raise)
  /\ (forall positive_topics,
        _extract_positive_topic_patterns env uc = Ok positive_topics ->
        positive_topics = flat_map (feedback_topics env) feedback)
  /\ ((forall fb, In fb feedback -> is_positive fb = false) ->
      forall env', _extract_positive_topic_patterns env' uc = Ok []).
Proof.
  intros feedback. unfold _extract_positive_topic_patterns. fold feedback.
  generalize feedback. clear feedback. intros fbs. split; [|split].
  - induction fbs as [|fb fbs IH].
    + simpl. split; [discriminate|]. intros (fb & [] & _).
    + rewrite positive_loop_cons. destruct (is_positive fb) eqn:Ep.
      * destruct (select_topics env _) as [course|] eqn:Es.
        -- destruct (positive_loop env fbs []) as [ts|] eqn:El.
           ++ split; [discriminate|].
              intros (fb' & [<-|Hin] & Hp & Hr); [congruence|].
              apply proj2 in IH. discriminate IH. exists fb'. auto.
           ++ split; [intros _|reflexivity].
              destruct (proj1 IH eq_refl) as (fb' & Hin & H).
              exists fb'. split; [right; exact Hin|exact H].
        -- split; [intros _|reflexivity]. exists fb.
           split; [left; reflexivity|]. auto.
      * rewrite IH. split.
        -- intros (fb' & Hin & H). exists fb'. split; [right; exact Hin|exact H].
        -- intros (fb' & [<-|Hin] & Hp & Hr); [congruence|]. exists fb'. auto.
  - induction fbs as [|fb fbs IH]; intros pos.
    + intros [= <-]. reflexivity.
    + rewrite positive_loop_cons. cbn [flat_map]. unfold feedback_topics at 1.
      destruct (is_positive fb).
      * destruct (select_topics env _) as [course|]; [|discriminate].
        destruct (positive_loop env fbs []) as [ts|]; [|discriminate].
        intros [= <-]. rewrite (IH ts eq_refl).
        destruct course; reflexivity.
      * apply IH.
  - intros Hnone env'. induction fbs as [|fb fbs IH]; [reflexivity|].
    rewrite positive_loop_cons, (Hnone fb) by (left; reflexivity).
    apply IH. intros fb' Hin. apply Hnone. right. exact Hin.
Qed.

Lemma positive_topics_from_positive_feedback_witness :
  _extract_positive_topic_patterns vector_down_env
    {| preferences := None;
       recent_feedback :=
         Some [{| fb_course_id := Some "c1"%string; fb_rating := 3 |};
               {| fb_course_id := None; fb_rating := 5 |}] |}
  = Ok [].
Proof.
  apply (proj2 (proj2 (positive_topics_from_positive_feedback sample_env
           {| preferences := None;
              recent_feedback :=
                Some [{| fb_course_id := Some "c1"%string; fb_rating := 3 |};
                      {| fb_course_id := None; fb_rating := 5 |}] |}))).
  intros fb [<-|[<-|[]]]; reflexivity.
Defined.

(** ** Candidate Fusion on arbitrary lists *)

Lemma od_sets_In h vs d k l :
  In (k, l) (od_sets h vs d) -> In (k, l) d \/ (In l vs /\ k = id (h l)).
Proof.
  revert d. induction vs as [|a vs IH]; intros d H; [left; exact H|].
  rewrite od_sets_cons in H. apply IH in H. destruct H as [H|[H1 H2]].
  - apply od_set_In in H. destruct H as [H|[= -> ->]]; [left; exact H|].
    right. split; [left; reflexivity|reflexivity].
  - right. split; [right; exact H1|exact H2].
Qed.

Lemma keys_In d k : In k (keys d) <-> exists l, In (k, l) d.
Proof.
  unfold keys. rewrite in_map_iff. split.
  - intros ([k' l] & <- & H). exists l. exact H.
  - intros (l & H). exists (k, l). auto.
Qed.

Lemma content_kept_covers h seen cs l :
  In l cs ->
  In (id (h l)) seen \/ In (id (h l)) (ids h (content_kept h seen cs)).
Proof.
  revert seen. induction cs as [|a cs IH]; intros seen Hl; [destruct Hl|].
  simpl. destruct (Text.mem (id (h a)) seen) eqn:E.
  - destruct Hl as [->|Hl]; [left; apply mem_In, E|apply IH, Hl].
  - rewrite ids_cons. destruct Hl as [->|Hl]; [right; left; reflexivity|].
    destruct (IH (seen ++ [id (h a)]) Hl) as [H|H].
    + apply in_app_or in H. destruct H as [H|[<-|[]]]; [left; exact H|].
      right. left. reflexivity.
    + right. right. exact H.
Qed.

(** The parts of a fusion result, for arbitrary lists. *)
Lemma combine_parts h vs cs :
  exists d kept,
    _combine_recommendations h vs cs
    = (tag_all Content kept (tag_all Vector vs h), map snd d ++ kept)
    /\ d = od_sets h vs []
    /\ kept = content_kept h (keys d) cs
    /\ keyed_by_id h d
    /\ (forall l, In l (map snd d) -> In l vs)
    /\ (forall l, In l kept -> In l cs /\ ~ In (id (h l)) (keys d))
    /\ (forall l, In l vs -> In (id (h l)) (keys d)).
Proof.
  exists (od_sets h vs []), (content_kept h (keys (od_sets h vs [])) cs).
  split; [apply combine_closed_form|]. split; [reflexivity|].
  split; [reflexivity|].
  split; [apply od_sets_keyed; intros k l []|].
  split.
  - intros l Hl. apply od_sets_values_In in Hl. destruct Hl as [[]|Hl].
    exact Hl.
  - split; [intros l; apply content_kept_In|].
    intros l; apply od_sets_keys_ids.
Qed.

(** X6.  Whatever the two lists, repeated identifiers included, the
    fusion result lists no identifier twice, and its identifiers are
    exactly those of the two lists: none is lost and none is added. *)
Theorem fusion_ids_are_the_union h vs cs :
  let r := _combine_recommendations h vs cs in
  List.NoDup (ids (fst r) (snd r))
  /\ forall k, In k (ids (fst r) (snd r))
               <-> In k (ids h vs) \/ In k (ids h cs).
Proof.
  intros r. split; [apply combine_ids_NoDup|].
  subst r. destruct (combine_parts h vs cs)
    as (d & kept & -> & Hd & Hk & Hkeyed & Hvals & Hkept & Hcov).
  cbn [fst snd]. intros k.
  rewrite (ids_ext _ h) by (intros l; rewrite !id_tag_all; reflexivity).
  rewrite ids_app, (keyed_ids h d Hkeyed), in_app_iff. split.
  - intros [H|H].
    + left. apply keys_In in H. destruct H as (l & H).
      rewrite (Hkeyed k l H). apply In_ids, Hvals.
      apply in_map_iff. exists (k, l). auto.
    + right. unfold ids in H. apply in_map_iff in H.
      destruct H as (l & <- & Hl). apply In_ids, Hkept, Hl.
  - intros [H|H].
    + left. unfold ids in H. apply in_map_iff in H.
      destruct H as (l & <- & Hl). apply Hcov, Hl.
    + unfold ids in H. apply in_map_iff in H. destruct H as (l & <- & Hl).
      rewrite Hk. apply content_kept_covers, Hl.
Qed.

(** X7.  The fusion writes nothing but provenance: every object of the
    store keeps all its other fields, an object of neither list is left
    as it was, and every returned object carries a tag, [Vector] when it
    is one of the vector list and [Content] otherwise, in which case it
    is one of the content list. *)
Theorem fusion_writes_only_provenance h vs cs :
  let r := _combine_recommendations h vs cs in
  (forall l, same_but_source (fst r l) (h l))
  /\ (forall l, ~ In l vs -> ~ In l cs -> fst r l = h l)
  /\ (forall l, In l (snd r) ->
        (In l vs /\ source (fst r l) = Some Vector)
        \/ (~ In l vs /\ In l cs /\ source (fst r l) = Some Content)).
Proof.
  intros r. subst r. destruct (combine_parts h vs cs)
    as (d & kept & -> & Hd & Hk & Hkeyed & Hvals & Hkept & Hcov).
  cbn [fst snd].
  assert (Hdisj : forall l, In l kept -> ~ In l vs).
  { intros l Hl Hv. apply (proj2 (Hkept l Hl)), Hcov, Hv. }
  assert (Hstore : forall l,
             tag_all Content kept (tag_all Vector vs h) l
             = if in_dec Nat.eq_dec l kept then set_source Content (h l)
               else if in_dec Nat.eq_dec l vs then set_source Vector (h l)
                    else h l).
  { intros l. destruct (in_dec Nat.eq_dec l kept) as [Hl|Hl].
    - rewrite tag_all_in by exact Hl.
      rewrite tag_all_notin by (apply Hdisj, Hl). reflexivity.
    - rewrite tag_all_notin by exact Hl.
      destruct (in_dec Nat.eq_dec l vs) as [Hv|Hv];
        [apply tag_all_in, Hv|apply tag_all_notin, Hv]. }
  split; [|split].
  - intros l. rewrite Hstore. unfold same_but_source.
    destruct (in_dec Nat.eq_dec l kept); [reflexivity|].
    destruct (in_dec Nat.eq_dec l vs); reflexivity.
  - intros l Hv Hc. rewrite Hstore.
    destruct (in_dec Nat.eq_dec l kept) as [Hl|_];
      [exfalso; apply Hc, Hkept, Hl|].
    destruct (in_dec Nat.eq_dec l vs); [contradiction|reflexivity].
  - intros l Hl. rewrite Hstore. apply in_app_or in Hl.
    destruct (in_dec Nat.eq_dec l kept) as [Hkl|Hkl].
    + right. split; [apply Hdisj, Hkl|]. split; [apply Hkept, Hkl|reflexivity].
    + destruct Hl as [Hl|Hl]; [|contradiction]. apply Hvals in Hl.
      left. split; [exact Hl|].
      destruct (in_dec Nat.eq_dec l vs); [reflexivity|contradiction].
Qed.

Lemma content_kept_skip h seen ls cs :
  (forall l, In l ls -> In (id (h l)) seen) ->
  content_kept h seen (ls ++ cs) = content_kept h seen cs.
Proof.
  induction ls as [|a ls IH]; intros Hall; [reflexivity|].
  simpl. assert (E : Text.mem (id (h a)) seen = true)
    by (apply mem_In, Hall; left; reflexivity).
  rewrite E. apply IH. intros l Hl. apply Hall. right. exact Hl.
Qed.

Lemma content_kept_all h seen cs :
  List.NoDup (seen ++ ids h cs) -> content_kept h seen cs = cs.
Proof.
  revert seen. induction cs as [|a cs IH]; intros seen Hnd; [reflexivity|].
  simpl. rewrite ids_cons in Hnd.
  assert (Ha : ~ In (id (h a)) seen).
  { intros H. apply NoDup_remove_2 in Hnd. apply Hnd.
    apply in_or_app. left. exact H. }
  apply mem_false in Ha. rewrite Ha. f_equal. apply IH.
  rewrite <- app_assoc. exact Hnd.
Qed.

(** X8.  Fusing the vector list again with an earlier result as content
    list changes nothing: the same objects are returned in the same
    order and every object of the store is as the first fusion left
    it. *)
Theorem fusion_stable_as_content h vs cs :
  let r1 := _combine_recommendations h vs cs in
  let r2 := _combine_recommendations (fst r1) vs (snd r1) in
  snd r2 = snd r1 /\ forall l, fst r2 l = fst r1 l.
Proof.
  intros r1 r2.
  assert (Hnd : List.NoDup (ids (fst r1) (snd r1)))
    by apply combine_ids_NoDup.
  subst r2. revert Hnd. subst r1.
  destruct (combine_parts h vs cs)
    as (d & kept & E1 & Hd & Hk & Hkeyed & Hvals & Hkept & Hcov).
  rewrite E1. cbn [fst snd]. set (h1 := tag_all Content kept (tag_all Vector vs h)).
  assert (Hid : forall l, id (h1 l) = id (h l))
    by (intros l; subst h1; rewrite !id_tag_all; reflexivity).
  intros Hnd. rewrite (ids_ext _ h _ Hid), ids_app, (keyed_ids h d Hkeyed) in Hnd.
  rewrite combine_closed_form.
  rewrite (od_sets_ext h1 h vs [] Hid), <- Hd.
  rewrite (content_kept_ext h1 h _ _ Hid).
  rewrite content_kept_skip.
  2:{ intros l Hl. apply in_map_iff in Hl. destruct Hl as ([k l'] & <- & Hin).
      simpl. rewrite <- (Hkeyed k l' Hin). apply keys_In. exists l'. exact Hin. }
  rewrite (content_kept_all h (keys d) kept Hnd).
  cbn [fst snd]. split; [reflexivity|].
  assert (Hdisj : forall l, In l kept -> ~ In l vs).
  { intros l Hl Hv. apply (proj2 (Hkept l Hl)), Hcov, Hv. }
  intros l. destruct (in_dec Nat.eq_dec l kept) as [Hl|Hl].
  - rewrite tag_all_in by exact Hl.
    rewrite tag_all_notin by (apply Hdisj, Hl).
    subst h1. rewrite tag_all_in by exact Hl. reflexivity.
  - rewrite tag_all_notin by exact Hl.
    destruct (in_dec Nat.eq_dec l vs) as [Hv|Hv].
    + rewrite tag_all_in by exact Hv. subst h1.
      rewrite tag_all_notin by exact Hl. rewrite tag_all_in by exact Hv.
      reflexivity.
    + rewrite tag_all_notin by exact Hv. reflexivity.
Qed.

(** ** The compute path *)

Lemma round_half_even_range q :
  round_half_even q = Qfloor q \/ round_half_even q = (Qfloor q + 1)%Z.
Proof.
  unfold round_half_even. destruct (Qcompare _ _); auto.
  destruct (Z.even _); auto.
Qed.

Lemma round_half_even_mono x y : x <= y -> (round_half_even x <= round_half_even y)%Z.
Proof.
  intros Hxy. pose proof (Qfloor_resp_le x y Hxy) as Hf.
  destruct (Z.eq_dec (Qfloor x) (Qfloor y)) as [E|NE].
  - unfold round_half_even. rewrite <- E.
    destruct (Qcompare_spec (x - inject_Z (Qfloor x)) (1 # 2)) as [Ex|Lx|Gx],
             (Qcompare_spec (y - inject_Z (Qfloor x)) (1 # 2)) as [Ey|Ly|Gy];
      try destruct (Z.even (Qfloor x)); try lia; exfalso; lra.
  - destruct (round_half_even_range x) as [-> | ->],
             (round_half_even_range y) as [-> | ->]; lia.
Qed.

Lemma round3_mono x y : x <= y -> round3 x <= round3 y.
Proof.
  intros Hxy. unfold round3. apply Qdiv_le_mono; [reflexivity|].
  rewrite <- Zle_Qle. apply round_half_even_mono. lra.
Qed.

Lemma score_courses_fst env h courses user_context :
  map fst (_score_courses env h courses user_context) = courses.
Proof.
  unfold _score_courses, try_except.
  destruct user_context as [uc|]; simpl.
  - destruct (_extract_positive_topic_patterns env uc); simpl;
      rewrite map_map; simpl; apply map_id.
  - rewrite map_map. simpl. apply map_id.
Qed.

Lemma build_responses_Forall2 h scored recs :
  build_responses h scored = Ok recs ->
  Forall2 (fun p r => response_for (h (fst p)) (snd p) r) scored recs.
Proof.
  revert recs. induction scored as [|[l s] scored IH]; intros recs; simpl.
  - intros [= <-]. constructor.
  - destruct (response_of_course (h l)) as [r0|] eqn:E0; [|discriminate].
    simpl. destruct (build_responses h scored) as [rs|]; [|discriminate].
    simpl. intros [= <-]. constructor; [|apply IH; reflexivity].
    exists r0. auto.
Qed.

Lemma response_for_fields c s r :
  response_for c s r ->
  r_id r = id c /\ similarity_score r = Some (round3 s)
  /\ r_title r = title c /\ r_rating r = rating c
  /\ Some (r_topics r) = topics c.
Proof.
  intros (r0 & E & ->). unfold response_of_course, make_response in E.
  destruct (topics c), (difficulty c), (format c); try discriminate.
  injection E as <-. simpl. auto.
Qed.

Lemma response_for_source c c' s r :
  same_but_source c c' -> response_for c s r -> response_for c' s r.
Proof.
  intros Hs (r0 & E & ->). exists r0. split; [|reflexivity].
  unfold same_but_source in Hs. rewrite <- E.
  change (response_of_course c') with (response_of_course (set_source Vector c')).
  rewrite <- Hs. reflexivity.
Qed.

Lemma slice_to_prefix {A} n (xs : list A) :
  exists k, slice_to n xs = firstn k xs
            /\ ((0 <= n)%Z -> (Z.of_nat (length (slice_to n xs)) <= n)%Z).
Proof.
  unfold slice_to. destruct (Z.ltb_spec n 0).
  - eexists. split; [reflexivity|lia].
  - eexists. split; [reflexivity|]. intros _. rewrite length_firstn. lia.
Qed.

Lemma NoDup_firstn {A} k (xs : list A) :
  List.NoDup xs -> List.NoDup (firstn k xs).
Proof.
  intros H. rewrite <- (firstn_skipn k xs) in H.
  apply NoDup_app_remove_r in H. exact H.
Qed.

Lemma tag_all_same s ls h l : same_but_source (tag_all s ls h l) (h l).
Proof.
  unfold same_but_source. destruct (in_dec Nat.eq_dec l ls) as [Hl|Hl].
  - rewrite tag_all_in by exact Hl. reflexivity.
  - rewrite tag_all_notin by exact Hl. reflexivity.
Qed.

(** The store the fusion leaves, object by object. *)
Lemma combine_store h vs cs l :
  same_but_source (fst (_combine_recommendations h vs cs) l) (h l).
Proof.
  rewrite combine_closed_form. cbn [fst]. unfold same_but_source.
  rewrite (tag_all_same Content _ (tag_all Vector vs h) l).
  apply tag_all_same.
Qed.

Lemma combine_members h vs cs l :
  In l (snd (_combine_recommendations h vs cs)) -> In l vs \/ In l cs.
Proof.
  destruct (combine_parts h vs cs)
    as (d & kept & -> & _ & _ & _ & Hvals & Hkept & _).
  cbn [snd]. intros H. apply in_app_or in H. destruct H as [H|H].
  - left. apply Hvals, H.
  - right. apply Hkept, H.
Qed.

(** What a successful run of the compute path is made of. *)
Lemma compute_anatomy env query user_context max_results recs :
  compute env query user_context max_results = Ok recs ->
  exists h ranked k,
    build_responses h (firstn k ranked) = Ok recs
    /\ ((0 <= max_results)%Z ->
        (Z.of_nat (length (firstn k ranked)) <= max_results)%Z)
    /\ StronglySorted score_ge ranked
    /\ List.NoDup (ids h (map fst ranked))
    /\ forall l, In l (map fst ranked) ->
         exists c,
           In c (_get_vector_recommendations env query user_context
                 ++ _get_content_based_recommendations env)
           /\ same_but_source (h l) c.
Proof.
  unfold compute.
  set (vc := _get_vector_recommendations env query user_context).
  set (cc := _get_content_based_recommendations env).
  set (h0 := store_of (vc ++ cc)).
  set (vrefs := seq 0 (length vc)). set (crefs := seq (length vc) (length cc)).
  pose proof (combine_ids_NoDup h0 vrefs crefs) as Hnd.
  pose proof (fun l => combine_store h0 vrefs crefs l) as Hstore.
  pose proof (fun l => combine_members h0 vrefs crefs l) as Hmem.
  destruct (_combine_recommendations h0 vrefs crefs) as [h combined].
  cbn [fst snd] in *.
  set (scored := _score_courses env h combined user_context).
  intros Hb.
  destruct (slice_to_prefix max_results (sort_desc scored)) as (k & Ek & Hlen).
  rewrite Ek in Hb, Hlen.
  exists h, (sort_desc scored), k.
  assert (Hperm : Permutation combined (map fst (sort_desc scored))).
  { rewrite <- (score_courses_fst env h combined user_context).
    apply Permutation_map, sort_desc_perm. }
  split; [exact Hb|]. split; [exact Hlen|].
  split; [apply sort_desc_sorted|]. split.
  - unfold ids. eapply Permutation_NoDup; [|exact Hnd].
    apply Permutation_map, Hperm.
  - intros l Hl. apply (Permutation_in _ (Permutation_sym Hperm)) in Hl.
    exists (h0 l). split; [|apply Hstore].
    assert (Hlt : (l < length (vc ++ cc))%nat).
    { rewrite length_app. destruct (Hmem l Hl) as [H|H];
        apply in_seq in H; lia. }
    subst h0. unfold store_of. apply nth_In, Hlt.
Qed.

(** X9.  A list returned by the compute path has at most [max_results]
    entries when [max_results] is not negative, names no course twice,
    and is ranked: the similarity scores, each the raw score rounded to
    three decimals, never increase along the list. *)
Theorem compute_bounded_distinct_ranked env query user_context max_results recs :
  compute env query user_context max_results = Ok recs ->
  ((0 <= max_results)%Z -> (Z.of_nat (length recs) <= max_results)%Z)
  /\ List.NoDup (map r_id recs)
  /\ StronglySorted sim_ge recs.
Proof.
  intros Hc. destruct (compute_anatomy _ _ _ _ _ Hc)
    as (h & ranked & k & Hb & Hlen & Hsorted & Hnd & _).
  apply build_responses_Forall2 in Hb.
  assert (Hl : length recs = length (firstn k ranked))
    by (clear -Hb; induction Hb; simpl; congruence).
  split; [intros Hn; rewrite Hl; apply Hlen, Hn|]. split.
  - assert (E : map r_id recs = firstn k (ids h (map fst ranked))).
    { unfold ids. rewrite !firstn_map. clear -Hb.
      induction Hb as [|p r ps rs Hr _ IH]; [reflexivity|].
      simpl. rewrite IH. f_equal. apply (response_for_fields _ _ _ Hr). }
    rewrite E. apply NoDup_firstn, Hnd.
  - apply (StronglySorted_firstn score_ge k) in Hsorted.
    clear -Hb Hsorted. induction Hb as [|p r ps rs Hr Hrest IH];
      [constructor|].
    inversion Hsorted as [|? ? Hs Hp]; subst. constructor; [apply IH, Hs|].
    destruct (response_for_fields _ _ _ Hr) as (_ & Er & _).
    clear -Hrest Hp Er. induction Hrest as [|q r' qs rs' Hr' _ IH];
      [constructor|].
    inversion Hp as [|? ? Hq Hp']; subst. constructor; [|apply IH, Hp'].
    destruct (response_for_fields _ _ _ Hr') as (_ & Er' & _).
    exists (round3 (snd p)), (round3 (snd q)).
    split; [exact Er|]. split; [exact Er'|]. apply round3_mono, Hq.
Qed.

Lemma compute_bounded_distinct_ranked_witness :
  exists recs,
    compute sample_env None (Some sample_context) 10 = Ok recs
    /\ (Z.of_nat (length recs) <= 10)%Z
    /\ List.NoDup (map r_id recs).
Proof.
  set (recs := try_except (compute sample_env None (Some sample_context) 10) []).
  assert (E : compute sample_env None (Some sample_context) 10 = Ok recs)
    by (vm_compute; reflexivity).
  exists recs. split; [exact E|].
  destruct (compute_bounded_distinct_ranked _ _ _ _ _ E) as (H1 & H2 & _).
  split; [apply H1; lia|exact H2].
Defined.

(** X10.  Every entry of a list returned by the compute path is built
    from a candidate that one of the two retrieval stages returned, its
    fields copied and its similarity score the rounded raw score: the
    path recommends nothing that was not retrieved. *)
Theorem compute_returns_retrieved_candidates env query user_context
    max_results recs :
  compute env query user_context max_results = Ok recs ->
  List.Forall
    (fun r => exists c score,
                In c (_get_vector_recommendations env query user_context
                      ++ _get_content_based_recommendations env)
                /\ response_for c score r)
    recs.
Proof.
  intros Hc. destruct (compute_anatomy _ _ _ _ _ Hc)
    as (h & ranked & k & Hb & _ & _ & _ & Hfrom).
  clear Hc. apply build_responses_Forall2 in Hb.
  assert (Hin : forall p, In p (firstn k ranked) -> In (fst p) (map fst ranked)).
  { intros p Hp. apply in_map, (In_prefix k), Hp. }
  revert Hin. generalize dependent (firstn k ranked). intros sel Hb.
  induction Hb as [|p r ps rs Hr _ IH]; intros Hin; constructor.
  - destruct (Hfrom (fst p)) as (c & Hc' & Hs); [apply Hin; left; reflexivity|].
    exists c, (snd p). split; [exact Hc'|].
    eapply response_for_source; eassumption.
  - apply IH. intros q Hq. apply Hin. right. exact Hq.
Qed.

Lemma compute_returns_retrieved_candidates_witness :
  exists recs,
    compute sample_env None (Some sample_context) 10 = Ok recs
    /\ List.Forall
         (fun r => exists c score,
                     In c (_get_vector_recommendations sample_env None
                             (Some sample_context)
                           ++ _get_content_based_recommendations sample_env)
                     /\ response_for c score r)
         recs.
Proof.
  set (recs := try_except (compute sample_env None (Some sample_context) 10) []).
  assert (E : compute sample_env None (Some sample_context) 10 = Ok recs)
    by (vm_compute; reflexivity).
  exists recs. split; [exact E|].
  apply (compute_returns_retrieved_candidates _ _ _ _ _ E).
Defined.

(** ** The cache across two requests *)

(** X11.  After a request that went through the compute path and got a
    list, a request for the same user, query and result count whose
    reading of the clock is less than the time-to-live after the store
    is answered with that list and leaves the engine unchanged, whatever
    its environment and whatever its user context: the context is not
    part of the key. *)
Theorem cached_result_served_again hash env env' self user_id query
    user_context user_context' max_results force_refresh cache' recs :
  cache_lookup env (_cache self) (cache_key hash user_id query max_results)
    force_refresh = Miss cache' ->
  compute env query user_context max_results = Ok recs ->
  (now_check env' - now_store env < timedelta_seconds _cache_ttl)%Z ->
  let first := get_personalized_recommendations hash env self user_id query
                 user_context max_results force_refresh in
  fst first = recs
  /\ get_personalized_recommendations hash env' (snd first) user_id query
       user_context' max_results false
     = (recs, snd first).
Proof.
  intros Hmiss Hc Hfresh first.
  set (key := cache_key hash user_id query max_results) in *.
  set (entry := {| data := recs; timestamp := now_store env |}).
  assert (E : first
              = (recs, {| _cache := <[key := entry]> cache';
                          compute_calls := S (compute_calls self) |})).
  { subst first. unfold get_personalized_recommendations. fold key.
    rewrite Hmiss, Hc. reflexivity. }
  rewrite E. cbn [fst snd]. split; [reflexivity|].
  unfold get_personalized_recommendations. fold key. cbn [_cache].
  rewrite (cache_lookup_hit env' _ key entry);
    [reflexivity|apply lookup_insert_eq|exact Hfresh].
Qed.

Lemma cached_result_served_again_witness :
  exists recs,
    compute sample_env None (Some sample_context) 10 = Ok recs
    /\ get_personalized_recommendations sample_hash broken_env
         (snd (get_personalized_recommendations sample_hash sample_env
                 fresh_engine 1 None (Some sample_context) 10 false))
         1 None None 10 false
       = (recs,
          snd (get_personalized_recommendations sample_hash sample_env
                 fresh_engine 1 None (Some sample_context) 10 false)).
Proof.
  set (recs := try_except (compute sample_env None (Some sample_context) 10) []).
  assert (E : compute sample_env None (Some sample_context) 10 = Ok recs)
    by (vm_compute; reflexivity).
  exists recs. split; [exact E|].
  apply (cached_result_served_again sample_hash sample_env broken_env
           fresh_engine 1 None (Some sample_context) None 10 false ∅ recs).
  - reflexivity.
  - exact E.
  - reflexivity.
Defined.

(** X12.  A request whose compute path raises adds nothing to the cache:
    every entry present afterwards was present before, so a fallback
    list is never stored. *)
Theorem failed_compute_caches_nothing hash env self user_id query
    user_context max_results force_refresh :
  compute env query user_context max_results = Raise ->
  forall k entry,
    _cache (snd (get_personalized_recommendations hash env self user_id
                   query user_context max_results force_refresh)) !! k
    = Some entry ->
    _cache self !! k = Some entry.
Proof.
  intros Hc k entry. unfold get_personalized_recommendations, cache_lookup.
  rewrite Hc. destruct force_refresh; cbn [negb]; [auto|].
  destruct (_cache self !! cache_key hash user_id query max_results)
    as [e|] eqn:Ek; [|auto].
  destruct (_ <? _)%Z; cbn [snd _cache]; [auto|].
  intros H. apply lookup_delete_Some in H. apply H.
Qed.

Lemma failed_compute_caches_nothing_witness :
  compute broken_env None None 10 = Raise
  /\ _cache warm_engine !! cache_key sample_hash 1 None 10
     = Some sample_entry.
Proof.
  assert (H : compute broken_env None None 10 = Raise)
    by (vm_compute; reflexivity).
  split; [exact H|].
  apply (failed_compute_caches_nothing sample_hash broken_env warm_engine 1
           None None 10 true H).
  vm_compute. reflexivity.
Defined.

(** ** The fallback list, row by row *)

Lemma fallback_loop_complete courses :
  List.Forall row_complete courses ->
  exists result,
    fallback_loop courses = Ok result
    /\ map r_id result = map row_id courses
    /\ map similarity_score result
       = map (fun row => Some (row_rating row / 5.0)) courses.
Proof.
  induction 1 as [|row courses [Hd Hf] _ (result & E & E1 & E2)].
  - exists []. auto.
  - simpl. unfold response_of_row at 1, make_response.
    destruct (row_difficulty row) as [d|]; [|congruence].
    destruct (row_format row) as [f|]; [|congruence].
    simpl. rewrite E. simpl. eexists. split; [reflexivity|].
    simpl. rewrite E1, E2. auto.
Qed.

Lemma fallback_loop_incomplete courses :
  List.Exists (fun row => row_difficulty row = None \/ row_format row = None)
              courses ->
  fallback_loop courses = Raise.
Proof.
  induction 1 as [row courses H|row courses _ IH]; simpl.
  - unfold response_of_row, make_response.
    destruct H as [-> | ->]; [reflexivity|].
    destruct (row_difficulty row); reflexivity.
  - rewrite IH. destruct (response_of_row row); reflexivity.
Qed.

(** X13.  With the catalogue reachable, the fallback is all or nothing:
    when every selected top-rated row has a difficulty and a format, it
    lists exactly these rows in order, each with similarity
    [rating / 5.0]; when one of them lacks either, the whole list is
    empty. *)
Theorem fallback_all_or_nothing env max_results rows :
  catalog env = Ok rows ->
  let selected := top_rows rows max_results in
  let fallback := _get_fallback_recommendations env max_results in
  (List.Forall row_complete selected ->
   map r_id fallback = map row_id selected
   /\ map similarity_score fallback
      = map (fun row => Some (row_rating row / 5.0)) selected)
  /\ (List.Exists
        (fun row => row_difficulty row = None \/ row_format row = None)
        selected ->
      fallback = []).
Proof.
  intros Hcat selected fallback. subst fallback.
  unfold _get_fallback_recommendations, select_top_rated. rewrite Hcat.
  cbn [mbind exc_bind]. fold (top_rows rows max_results). fold selected.
  split.
  - intros Hall. destruct (fallback_loop_complete selected Hall)
      as (result & -> & E1 & E2). simpl. auto.
  - intros Hex. rewrite (fallback_loop_incomplete selected Hex). reflexivity.
Qed.

Lemma fallback_all_or_nothing_witness :
  map r_id (_get_fallback_recommendations sample_env 1) = ["c1"%string]
  /\ _get_fallback_recommendations incomplete_catalog_env 5 = [].
Proof.
  split.
  - apply (fallback_all_or_nothing sample_env 1 _ eq_refl).
    repeat constructor; discriminate.
  - apply (proj2 (fallback_all_or_nothing incomplete_catalog_env 5 _ eq_refl)).
    apply Exists_cons_hd. left. reflexivity.
Defined.

(** ** Vector search *)

Lemma search_loop_cons limit min_certainty kws obj objects formatted :
  search_loop limit min_certainty kws (obj :: objects) formatted
  = if qualifies min_certainty kws obj
    then if (limit <=? Z.of_nat (length (formatted ++ [result_of obj])))%Z
         then formatted ++ [result_of obj]
         else search_loop limit min_certainty kws objects
                          (formatted ++ [result_of obj])
    else search_loop limit min_certainty kws objects formatted.
Proof.
  cbn [search_loop]. unfold qualifies, result_of. cbn [snd].
  destruct (Qle_bool min_certainty (1.0 - default 1.0 (distance obj)));
    [|reflexivity].
  destruct (_should_exclude_course (properties obj) kws); reflexivity.
Qed.

Lemma search_loop_closed limit min_certainty kws objects formatted :
  search_loop limit min_certainty kws objects formatted
  = formatted
    ++ map result_of
         (firstn (Z.to_nat (Z.max 1 (limit - Z.of_nat (length formatted))))
                 (List.filter (qualifies min_certainty kws) objects)).
Proof.
  revert formatted. induction objects as [|obj objects IH]; intros formatted.
  - simpl. rewrite firstn_nil, app_nil_r. reflexivity.
  - rewrite search_loop_cons. cbn [List.filter].
    destruct (qualifies min_certainty kws obj); [|apply IH].
    destruct (Z.leb_spec limit
                (Z.of_nat (length (formatted ++ [result_of obj]))))
      as [Hstop|Hgo]; rewrite length_app in *; cbn [length] in *.
    + replace (Z.to_nat (Z.max 1 (limit - Z.of_nat (length formatted))))
        with 1%nat by lia.
      cbn [firstn map]. reflexivity.
    + rewrite IH, length_app. cbn [length].
      replace (Z.to_nat (Z.max 1 (limit - Z.of_nat (length formatted))))
        with (S (Z.to_nat (Z.max 1 (limit
                                    - Z.of_nat (length formatted + 1)))))
        by lia.
      cbn [firstn map]. rewrite <- app_assoc. reflexivity.
Qed.

Lemma search_returns_first_qualifying_aux env query_text limit min_certainty
    exclude_topics :
  search_similar_courses env query_text limit min_certainty exclude_topics
  = match vector_index env query_text (limit * 3) min_certainty with
    | Ok objects =>
        map result_of
            (firstn (Z.to_nat (Z.max 1 limit))
                    (List.filter
                       (qualifies min_certainty
                          (_extract_negative_keywords query_text
                           ++ exclude_topics))
                       objects))
    | Raise => []
    end.
Proof.
  unfold search_similar_courses.
  destruct (vector_index env query_text (limit * 3) min_certainty)
    as [objects|]; [|reflexivity].
  cbn [mbind exc_bind try_except]. rewrite search_loop_closed.
  cbn [length app]. rewrite Z.sub_0_r. reflexivity.
Qed.

(** X14.  The search returns, in index order, the first [limit] objects
    (one object when [limit] is below 1) whose certainty, 1 minus the
    distance with a missing distance read as 1, reaches [min_certainty]
    and that no keyword excludes, the keywords being those extracted
    from the query text followed by the caller's; it returns nothing
    when the index query raises. *)
Theorem search_returns_first_qualifying env query_text limit min_certainty
    exclude_topics :
  search_similar_courses env query_text limit min_certainty exclude_topics
  = match vector_index env query_text (limit * 3) min_certainty with
    | Ok objects =>
        map result_of
            (firstn (Z.to_nat (Z.max 1 limit))
                    (List.filter
                       (qualifies min_certainty
                          (_extract_negative_keywords query_text
                           ++ exclude_topics))
                       objects))
    | Raise => []
    end.
Proof. apply search_returns_first_qualifying_aux. Qed.

Lemma exclusion_monotone props kws kws' :
  (forall k, In k kws -> long_enough k = true ->
             exists k', In k' kws' /\ normalized k' = normalized k) ->
  _should_exclude_course props kws = true ->
  _should_exclude_course props kws' = true.
Proof.
  intros Hsub. rewrite !should_exclude_loop, !exclude_loop_true.
  intros (k & Hin & Hlen & H). destruct (Hsub k Hin Hlen) as (k' & Hin' & E).
  exists k'. split; [exact Hin'|]. unfold long_enough in *. rewrite E.
  auto.
Qed.

(** X15.  Exclusion depends only on the set of stripped lower-case forms
    of the keywords: if every keyword of a list has its form among those
    of another list, a course the first list excludes is excluded by the
    second.  Order, repetitions, letter case and surrounding blanks of
    the keywords are immaterial, and adding keywords never readmits a
    course. *)
Theorem exclusion_by_normalized_keywords props kws kws' :
  (forall k, In k kws -> exists k', In k' kws' /\ normalized k' = normalized k) ->
  _should_exclude_course props kws = true ->
  _should_exclude_course props kws' = true.
Proof.
  intros Hsub. apply exclusion_monotone. intros k Hin _. apply Hsub, Hin.
Qed.

Lemma exclusion_by_normalized_keywords_witness :
  _should_exclude_course sample_props ["ml"; " STATISTICS "; "x"]%string = true.
Proof.
  apply (exclusion_by_normalized_keywords sample_props ["statistics"%string]).
  - intros k [<-|[]]. exists " STATISTICS "%string.
    split; [right; left; reflexivity|reflexivity].
  - reflexivity.
Defined.

Lemma exclusion_app_r props kws kws' :
  _should_exclude_course props (kws ++ kws') = false ->
  _should_exclude_course props kws' = false.
Proof.
  intros H. destruct (_should_exclude_course props kws') eqn:E; [|reflexivity].
  rewrite <- H. symmetry. eapply exclusion_monotone; [|exact E].
  intros k Hin _. exists k. split; [apply in_or_app; right; exact Hin|reflexivity].
Qed.

Lemma vector_body_results env query user_context cs :
  vector_body env query user_context = Ok cs ->
  exists combined_query,
    cs = map candidate_of_result
             (search_similar_courses env combined_query 20 0.4
                (engine_exclude_topics query)).
Proof.
  unfold vector_body. destruct (feedback_queries env _) as [fq|];
    [|discriminate].
  cbn [mbind exc_bind]. intros [= <-]. eexists. reflexivity.
Qed.

Lemma search_results_from_index env query_text limit min_certainty
    exclude_topics result :
  In result (search_similar_courses env query_text limit min_certainty
               exclude_topics) ->
  exists obj,
    from_index env query_text limit min_certainty obj
    /\ result = result_of obj
    /\ min_certainty <= snd result
    /\ _should_exclude_course (properties obj)
         (_extract_negative_keywords query_text ++ exclude_topics) = false.
Proof.
  rewrite search_returns_first_qualifying_aux. intros Hin.
  destruct (vector_index env query_text (limit * 3) min_certainty)
    as [objects|] eqn:Ei; [|destruct Hin].
  apply in_map_iff in Hin. destruct Hin as (obj & <- & Ho).
  apply In_prefix, filter_In in Ho. destruct Ho as [Hobj Hq].
  unfold qualifies in Hq. apply andb_true_iff in Hq.
  destruct Hq as [Hcert Hex]. apply Qle_bool_iff in Hcert.
  apply negb_true_iff in Hex. exists obj.
  split; [exists objects; split; [exact Ei|exact Hobj]|].
  split; [reflexivity|]. split; [exact Hcert|exact Hex].
Qed.

(** X16.  The vector stage returns at most 20 candidates, all found by
    one search: each is built from an object that the index returned to
    that search, with a certainty of at least 0.4 recorded as its
    similarity, its topics as the object holds them, and no provenance
    yet; none of the exclusion keywords drawn from the explicit query
    excludes the object. *)
Theorem vector_stage_candidates env query user_context :
  let candidates := _get_vector_recommendations env query user_context in
  (length candidates <= 20)%nat
  /\ exists combined_query,
       List.Forall
         (fun c => exists obj,
                     from_index env combined_query 20 0.4 obj
                     /\ c = candidate_of_result (result_of obj)
                     /\ 0.4 <= snd (result_of obj)
                     /\ _should_exclude_course (properties obj)
                          (engine_exclude_topics query) = false
                     /\ vector_similarity c = Some (snd (result_of obj))
                     /\ topics c = prop_topics (properties obj)
                     /\ source c = None)
         candidates.
Proof.
  intros candidates. subst candidates. unfold _get_vector_recommendations.
  destruct (vector_body env query user_context) as [cs|] eqn:E;
    [|cbn [try_except length]; split;
      [lia|exists EmptyString; constructor]].
  cbn [try_except]. destruct (vector_body_results _ _ _ _ E) as (q & ->).
  split.
  - rewrite length_map, search_returns_first_qualifying_aux.
    destruct (vector_index env q (20 * 3) 0.4) as [objects|];
      [|cbn [length]; lia].
    rewrite length_map, length_firstn. lia.
  - exists q. rewrite List.Forall_forall. intros c Hc.
    apply in_map_iff in Hc. destruct Hc as (result & <- & Hr).
    destruct (search_results_from_index _ _ _ _ _ _ Hr)
      as (obj & Hobj & -> & Hcert & Hex).
    exists obj. split; [exact Hobj|]. split; [reflexivity|].
    split; [exact Hcert|]. split; [eapply exclusion_app_r; exact Hex|].
    repeat split.
Qed.

(** ** Similar courses *)

Lemma response_of_result_fields course r :
  response_of_result course = Ok r ->
  r_id r = prop_courseId (fst course)
  /\ r_title r = prop_title (fst course)
  /\ r_rating r = prop_rating (fst course)
  /\ similarity_score r = Some (snd course).
Proof.
  unfold response_of_result, make_response.
  destruct (prop_topics (fst course)); [|discriminate].
  destruct (prop_difficulty (fst course)); [|discriminate].
  destruct (prop_format (fst course)); [|discriminate].
  intros [= <-]. repeat split.
Qed.

Lemma similar_loop_length course_id max_results similar_courses :
  forall result rs,
    similar_loop course_id max_results similar_courses result = Ok rs ->
    (length result < Z.to_nat (Z.max 1 max_results))%nat ->
    (length rs <= Z.to_nat (Z.max 1 max_results))%nat.
Proof.
  induction similar_courses as [|course rest IH]; intros result rs H Hlt.
  - injection H as <-. lia.
  - cbn [similar_loop] in H.
    destruct (negb (String.eqb (prop_courseId (fst course)) course_id));
      [|eapply IH; eassumption].
    destruct (response_of_result course) as [r|]; [|discriminate].
    cbn [mbind exc_bind] in H.
    destruct (Z.leb_spec max_results (Z.of_nat (length (result ++ [r]))))
      as [Hstop|Hgo]; rewrite length_app in *; cbn [length] in *.
    + injection H as <-. rewrite length_app. cbn [length]. lia.
    + eapply IH; [exact H|]. rewrite length_app. cbn [length]. lia.
Qed.

Lemma similar_loop_members (P : CourseResponse -> Prop) course_id max_results
    similar_courses :
  (forall course r,
      In course similar_courses ->
      prop_courseId (fst course) <> course_id ->
      response_of_result course = Ok r -> P r) ->
  forall result rs,
    similar_loop course_id max_results similar_courses result = Ok rs ->
    List.Forall P result -> List.Forall P rs.
Proof.
  induction similar_courses as [|course rest IH]; intros HP result rs H Hres.
  - injection H as <-. exact Hres.
  - assert (HP' : forall c r, In c rest ->
                    prop_courseId (fst c) <> course_id ->
                    response_of_result c = Ok r -> P r).
    { intros c r Hin. apply HP. right. exact Hin. }
    cbn [similar_loop] in H.
    destruct (String.eqb_spec (prop_courseId (fst course)) course_id)
      as [Heq|Hne]; cbn [negb] in H; [eapply IH; eassumption|].
    destruct (response_of_result course) as [r|] eqn:Er; [|discriminate].
    cbn [mbind exc_bind] in H.
    assert (Hres' : List.Forall P (result ++ [r])).
    { apply List.Forall_app. split; [exact Hres|].
      constructor; [|constructor].
      apply (HP course r); [left; reflexivity|exact Hne|exact Er]. }
    destruct (max_results <=? Z.of_nat (length (result ++ [r])))%Z.
    + injection H as <-. exact Hres'.
    + eapply IH; eassumption.
Qed.

(** X17.  The similar-course look-up never returns the course itself
    and returns at most [max_results] responses (one when [max_results]
    is below 1).  Every response is built from an object that the index
    returned to the search for the target's title, description and
    topics; the object's certainty, at least 0.4, is the similarity
    score, and the object is not excluded by the negative keywords read
    in that very text.  An unknown course gives no response. *)
Theorem similar_courses_exclude_the_target env select_target course_id
    max_results :
  let rs := get_similar_courses_vector env select_target course_id
              max_results in
  (length rs <= Z.to_nat (Z.max 1 max_results))%nat
  /\ List.Forall
       (fun r =>
          r_id r <> course_id
          /\ exists target_title target_description topics obj,
               select_target course_id
               = Ok (Some (target_title, target_description, topics))
               /\ from_index env
                    (target_query target_title target_description topics)
                    (max_results + 1) 0.4 obj
               /\ response_of_result (result_of obj) = Ok r
               /\ 0.4 <= snd (result_of obj)
               /\ _should_exclude_course (properties obj)
                    (_extract_negative_keywords
                       (target_query target_title target_description topics))
                  = false)
       rs.
Proof.
  intros rs. subst rs. unfold get_similar_courses_vector, similar_body.
  destruct (select_target course_id) as [[[[t d] ts]|]|] eqn:Et;
    cbn [mbind exc_bind try_except length];
    try (split; [lia|constructor]).
  destruct (similar_loop _ _ _ _) as [rs|] eqn:El;
    cbn [try_except length]; [|split; [lia|constructor]].
  split; [eapply similar_loop_length; [exact El|cbn [length]; lia]|].
  eapply similar_loop_members; [|exact El|constructor].
  intros result r Hin Hne Hr.
  destruct (response_of_result_fields _ _ Hr) as (Eid & _).
  split; [rewrite Eid; exact Hne|].
  destruct (search_results_from_index _ _ _ _ _ _ Hin)
    as (obj & Hobj & -> & Hcert & Hex).
  rewrite app_nil_r in Hex. exists t, d, ts, obj.
  split; [reflexivity|]. split; [exact Hobj|]. split; [exact Hr|].
  split; [exact Hcert|exact Hex].
Qed.

(** The description of the target course is read as a query: a course
    it names after a negative phrase is never proposed. *)
Example similar_courses_read_the_description :
  map r_id (get_similar_courses_vector statistics_index_env sample_target
              "c1" 5) = ["c2"%string]
  /\ get_similar_courses_vector statistics_index_env sample_target "zz" 5
     = [].
Proof. vm_compute. split; reflexivity. Qed.

(** An object of the index without topics makes the response
    constructor raise, and the look-up returns no course at all. *)
Example similar_courses_without_topics :
  get_similar_courses_vector untyped_index_env sample_target "c1" 5 = [].
Proof. vm_compute. reflexivity. Qed.

(** In the engine too: a vector candidate whose topics are no list makes
    the response constructor raise, and the request returns the fallback
    list. *)
Example recommendations_without_topics :
  compute untyped_index_env None None 10 = Raise
  /\ map r_id (fst (get_personalized_recommendations sample_hash
                      untyped_index_env fresh_engine 1 None None 10 false))
     = ["c9"%string].
Proof. vm_compute. split; reflexivity. Qed.

(** ** Keywords of the extractor are words of the query *)

Lemma append_cons x (a b : string) : String x a +:+ b = String x (a +:+ b).
Proof. reflexivity. Qed.

Lemma append_empty_l (b : string) : "" +:+ b = b.
Proof. reflexivity. Qed.

Lemma append_assoc (a b c : string) : (a +:+ b) +:+ c = a +:+ (b +:+ c).
Proof.
  induction a as [|x a IH]; [reflexivity|]. rewrite !append_cons, IH.
  reflexivity.
Qed.

Lemma append_empty_r (a : string) : a +:+ "" = a.
Proof.
  induction a as [|x a IH]; [reflexivity|]. rewrite append_cons, IH.
  reflexivity.
Qed.

Lemma string_of_list_ascii_snoc l c :
  string_of_list_ascii (l ++ [c]) = string_of_list_ascii l +:+ String c "".
Proof.
  induction l as [|x l IH]; [reflexivity|].
  cbn [app string_of_list_ascii]. rewrite IH, append_cons. reflexivity.
Qed.

Lemma occurs_in_refl s : occurs_in s s.
Proof.
  exists ""%string, ""%string. rewrite append_empty_l, append_empty_r.
  reflexivity.
Qed.

Lemma occurs_in_trans a b c : occurs_in a b -> occurs_in b c -> occurs_in a c.
Proof.
  intros (p & q & ->) (p' & q' & ->). exists (p' +:+ p), (q +:+ q').
  rewrite !append_assoc. reflexivity.
Qed.

Lemma occurs_in_String k c s : occurs_in k s -> occurs_in k (String c s).
Proof. intros (p & q & ->). exists (String c p), q. reflexivity. Qed.

Lemma prefix_append a s :
  String.prefix a s = true <-> exists after, s = a +:+ after.
Proof.
  revert a. induction s as [|y s IH]; intros [|x a]; cbn [String.prefix].
  - split; [intros _; exists ""%string; reflexivity|reflexivity].
  - split; [discriminate|]. intros (q & H). discriminate H.
  - split; [intros _; exists (String y s); reflexivity|reflexivity].
  - destruct (Ascii.ascii_dec x y) as [->|Hne].
    + rewrite IH. split; intros (q & H); exists q;
        rewrite append_cons in *; congruence.
    + split; [discriminate|]. intros (q & H).
      rewrite append_cons in H. congruence.
Qed.

Lemma contains_occurs k s : Text.contains k s = true <-> occurs_in k s.
Proof.
  split.
  - induction s as [|c s IH]; cbn [Text.contains]; intros H;
      apply orb_true_iff in H; destruct H as [H|H].
    + apply prefix_append in H. destruct H as (q & ->).
      exists ""%string, q. reflexivity.
    + discriminate.
    + apply prefix_append in H. destruct H as (q & ->).
      exists ""%string, q. reflexivity.
    + apply occurs_in_String, IH, H.
  - intros (p & q & ->). induction p as [|c p IH].
    + rewrite append_empty_l. assert (H : String.prefix k (k +:+ q) = true)
        by (apply prefix_append; exists q; reflexivity).
      destruct (k +:+ q); cbn [Text.contains]; rewrite H; reflexivity.
    + rewrite append_cons. cbn [Text.contains]. rewrite IH. apply orb_true_r.
Qed.

Lemma take_while_occurs cls s : occurs_in (Regex.take_while cls s) s.
Proof.
  assert (H : exists after, s = Regex.take_while cls s +:+ after).
  { induction s as [|c s (q & IH)]; simpl; [exists ""%string; reflexivity|].
    destruct (cls c); [|exists (String c s); reflexivity].
    exists q. rewrite append_cons, <- IH. reflexivity. }
  destruct H as (q & H). exists ""%string, q. exact H.
Qed.

Lemma drop_occurs n s : occurs_in (Regex.drop n s) s.
Proof.
  revert s. induction n as [|n IH]; intros s; [apply occurs_in_refl|].
  destruct s as [|c s]; [apply occurs_in_refl|].
  simpl. apply occurs_in_String, IH.
Qed.

Lemma take_while_class cls s :
  chars (fun c => cls c = true) (Regex.take_while cls s).
Proof.
  induction s as [|c s IH]; simpl; [exact I|].
  destruct (cls c) eqn:E; simpl; auto.
Qed.

Lemma findall_captures lit cls skip s :
  List.Forall
    (fun cap => cap <> EmptyString
                /\ chars (fun c => cls c = true) cap
                /\ occurs_in cap s)
    (Regex.findall_go lit cls skip s).
Proof.
  revert skip. induction s as [|c s IH]; intros skip; [constructor|].
  assert (Hrec : forall k,
             List.Forall
               (fun cap => cap <> EmptyString
                           /\ chars (fun c => cls c = true) cap
                           /\ occurs_in cap (String c s))
               (Regex.findall_go lit cls k s)).
  { intros k. eapply List.Forall_impl; [|apply IH].
    intros cap (H1 & H2 & H3). auto using occurs_in_String. }
  cbn [Regex.findall_go]. destruct skip as [|k]; [|apply Hrec].
  destruct (String.prefix lit (String c s)); [|apply Hrec].
  pose proof (take_while_class cls
                (Regex.drop (String.length lit) (String c s))) as Hcls.
  pose proof (occurs_in_trans _ _ _
                (take_while_occurs cls
                   (Regex.drop (String.length lit) (String c s)))
                (drop_occurs (String.length lit) (String c s))) as Hocc.
  destruct (Regex.take_while cls (Regex.drop (String.length lit) (String c s)))
    as [|c' cap]; [apply Hrec|].
  constructor; [|apply Hrec]. split; [discriminate|]. split; assumption.
Qed.

Lemma tokens_occur sep whole s :
  forall cur acc before,
    whole = before +:+ string_of_list_ascii (rev cur) +:+ s ->
    List.Forall (fun t => occurs_in t whole) acc ->
    List.Forall (fun t => occurs_in t whole) (Text.tokens_go sep s cur acc).
Proof.
  induction s as [|c s IH]; intros cur acc before Hw Hacc.
  - simpl. apply flush_Forall; [|exact Hacc]. intros _.
    exists before, ""%string. exact Hw.
  - simpl. destruct (sep c).
    + apply (IH [] _ (before +:+ string_of_list_ascii (rev cur)
                      +:+ String c "")).
      * rewrite Hw. cbn [rev string_of_list_ascii].
        rewrite !append_assoc, append_cons, !append_empty_l. reflexivity.
      * apply flush_Forall; [|exact Hacc]. intros _.
        exists before, (String c s). exact Hw.
    + apply (IH (c :: cur) _ before); [|exact Hacc].
      rewrite Hw. cbn [rev]. rewrite string_of_list_ascii_snoc, append_assoc.
      reflexivity.
Qed.

Lemma word_is_keyword_char c : Text.is_word c = true -> keyword_char c.
Proof.
  destruct c as [b0 b1 b2 b3 b4 b5 b6 b7].
  destruct b0, b1, b2, b3, b4, b5, b6, b7; intros H;
    try discriminate H; split; reflexivity.
Qed.

Lemma chars_impl (P Q : ascii -> Prop) s :
  (forall c, P c -> Q c) -> chars P s -> chars Q s.
Proof.
  intros HPQ. induction s as [|c s IH]; simpl; [auto|].
  intros [Hc Hs]. auto.
Qed.

Lemma chars_and (P Q : ascii -> Prop) s :
  chars P s -> chars Q s -> chars (fun c => P c /\ Q c) s.
Proof.
  induction s as [|c s IH]; simpl; [auto|].
  intros [Hc Hs] [Hc' Hs']. auto.
Qed.

Lemma phrase_keyword_word query_lower k :
  In k (phrase_keywords query_lower) ->
  k <> EmptyString /\ chars keyword_char k /\ occurs_in k query_lower.
Proof.
  intros Hk. apply phrase_keywords_In in Hk.
  destruct Hk as (pattern & span & _ & Hs & Hk).
  pose proof (findall_captures pattern Text.not_delim 0 query_lower) as Hf.
  rewrite List.Forall_forall in Hf. destruct (Hf span Hs) as (_ & Hcls & Hocc).
  pose proof (split_tokens_clean span [] []
                (List.Forall_nil _) (List.Forall_nil _)) as Hclean.
  pose proof (chars_tokens _ Text.is_space span [] [] Hcls
                (List.Forall_nil _) (List.Forall_nil _)) as Hdelim.
  pose proof (tokens_occur Text.is_space span span [] [] ""%string
                eq_refl (List.Forall_nil _)) as Hin.
  rewrite List.Forall_forall in Hclean, Hdelim, Hin.
  destruct (Hclean k Hk) as [Hne Hsp].
  split; [exact Hne|]. split.
  - apply chars_and; [exact Hsp|apply Hdelim, Hk].
  - eapply occurs_in_trans; [apply Hin, Hk|exact Hocc].
Qed.

(** X18.  Every keyword the extractor returns, and every keyword of the
    extraction inlined in the engine, is a non-empty run of consecutive
    characters of the lower-cased query that holds no whitespace and
    none of the delimiters [,.!?]; the engine's keywords are among the
    extractor's. *)
Theorem negative_keywords_are_query_words query_text k :
  In k (_extract_negative_keywords query_text)
  \/ In k (engine_exclude_topics (Some query_text)) ->
  In k (_extract_negative_keywords query_text)
  /\ k <> EmptyString
  /\ chars keyword_char k
  /\ Text.contains k (Text.lower query_text) = true.
Proof.
  intros H.
  assert (Hk : In k (phrase_keywords (Text.lower query_text))
               \/ In k (Regex.findall "not " Text.is_word
                          (Text.lower query_text))).
  { destruct H as [H|H]; [apply extract_In, H|left].
    unfold engine_exclude_topics in H.
    destruct (Text.truthy (Some query_text)); [exact H|destruct H]. }
  split; [apply extract_In, Hk|].
  rewrite contains_occurs. destruct Hk as [Hk|Hk].
  - apply phrase_keyword_word, Hk.
  - pose proof (findall_captures "not " Text.is_word 0
                  (Text.lower query_text)) as Hf.
    rewrite List.Forall_forall in Hf. destruct (Hf k Hk) as (Hne & Hcls & Hocc).
    split; [exact Hne|]. split; [|exact Hocc].
    eapply chars_impl; [|exact Hcls]. apply word_is_keyword_char.
Qed.

Lemma negative_keywords_are_query_words_witness :
  Text.contains "statistics"
    (Text.lower "I want Data Science but not Statistics") = true.
Proof.
  apply (negative_keywords_are_query_words
           "I want Data Science but not Statistics" "statistics").
  left. vm_compute. left. reflexivity.
Defined.

(** ** Preferences learnt from feedback *)

Lemma add_topics_cons current_topics topic course_topics :
  add_topics current_topics (topic :: course_topics)
  = add_topics (if Text.mem topic current_topics then current_topics
                else current_topics ++ [topic]) course_topics.
Proof. reflexivity. Qed.

Lemma add_topics_spec course_topics :
  forall current_topics,
  exists added,
    add_topics current_topics course_topics = current_topics ++ added
    /\ List.NoDup added
    /\ (forall t, In t added -> In t course_topics /\ ~ In t current_topics)
    /\ (forall t, In t course_topics -> In t current_topics \/ In t added).
Proof.
  induction course_topics as [|topic rest IH]; intros current_topics.
  - exists []. rewrite app_nil_r. split; [reflexivity|].
    split; [apply List.NoDup_nil|]. split; intros t [].
  - rewrite add_topics_cons.
    destruct (Text.mem topic current_topics) eqn:Em.
    + destruct (IH current_topics) as (added & E & Hnd & Hin & Hcov).
      exists added. split; [exact E|]. split; [exact Hnd|]. split.
      * intros t Ht. destruct (Hin t Ht). split; [right|]; assumption.
      * intros t [<-|Ht]; [left; apply mem_In, Em|apply Hcov, Ht].
    + destruct (IH (current_topics ++ [topic]))
        as (added & E & Hnd & Hin & Hcov).
      assert (Hnew : ~ In topic current_topics).
      { intros H. apply mem_In in H. congruence. }
      exists (topic :: added). split; [rewrite E, <- app_assoc; reflexivity|].
      split.
      * constructor; [|exact Hnd]. intros H. apply Hin in H.
        destruct H as [_ H]. apply H, in_or_app. right. left. reflexivity.
      * split.
        -- intros t [<-|Ht]; [split; [left; reflexivity|exact Hnew]|].
           destruct (Hin t Ht) as [H1 H2]. split; [right; exact H1|].
           intros H. apply H2, in_or_app. left. exact H.
        -- intros t [<-|Ht]; [right; left; reflexivity|].
           destruct (Hcov t Ht) as [H|H]; [|right; right; exact H].
           apply in_app_or in H. destruct H as [H|[<-|[]]];
             [left; exact H|right; left; reflexivity].
Qed.

Lemma add_topics_fixed course_topics current_topics :
  (forall t, In t course_topics -> In t current_topics) ->
  add_topics current_topics course_topics = current_topics.
Proof.
  induction course_topics as [|topic rest IH]; intros H; [reflexivity|].
  rewrite add_topics_cons.
  assert (E : Text.mem topic current_topics = true)
    by (apply mem_In, H; left; reflexivity).
  rewrite E. apply IH. intros t Ht. apply H. right. exact Ht.
Qed.

Lemma update_positive env table user_id feedback course_topics :
  select_topics env (fc_course_id feedback) = Ok (Some course_topics) ->
  (4 <= fc_rating feedback)%Z ->
  update_user_preferences_from_feedback env table user_id feedback
  = <[user_id := row_after table user_id feedback course_topics]> table.
Proof.
  intros Es Hr.
  unfold update_user_preferences_from_feedback, update_body, row_after,
    stored_topics.
  rewrite Es. cbn [mbind exc_bind].
  destruct (Z.leb_spec 4 (fc_rating feedback)); [|lia].
  destruct (table !! user_id) as [row|]; reflexivity.
Qed.

Lemma update_cases env table user_id feedback :
  update_user_preferences_from_feedback env table user_id feedback = table
  \/ exists course_topics,
       select_topics env (fc_course_id feedback) = Ok (Some course_topics)
       /\ (4 <= fc_rating feedback)%Z.
Proof.
  destruct (select_topics env (fc_course_id feedback)) as [[ts|]|] eqn:Es;
    try (left; unfold update_user_preferences_from_feedback, update_body;
         rewrite Es; reflexivity).
  destruct (Z.leb_spec 4 (fc_rating feedback)) as [Hr|Hr].
  - right. exists ts. split; [reflexivity|exact Hr].
  - left. unfold update_user_preferences_from_feedback, update_body.
    rewrite Es. cbn [mbind exc_bind].
    destruct (Z.leb_spec 4 (fc_rating feedback)); [lia|reflexivity].
Qed.

(** X19.  A feedback rated 4 or more on a course with topics appends to
    the user's stored topics, in the course's order and once each, the
    course topics not yet stored; the stored topics keep their places.
    The stored difficulty and learning style are replaced by those of
    the feedback, absent ones included, and the time commitment is
    kept. *)
Theorem positive_feedback_accretes_topics env table user_id feedback
    course_topics :
  select_topics env (fc_course_id feedback) = Ok (Some course_topics) ->
  (4 <= fc_rating feedback)%Z ->
  exists added row,
    update_user_preferences_from_feedback env table user_id feedback
      !! user_id = Some row
    /\ up_preferred_topics row = Some (stored_topics table user_id ++ added)
    /\ List.NoDup added
    /\ (forall t, In t added
                  <-> In t course_topics
                      /\ ~ In t (stored_topics table user_id))
    /\ up_difficulty_level row = fc_difficulty_preference feedback
    /\ up_learning_style row = fc_learning_style feedback
    /\ up_time_commitment row = table !! user_id ≫= up_time_commitment.
Proof.
  intros Es Hr. rewrite (update_positive _ _ _ _ _ Es Hr).
  destruct (add_topics_spec course_topics (stored_topics table user_id))
    as (added & E & Hnd & Hin & Hcov).
  exists added, (row_after table user_id feedback course_topics).
  split; [apply lookup_insert_eq|]. split; [cbn; rewrite E; reflexivity|].
  split; [exact Hnd|]. split; [|repeat split].
  intros t. split; [apply Hin|]. intros [Ht Hn].
  destruct (Hcov t Ht) as [H|H]; [contradiction|exact H].
Qed.

Lemma positive_feedback_accretes_topics_witness :
  exists added row,
    update_user_preferences_from_feedback sample_env sample_table 1
      sample_feedback !! 1%Z = Some row
    /\ up_preferred_topics row = Some (stored_topics sample_table 1 ++ added)
    /\ List.NoDup added
    /\ (forall t, In t added
                  <-> In t ["python"%string]
                      /\ ~ In t (stored_topics sample_table 1))
    /\ up_difficulty_level row = Some "advanced"%string
    /\ up_learning_style row = None
    /\ up_time_commitment row = sample_table !! 1%Z ≫= up_time_commitment.
Proof.
  apply (positive_feedback_accretes_topics sample_env sample_table 1
           sample_feedback ["python"%string]); [reflexivity|].
  vm_compute. discriminate.
Defined.

(** X20.  Recording the same feedback a second time changes nothing
    more; the rows of the other users are never touched; and the table
    changes only on a feedback rated 4 or more for a course that has
    topics: a lower rating, an unknown course and a failing look-up
    leave every preference as it was. *)
Theorem feedback_update_idempotent_and_local env table user_id feedback :
  let table' :=
    update_user_preferences_from_feedback env table user_id feedback in
  update_user_preferences_from_feedback env table' user_id feedback = table'
  /\ delete user_id table' = delete user_id table
  /\ (table' = table
      \/ (4 <= fc_rating feedback)%Z
         /\ exists course_topics,
              select_topics env (fc_course_id feedback)
              = Ok (Some course_topics)).
Proof.
  intros table'. subst table'.
  destruct (update_cases env table user_id feedback) as [E|(ts & Es & Hr)].
  - rewrite E. split; [exact E|]. split; [reflexivity|left; reflexivity].
  - split; [|split; [|right; split; [exact Hr|exists ts; exact Es]]].
    + rewrite (update_positive _ table _ _ _ Es Hr).
      rewrite (update_positive _ _ _ _ _ Es Hr).
      unfold preference_table in *. rewrite insert_insert_eq.
      assert (Erow : row_after
                       (<[user_id := row_after table user_id feedback ts]>
                          table) user_id feedback ts
                     = row_after table user_id feedback ts).
      { unfold row_after at 1. unfold stored_topics at 1.
        unfold preference_table. rewrite !lookup_insert_eq.
        cbn [default from_option up_preferred_topics row_after mbind
             option_bind up_time_commitment].
        rewrite add_topics_fixed; [reflexivity|].
        intros t Ht.
        destruct (add_topics_spec ts (stored_topics table user_id))
          as (added & E & _ & _ & Hcov).
        rewrite E. apply in_or_app. destruct (Hcov t Ht); auto. }
      rewrite Erow. reflexivity.
    + rewrite (update_positive _ _ _ _ _ Es Hr). apply delete_insert_eq.
Qed.

(** A positive feedback without learning style erases the stored one. *)
Example feedback_overwrites_style :
  update_user_preferences_from_feedback sample_env sample_table 1
    sample_feedback
  = {[ 1%Z := {| up_preferred_topics := Some ["sql"; "python"]%string;
                 up_difficulty_level := Some "advanced"%string;
                 up_learning_style := None;
                 up_time_commitment := Some "2h"%string |} ]}.
Proof. apply map_eq. intros i. vm_compute. reflexivity. Qed.

(** ** Router endpoints over the vector search *)

Lemma semantic_loop_Forall2 search_results courses :
  semantic_loop search_results = Ok courses ->
  Forall2 (fun result r => response_of_result result = Ok r)
          search_results courses.
Proof.
  revert courses. induction search_results as [|result rest IH];
    intros courses H.
  - injection H as <-. constructor.
  - cbn [semantic_loop] in H.
    destruct (response_of_result result) as [r|] eqn:Er; [|discriminate].
    cbn [mbind exc_bind] in H.
    destruct (semantic_loop rest) as [cs|]; [|discriminate].
    injection H as <-. constructor; [exact Er|apply IH; reflexivity].
Qed.

Lemma denied (user_id current_user_id : Z) :
  current_user_id <> user_id ->
  negb (current_user_id =? user_id)%Z = true.
Proof. intros H. apply negb_true_iff, Z.eqb_neq, H. Qed.

Lemma Forall2_source {A B} (P : A -> B -> Prop) l l' y :
  Forall2 P l l' -> In y l' -> exists x, In x l /\ P x y.
Proof.
  induction 1 as [|x y' l l' Hxy _ IH]; intros Hin; [destruct Hin|].
  destruct Hin as [<-|Hin].
  - exists x. split; [left; reflexivity|exact Hxy].
  - destruct (IH Hin) as (x' & Hx' & HP). exists x'. split; [right|]; assumption.
Qed.

(** X21.  The semantic search answers a caller's own request with at
    most [max_results] courses (one when [max_results] is below 1), each
    built from an object that the index returned to the search for the
    query; the object's certainty, at least [min_similarity], is the
    similarity score, and the object is excluded neither by a negative
    keyword of the query nor by a listed topic, the list being cut at
    the commas and each piece stripped.  Any failure is answered with
    status 500, never 403, and no other exception escapes. *)
Theorem semantic_search_outcome env user_id query max_results min_similarity
    exclude_topics current_user_id :
  match semantic_course_search env user_id query max_results min_similarity
          exclude_topics current_user_id with
  | Return courses =>
      current_user_id = user_id
      /\ (length courses <= Z.to_nat (Z.max 1 max_results))%nat
      /\ List.Forall
           (fun r =>
              exists obj,
                from_index env query max_results min_similarity obj
                /\ response_of_result (result_of obj) = Ok r
                /\ min_similarity <= snd (result_of obj)
                /\ _should_exclude_course (properties obj)
                     (_extract_negative_keywords query
                      ++ exclude_list_of exclude_topics) = false)
           courses
  | HTTPException status_code => status_code = 500%Z
  | Exception => False
  end.
Proof.
  unfold semantic_course_search.
  destruct (Z.eqb_spec current_user_id user_id) as [Hid|Hid];
    cbn [negb except_Exception]; [|reflexivity].
  destruct (semantic_loop _) as [courses|] eqn:El;
    cbn [except_Exception]; [|reflexivity].
  apply semantic_loop_Forall2 in El.
  split; [exact Hid|]. split.
  - rewrite <- (Forall2_length El), search_returns_first_qualifying_aux.
    destruct (vector_index env query (max_results * 3) min_similarity)
      as [objects|]; [|cbn [length]; lia].
    rewrite length_map, length_firstn. lia.
  - rewrite List.Forall_forall. intros r Hr.
    destruct (Forall2_source _ _ _ _ El Hr) as (result & Hin & Hresp).
    destruct (search_results_from_index _ _ _ _ _ _ Hin)
      as (obj & Hobj & -> & Hcert & Hex).
    exists obj. split; [exact Hobj|]. split; [exact Hresp|].
    split; [exact Hcert|exact Hex].
Qed.

(** X22.  A request for another user is answered with status 500, not
    403, by the similar-course endpoint and by the semantic search
    alike: the handler of the surrounding [try] catches the access
    error too. *)
Theorem access_denied_is_answered_500 env select_target user_id course_id
    query max_results min_similarity exclude_topics use_vector_search
    current_user_id :
  current_user_id <> user_id ->
  get_similar_courses env select_target user_id course_id max_results
    use_vector_search current_user_id = HTTPException 500
  /\ semantic_course_search env user_id query max_results min_similarity
       exclude_topics current_user_id = HTTPException 500.
Proof.
  intros H. unfold get_similar_courses, semantic_course_search.
  rewrite (denied _ _ H). split; reflexivity.
Qed.

Lemma access_denied_is_answered_500_witness :
  get_similar_courses sample_env sample_target 1 "c1" 5 true 2
  = HTTPException 500
  /\ semantic_course_search sample_env 1 "python" 5 0.25 None 2
     = HTTPException 500.
Proof.
  apply (access_denied_is_answered_500 sample_env sample_target 1 "c1"
           "python" 5 0.25 None true 2).
  discriminate.
Defined.

(** An own request: the listed topic removes the only course. *)
Example semantic_search_listed_topic :
  (exists r, semantic_course_search sample_env 1 "python" 5 0.25 None 1
             = Return [r])
  /\ semantic_course_search sample_env 1 "python" 5 0.25
       (Some "java, Fundamentals "%string) 1 = Return []
  /\ semantic_course_search broken_env 1 "python" 5 0.25 None 1
     = HTTPException 500.
Proof.
  split; [eexists; vm_compute; reflexivity|]. split; vm_compute; reflexivity.
Qed.

(** An object of the index without topics makes the response
    constructor raise: the search is answered with status 500. *)
Example semantic_search_without_topics :
  semantic_course_search untyped_index_env 1 "python" 5 0.25 None 1
  = HTTPException 500.
Proof. vm_compute. reflexivity. Qed.

(** ** Catalogue listing *)

Lemma listing_loop_length courses course_list :
  listing_loop courses = Ok course_list ->
  map r_id course_list = map row_id courses.
Proof.
  revert course_list. induction courses as [|course rest IH];
    intros course_list H.
  - injection H as <-. reflexivity.
  - cbn [listing_loop] in H. unfold listed_course, make_response in H.
    destruct (row_difficulty course); [|discriminate].
    destruct (row_format course); [|discriminate].
    cbn [mbind exc_bind] in H.
    destruct (listing_loop rest) as [cs|]; [|discriminate].
    injection H as <-. cbn [map r_id]. rewrite (IH cs eq_refl). reflexivity.
Qed.

(** X23.  When the catalogue listing answers, it lists the rows of the
    page in their order, and its pagination is consistent: the offset
    lies on the reported page, the reported number of pages is the least
    number of pages of [limit] courses that hold the total, and an
    offset below the total lies on one of these pages. *)
Theorem pagination_consistent count_rows page_rows limit offset course_list p :
  (1 <= limit)%Z ->
  get_courses count_rows page_rows limit offset = Return (course_list, p) ->
  exists total_count courses,
    count_rows = Ok total_count
    /\ page_rows = Ok courses
    /\ map r_id course_list = map row_id courses
    /\ pg_total p = total_count
    /\ ((pg_page p - 1) * limit <= offset < pg_page p * limit)%Z
    /\ ((pg_total_pages p - 1) * limit < total_count
        <= pg_total_pages p * limit)%Z
    /\ ((total_count <= offset)%Z \/ (pg_page p <= pg_total_pages p)%Z).
Proof.
  intros Hlimit H. unfold get_courses in H.
  destruct count_rows as [total_count|]; [|discriminate].
  destruct page_rows as [courses|]; [|discriminate].
  cbn [mbind exc_bind] in H.
  destruct (listing_loop courses) as [cs|] eqn:El; [|discriminate].
  unfold floordiv in H. destruct (Z.eqb_spec limit 0) as [|_]; [lia|].
  cbn [mbind exc_bind except_Exception] in H. injection H as <- <-.
  exists total_count, courses. cbn [pg_total pg_page pg_total_pages].
  split; [reflexivity|]. split; [reflexivity|].
  split; [apply listing_loop_length, El|]. split; [reflexivity|].
  pose proof (Z.div_mod offset limit ltac:(lia)) as Ho.
  pose proof (Z.mod_pos_bound offset limit ltac:(lia)) as Ho'.
  pose proof (Z.div_mod (total_count + limit - 1) limit ltac:(lia)) as Ht.
  pose proof (Z.mod_pos_bound (total_count + limit - 1) limit ltac:(lia))
    as Ht'.
  set (q := (offset / limit)%Z) in *.
  set (t := ((total_count + limit - 1) / limit)%Z) in *.
  split; [nia|]. split; [nia|].
  destruct (Z.le_gt_cases total_count offset) as [Hle|Hgt];
    [left; exact Hle|right]. nia.
Qed.

Lemma pagination_consistent_witness :
  exists total_count courses,
    Ok 45%Z = Ok total_count
    /\ Ok [sample_row "c1" 4.5; sample_row "c2" 3.0] = Ok courses
    /\ map r_id
         (default [] (match listing_loop [sample_row "c1" 4.5;
                                          sample_row "c2" 3.0] with
                      | Ok cs => Some cs
                      | Raise => None
                      end))
       = map row_id courses
    /\ 45%Z = total_count
    /\ ((3 - 1) * 20 <= 40 < 3 * 20)%Z
    /\ ((3 - 1) * 20 < total_count <= 3 * 20)%Z
    /\ ((total_count <= 40)%Z \/ (3 <= 3)%Z).
Proof.
  apply (pagination_consistent (Ok 45%Z)
           (Ok [sample_row "c1" 4.5; sample_row "c2" 3.0]) 20 40
           _ {| pg_total := 45; pg_page := 3; pg_limit := 20;
                pg_offset := 40; pg_total_pages := 3 |});
    [lia|reflexivity].
Defined.

(** ** Recommendation history *)

Lemma count_app x xs ys :
  Text.count x (xs ++ ys) = (Text.count x xs + Text.count x ys)%nat.
Proof.
  induction xs as [|y xs IH]; simpl; [reflexivity|]. rewrite IH. lia.
Qed.

Lemma count_topic_keys topic topic_counts :
  map fst (count_topic topic topic_counts)
  = if Text.mem topic (map fst topic_counts) then map fst topic_counts
    else map fst topic_counts ++ [topic].
Proof.
  induction topic_counts as [|[k n] rest IH]; [reflexivity|].
  cbn [count_topic map fst]. unfold Text.mem in *. cbn [existsb].
  destruct (String.eqb topic k); cbn [orb map fst]; [reflexivity|].
  rewrite IH. destruct (existsb (String.eqb topic) (map fst rest));
    reflexivity.
Qed.

Lemma count_topic_counts topics topic topic_counts :
  counts_of topics topic_counts ->
  counts_of (topics ++ [topic]) (count_topic topic topic_counts).
Proof.
  intros (Hnd & Hall & Hcov).
  assert (Hfresh : Text.mem topic (map fst topic_counts) = false ->
                   Text.count topic topics = 0%nat).
  { intros Hm. destruct (Text.count topic topics) eqn:Ec; [reflexivity|].
    assert (Hin : In topic topics).
    { apply mem_In. rewrite mem_count, Ec. reflexivity. }
    apply Hcov, mem_In in Hin. congruence. }
  split; [|split].
  - rewrite count_topic_keys.
    destruct (Text.mem topic (map fst topic_counts)) eqn:Em; [exact Hnd|].
    apply NoDup_app; [exact Hnd|repeat constructor; intros []|].
    intros x Hx [<-|[]]. apply mem_In in Hx. congruence.
  - clear Hcov. revert Hnd Hall Hfresh.
    induction topic_counts as [|[k n] rest IH]; intros Hnd Hall Hfresh.
    + cbn [count_topic]. constructor; [|constructor]. cbn [fst snd].
      rewrite count_app, (Hfresh eq_refl). cbn [Text.count].
      rewrite String.eqb_refl. split; lia.
    + apply List.Forall_cons_iff in Hall. destruct Hall as [[Hk Hn] Hall].
      cbn [fst snd] in Hk, Hn. cbn [map fst] in Hnd.
      apply List.NoDup_cons_iff in Hnd. destruct Hnd as [Hk' Hnd].
      cbn [count_topic]. destruct (String.eqb_spec topic k) as [->|Hne].
      * constructor.
        -- cbn [fst snd]. rewrite count_app. cbn [Text.count].
           rewrite String.eqb_refl. split; lia.
        -- rewrite List.Forall_forall in *. intros [k' n'] Hin.
           destruct (Hall _ Hin) as [H1 H2]. cbn [fst snd] in *.
           rewrite count_app. cbn [Text.count].
           assert (Hd : String.eqb k' k = false).
           { apply String.eqb_neq. intros ->. apply Hk'.
             apply in_map_iff. exists (k, n'). split; [reflexivity|exact Hin]. }
           rewrite Hd. split; lia.
      * constructor.
        -- cbn [fst snd]. rewrite count_app. cbn [Text.count].
           assert (Hd : String.eqb k topic = false)
             by (apply String.eqb_neq; congruence).
           rewrite Hd. split; lia.
        -- apply IH; [exact Hnd|exact Hall|].
           intros Hm. apply Hfresh. unfold Text.mem in *. cbn [map fst existsb].
           rewrite Hm. apply String.eqb_neq in Hne. rewrite Hne. reflexivity.
  - intros t Ht. rewrite count_topic_keys. apply in_app_or in Ht.
    destruct (Text.mem topic (map fst topic_counts)) eqn:Em.
    + destruct Ht as [Ht|[<-|[]]]; [apply Hcov, Ht|apply mem_In, Em].
    + apply in_or_app. destruct Ht as [Ht|Ht]; [left; apply Hcov, Ht|right; exact Ht].
Qed.

Lemma aggregate_counts recent_preferences :
  counts_of (all_topics recent_preferences)
            (aggregate_topics recent_preferences).
Proof.
  unfold aggregate_topics.
  assert (H : forall rows topics topic_counts,
             counts_of topics topic_counts ->
             counts_of (topics ++ all_topics rows)
               (fold_left
                  (fun topic_counts pref =>
                     match pref with
                     | Some ts =>
                         fold_left (fun topic_counts topic =>
                                      count_topic topic topic_counts)
                                   ts topic_counts
                     | None => topic_counts
                     end) rows topic_counts)).
  { induction rows as [|pref rows IH]; intros topics topic_counts Hc.
    - cbn [all_topics flat_map fold_left]. rewrite app_nil_r. exact Hc.
    - cbn [all_topics flat_map fold_left]. fold (all_topics rows).
      rewrite app_assoc. apply IH. destruct pref as [ts|];
        [|cbn [default from_option]; rewrite app_nil_r; exact Hc].
      cbn [default from_option Datatypes.id]. clear IH.
      revert topics topic_counts Hc.
      induction ts as [|t ts IHts]; intros topics topic_counts Hc.
      + cbn [fold_left]. rewrite app_nil_r. exact Hc.
      + cbn [fold_left].
        replace (topics ++ t :: ts) with ((topics ++ [t]) ++ ts)
          by (rewrite <- app_assoc; reflexivity).
        apply IHts, count_topic_counts, Hc. }
  apply (H recent_preferences [] []).
  split; [constructor|]. split; [constructor|]. intros t [].
Qed.

Lemma keyed_sorted (l : list ((string * Z) * Q)) :
  List.Forall (fun x => snd x = inject_Z (snd (fst x))) l ->
  StronglySorted score_ge l ->
  StronglySorted count_ge (map fst l).
Proof.
  intros Hk Hs. induction Hs as [|x l Hs IH Hx]; [constructor|].
  apply List.Forall_cons_iff in Hk. destruct Hk as [Ex Hk].
  cbn [map]. constructor; [apply IH, Hk|].
  rewrite List.Forall_forall in *. intros y Hy. apply in_map_iff in Hy.
  destruct Hy as (y' & <- & Hy'). specialize (Hx y' Hy').
  unfold score_ge in Hx. rewrite Ex, (Hk y' Hy') in Hx.
  unfold count_ge. rewrite Zle_Qle. exact Hx.
Qed.

Lemma top_topics_spec topic_counts :
  (length (top_topics topic_counts) <= 10)%nat
  /\ StronglySorted count_ge (top_topics topic_counts)
  /\ (forall item, In item (top_topics topic_counts) -> In item topic_counts)
  /\ (List.NoDup (map fst topic_counts) ->
      List.NoDup (map fst (top_topics topic_counts))).
Proof.
  unfold top_topics.
  set (keyed := map (fun item => (item, inject_Z (snd item))) topic_counts).
  assert (Hperm : Permutation topic_counts (map fst (sort_desc keyed))).
  { rewrite <- (sort_desc_perm keyed). subst keyed. rewrite map_map.
    cbn [fst]. rewrite map_id. reflexivity. }
  split; [rewrite length_firstn; lia|]. split; [|split].
  - apply StronglySorted_firstn, keyed_sorted; [|apply sort_desc_sorted].
    rewrite List.Forall_forall. intros x Hx.
    apply (Permutation_in _ (Permutation_sym (sort_desc_perm keyed))) in Hx.
    subst keyed. apply in_map_iff in Hx. destruct Hx as (item & <- & _).
    reflexivity.
  - intros item Hin. apply In_prefix in Hin.
    eapply Permutation_in; [apply Permutation_sym, Hperm|exact Hin].
  - intros Hnd. rewrite <- firstn_map. apply NoDup_firstn.
    eapply Permutation_NoDup; [apply Permutation_map, Hperm|exact Hnd].
Qed.

(** X24.  When the history endpoint answers, the request is the
    caller's own and the preferred topics are at most ten distinct
    topics of the positively rated courses, each with the number of its
    occurrences in the rows of the query, listed by non-increasing
    count.  Any failure, a request for another user included, is
    answered with status 500. *)
Theorem history_counts_topics {A} (feedback_stats : exc (list A))
    interaction_stats recent_preferences client_available user_id
    current_user_id :
  match get_recommendation_history feedback_stats interaction_stats
          recent_preferences client_available user_id current_user_id with
  | Return answer =>
      current_user_id = user_id
      /\ exists rows,
           recent_preferences = Ok rows
           /\ (length (hist_preferred_topics answer) <= 10)%nat
           /\ List.NoDup (map fst (hist_preferred_topics answer))
           /\ List.Forall
                (fun item =>
                   snd item
                   = Z.of_nat (Text.count (fst item) (all_topics rows))
                   /\ (1 <= snd item)%Z)
                (hist_preferred_topics answer)
           /\ StronglySorted count_ge (hist_preferred_topics answer)
  | HTTPException status_code => status_code = 500%Z
  | Exception => False
  end.
Proof.
  unfold get_recommendation_history.
  destruct (Z.eqb_spec current_user_id user_id) as [Hid|Hid];
    cbn [negb except_Exception]; [|reflexivity].
  destruct feedback_stats as [fs|]; [|reflexivity].
  destruct interaction_stats as [stats|]; [|reflexivity].
  destruct recent_preferences as [rows|]; [|reflexivity].
  cbn [mbind exc_bind except_Exception hist_preferred_topics
       total_interactions].
  split; [exact Hid|]. exists rows. split; [reflexivity|].
  destruct (aggregate_counts rows) as (Hnd & Hall & _).
  destruct (top_topics_spec (aggregate_topics rows))
    as (Hlen & Hsorted & Hin & Hnd').
  split; [exact Hlen|]. split; [apply Hnd', Hnd|]. split; [|exact Hsorted].
  rewrite List.Forall_forall in *. intros item Hi. apply Hall, Hin, Hi.
Qed.

Example history_topics_ex :
  top_topics (aggregate_topics
                [Some ["python"; "sql"]; None; Some ["sql"; "r"]]%string)
  = [("sql", 2%Z); ("python", 1%Z); ("r", 1%Z)]%string.
Proof. vm_compute. reflexivity. Qed.
